(** * pd-prototype: frame-quality gates and burst scoring

    A shallow embedding of [server/quality_gates.py] and of the
    measurement handler of [server/main.py], together with the properties
    of the gate evaluator, the burst scorer and the token cooldown.

    Conventions of the embedding.
    - A Python [float] is a primitive binary64 float ([PrimFloat.float]);
      comparisons and arithmetic are the IEEE ones, so the thresholds, the
      score and its rounding evaluate to the very values Python computes.
    - A Python exception is a value [Raise e] of the type [result].
    - The module-level dictionaries of [main.py] are threaded explicitly
      as a [State] record; the clock read at the top of [measure] is an
      argument of the model, and calls are taken one at a time.
    - OpenCV and NumPy are not part of the repository.  The few calls the
      source makes are modelled in the modules [cv2] and [np] from their
      documented behaviour, over exact integers and rationals (see there).
    - Uploads reach the model decoded: a frame is the array [bgr] that
      [main.py] builds from the upload before it computes the metrics. *)

From Stdlib Require Import String Ascii.
From Stdlib Require Import ZArith QArith Bool Lia List Permutation Sorted.
From Stdlib Require Import Floats.
Import ListNotations.

Set Warnings "-inexact-float".

(** ** Exceptions *)

Inductive exn : Type :=
| cv2_error (msg : string)
| StatisticsError (msg : string).

Inductive result (A : Type) : Type :=
| Return (a : A)
| Raise (e : exn).
Arguments Return {A} a.
Arguments Raise {A} e.

Definition bind {A B : Type} (c : result A) (k : A -> result B) : result B :=
  match c with
  | Return a => k a
  | Raise e => Raise e
  end.

Declare Scope result_scope.
Delimit Scope result_scope with result.
Notation "x <- c ;; k" := (bind c (fun x => k))
  (at level 61, c at next level, right associativity) : result_scope.
Notation "' p <- c ;; k" := (bind c (fun p => k))
  (at level 61, p pattern, c at next level, right associativity) : result_scope.

(** ** Python floats *)

Module Py.

Local Open Scope float_scope.

(** Python writes [x >= y] and [x > y]; IEEE has them as [y <= x], [y < x]. *)
Definition geb (x y : float) : bool := y <=? x.
Definition gtb (x y : float) : bool := y <? x.

(** The nearest binary64 value of the rational [num / den] (round to
    nearest, ties to even): one correctly rounded division of the two
    integers, taken as exact mantissas. *)
Definition ratio2float (num : Z) (den : positive) : float :=
  match num with
  | Z0 => 0
  | Zpos n =>
      SF2Prim (SFdiv prec emax (S754_finite false n 0) (S754_finite false den 0))
  | Zneg n =>
      SF2Prim (SFdiv prec emax (S754_finite true n 0) (S754_finite false den 0))
  end.

Definition Q2float (q : Q) : float := ratio2float (Qnum q) (Qden q).

(** The integer nearest to [num / den] for [den > 0], ties to even. *)
Definition round_half_even (num den : Z) : Z :=
  let q := (num / den)%Z in
  let r := (num mod den)%Z in
  match (2 * r ?= den)%Z with
  | Lt => q
  | Gt => (q + 1)%Z
  | Eq => if Z.even q then q else (q + 1)%Z
  end.

(** [round(x, ndigits)] for a float [x] and [ndigits >= 0]
    (CPython's [float.__round__]): a NaN or an infinity rounds to itself;
    otherwise the exact binary value of [x] is rounded to [ndigits]
    decimal places, ties to even, and the decimal so obtained is read
    back as the nearest float.  The sign of [x] is kept, also on a zero
    result. *)
Definition round (x : float) (ndigits : nat) : float :=
  match Prim2SF x with
  | S754_finite s m e =>
      let p := (10 ^ Z.of_nat ndigits)%Z in
      let n := round_half_even (Zpos m * p * 2 ^ Z.max e 0) (2 ^ Z.max (- e) 0) in
      match n with
      | Zpos k =>
          SF2Prim (SFdiv prec emax (S754_finite s k 0)
                     (S754_finite false (Z.to_pos p) 0))
      | _ => if s then neg_zero else zero
      end
  | _ => x
  end.

(** [sorted(data)]: a stable sort that compares with [<] only, as
    Python's does.  On a list without NaN every stable sort returns this
    list; the order Python leaves a list with NaNs in is not modelled. *)
Fixpoint insert (x : float) (l : list float) : list float :=
  match l with
  | [] => [x]
  | y :: l' => if x <? y then x :: y :: l' else y :: insert x l'
  end.

Definition sorted (data : list float) : list float :=
  fold_left (fun acc x => insert x acc) data [].

End Py.

(** [statistics.median]: the middle value of the sorted data, or the mean
    of the two middle values; [StatisticsError] on empty data. *)
Module statistics.

Definition median (data : list float) : result float :=
  let data := Py.sorted data in
  let n := List.length data in
  if Nat.eqb n 0 then Raise (StatisticsError "no median for empty data")
  else if Nat.eqb (n mod 2) 1 then Return (nth (n / 2) data 0%float)
  else
    let i := (n / 2)%nat in
    Return ((nth (i - 1) data 0 + nth i data 0) / 2)%float.

End statistics.

(** ** Python dictionaries with string keys

    Insertion-ordered, as Python's: [dict_set] overwrites in place or
    appends. *)

Definition dict (V : Type) : Type := list (string * V).

Fixpoint dict_get {V : Type} (d : dict V) (k : string) : option V :=
  match d with
  | [] => None
  | (k', v) :: d' => if String.eqb k k' then Some v else dict_get d' k
  end.

(** [d.get(k, default)] *)
Definition dict_get_default {V : Type} (d : dict V) (k : string) (default : V) : V :=
  match dict_get d k with
  | Some v => v
  | None => default
  end.

(** [d[k] = v] *)
Fixpoint dict_set {V : Type} (d : dict V) (k : string) (v : V) : dict V :=
  match d with
  | [] => [(k, v)]
  | (k', v') :: d' =>
      if String.eqb k k' then (k, v) :: d' else (k', v') :: dict_set d' k v
  end.

(** ** The OpenCV and NumPy calls of the source

    These functions belong to third-party libraries, not to the
    repository; they are modelled from the libraries' documentation.
    - An image buffer is a NumPy array of 8-bit values of shape [(h, w)]
      (one channel) or [(h, w, 3)] (three channels, in B, G, R order).
    - Pixel values, Laplacian responses and histogram counts are
      integers and are kept as such; the variance and the clipping ratio
      are kept as exact rationals.  The rounding NumPy performs inside
      its float32 and float64 reductions is not modelled: a metric is
      delivered as the float nearest to its exact value. *)

Module cv2.

Definition gray_image : Type := list (list Z).

Inductive ndarray : Type :=
| Mat1 (rows : gray_image)
| Mat3 (rows : list (list (Z * Z * Z))).

Definition channels (a : ndarray) : nat :=
  match a with
  | Mat1 _ => 1
  | Mat3 _ => 3
  end.

Definition shape_of {A : Type} (rows : list (list A)) : nat * nat :=
  (List.length rows, List.length (hd [] rows)).

(** [a.size == 0] *)
Definition empty (a : ndarray) : bool :=
  let '(h, w) := match a with
                 | Mat1 rows => shape_of rows
                 | Mat3 rows => shape_of rows
                 end in
  Nat.eqb h 0 || Nat.eqb w 0.

Inductive ColorConversionCodes : Type := COLOR_BGR2GRAY.

Inductive ddepth : Type := CV_64F.

(** The luminance [0.299 R + 0.587 G + 0.114 B] in 14-bit fixed point, the
    way OpenCV computes it on 8-bit images (later releases carry one bit
    more; no property below depends on the weights). *)
Definition luminance (p : Z * Z * Z) : Z :=
  let '(b, g, r) := p in
  Z.shiftr (b * 1868 + g * 9617 + r * 4899 + Z.shiftl 1 13) 14.

(** [cv2.cvtColor(src, code)].  OpenCV rejects an empty source, and for
    [COLOR_BGR2GRAY] a source that does not have 3 (or 4) channels. *)
Definition cvtColor (src : ndarray) (code : ColorConversionCodes)
  : result gray_image :=
  if empty src then Raise (cv2_error "(-215:Assertion failed) !_src.empty()")
  else
    match code, src with
    | COLOR_BGR2GRAY, Mat3 rows => Return (map (map luminance) rows)
    | COLOR_BGR2GRAY, Mat1 _ =>
        Raise (cv2_error "Invalid number of channels in input image")
    end.

(** Border rule [BORDER_REFLECT_101] (OpenCV's default): [gfedcb|abcdefgh|gfedcba]. *)
Definition reflect101 (len p : Z) : Z :=
  if (len =? 1)%Z then 0%Z
  else if (p <? 0)%Z then (- p)%Z
  else if (len <=? p)%Z then (2 * len - 2 - p)%Z
  else p.

Definition pixel (g : gray_image) (y x : Z) : Z :=
  let row := nth (Z.to_nat (reflect101 (Z.of_nat (List.length g)) y)) g [] in
  nth (Z.to_nat (reflect101 (Z.of_nat (List.length row)) x)) row 0%Z.

(** [cv2.Laplacian(src, cv2.CV_64F)] with the default aperture: the 3x3
    filter [0 1 0; 1 -4 1; 0 1 0].  The responses are integers, which a
    64-bit float holds exactly. *)
Definition Laplacian (src : gray_image) (d : ddepth) : list (list Z) :=
  map (fun y : nat =>
         let y := Z.of_nat y in
         map (fun x : nat =>
                let x := Z.of_nat x in
                (pixel src (y - 1) x + pixel src (y + 1) x
                 + pixel src y (x - 1) + pixel src y (x + 1)
                 - 4 * pixel src y x)%Z)
             (seq 0 (List.length (nth (Z.to_nat y) src []))))
      (seq 0 (List.length src)).

(** [cv2.calcHist([gray], [0], None, [256], [0, 256]).flatten()]: the
    number of pixels of each value 0..255. *)
Definition calcHist (gray : gray_image) : list Z :=
  map (fun v : nat =>
         Z.of_nat (count_occ Z.eq_dec (concat gray) (Z.of_nat v)))
      (seq 0 256).

End cv2.

(** NumPy reductions over all the elements of an array. *)
Module np.

(** [a.sum()] of integer counts. *)
Definition sum (xs : list Z) : Z := fold_right Z.add 0%Z xs.

Definition Qsum (xs : list Q) : Q := fold_right Qplus 0%Q xs.

(** [a.mean()] over all the elements of [a]. *)
Definition mean (a : list (list Z)) : Q :=
  let xs := concat a in
  (inject_Z (sum xs) / inject_Z (Z.of_nat (List.length xs)))%Q.

(** [a.var()]: the mean of the squared deviations from the mean (on the
    non-empty arrays [cvtColor] lets through). *)
Definition var (a : list (list Z)) : Q :=
  let xs := concat a in
  let m := mean a in
  (Qsum (map (fun x => (inject_Z x - m) * (inject_Z x - m)) xs)
   / inject_Z (Z.of_nat (List.length xs)))%Q.

End np.

(** ** server/quality_gates.py *)

Module quality_gates.

Import cv2.
Local Open Scope result_scope.
Local Open Scope string_scope.

(** Sharpness metric: variance of the Laplacian of the grayscale image. *)
Definition calc_blur_laplacian_var (bgr : ndarray) : result float :=
  gray <- cvtColor bgr COLOR_BGR2GRAY ;;
  Return (Py.Q2float (np.var (Laplacian gray CV_64F))).

(** Line 20: the total of the histogram, with a zero total replaced by 1. *)
Definition hist_total (hist : list Z) : Q :=
  if (0 <? np.sum hist)%Z then inject_Z (np.sum hist) else 1%Q.

(** Lines 20-22: the share of the two extreme bins, in percent. *)
Definition clip_pct_of_hist (hist : list Z) : Q :=
  let total := hist_total hist in
  let extreme := inject_Z (nth 0 hist 0%Z + last hist 0%Z) in
  ((extreme / total) * 100)%Q.

(** Lighting check: percentage of pixels at 0 or 255. *)
Definition calc_hist_clip_pct (bgr : ndarray) : result float :=
  gray <- cvtColor bgr COLOR_BGR2GRAY ;;
  let hist := calcHist gray in
  Return (Py.Q2float (clip_pct_of_hist hist)).

Definition GateVerdict : Type := bool * list string * string * dict float.

(** Lines 31-51 of [evaluate_basic_gates], given the two metrics of
    lines 34-35. *)
Definition gate_verdict (blur clip : float) : GateVerdict :=
  let failing : list string := [] in
  let guidance := "Hold still… capturing soon" in
  let '(failing, guidance) :=
    if (blur <? 80.0)%float
    then ((failing ++ ["sharpness"])%list, "Hold still—image is a bit blurry")
    else (failing, guidance) in
  let '(failing, guidance) :=
    if Py.geb clip 8.0
    then ((failing ++ ["lighting"])%list,
          "Face a light source (avoid a bright window behind you)")
    else (failing, guidance) in
  let ready := Nat.eqb (List.length failing) 0 in
  let guidance := if ready then "Hold still… capturing" else guidance in
  let metrics := [("blur_laplacian_var", blur); ("lighting_clip_pct", clip)] in
  (ready, failing, guidance, metrics).

Definition evaluate_basic_gates (bgr : ndarray) : result GateVerdict :=
  blur <- calc_blur_laplacian_var bgr ;;
  clip <- calc_hist_clip_pct bgr ;;
  Return (gate_verdict blur clip).

End quality_gates.

(** ** server/main.py: the measurement handler *)

Module main.

Import cv2 quality_gates.
Local Open Scope result_scope.
Local Open Scope string_scope.

(** The two module-level dictionaries: [USAGE_COUNTER["measure_calls"]]
    and [RECENT_TOKENS] (token -> time of last use, epoch seconds). *)
Record State : Type := {
  USAGE_COUNTER : Z;
  RECENT_TOKENS : dict float
}.

Definition TOKEN_COOLDOWN_SEC : float := 2.5.

Record MeasureResponse : Type := {
  ok : bool;
  distance_pd_mm : option float;
  near_pd_mm : option float;
  score : float;
  frames_used : nat;
  diagnostics : dict (list float);
  message : string
}.

(** The truth value Python gives [server_token] in [if server_token:]:
    false for [None] and for the empty string. *)
Definition truthy (server_token : option string) : bool :=
  match server_token with
  | Some s => negb (String.eqb s "")
  | None => false
  end.

(** Lines 118-126. *)
Definition too_rapid : MeasureResponse := {|
  ok := false;
  distance_pd_mm := None;
  near_pd_mm := None;
  score := 0.0;
  frames_used := 0;
  diagnostics := [("blur", []); ("clip_pct", [])];
  message := "Too-rapid repeat; please hold still briefly."
|}.

(** The test of line 149: a frame with these metrics is skipped. *)
Definition broken (b c : float) : bool :=
  (b <? 5.0)%float || Py.gtb c 50.0.

(** Lines 132-153: the loop over the frames, appending to [blur_vals]
    and [clip_vals].  A frame is the array [bgr] of line 143; reading and
    decoding the upload (lines 133-142) precede the model. *)
Fixpoint collect (frames : list ndarray) (blur_vals clip_vals : list float)
  : result (list float * list float) :=
  match frames with
  | [] => Return (blur_vals, clip_vals)
  | bgr :: frames' =>
      b <- calc_blur_laplacian_var bgr ;;
      c <- calc_hist_clip_pct bgr ;;
      if broken b c then collect frames' blur_vals clip_vals
      else collect frames' (blur_vals ++ [b])%list (clip_vals ++ [c])%list
  end.

(** Blur component: 0 at 40, 1 at 160. *)
Definition score_component_blur (b : float) : float :=
  if Py.geb b 160.0 then 1.0
  else if (b <=? 40.0)%float then 0.0
  else ((b - 40.0) / (160.0 - 40.0))%float.

(** Clip component: 1 at 4%, 0 at 16%. *)
Definition score_component_clip (c : float) : float :=
  if (c <=? 4.0)%float then 1.0
  else if Py.geb c 16.0 then 0.0
  else (1.0 - (c - 4.0) / (16.0 - 4.0))%float.

(** Lines 190-194. *)
Definition banding (score : float) : string :=
  if Py.geb score 0.75 then "OK"
  else if Py.geb score 0.55 then "Borderline — consider retaking"
  else "Low quality — retake".

(** Lines 129-208: everything after the cooldown check. *)
Definition score_burst (frames : list ndarray) : result MeasureResponse :=
  '(blur_vals, clip_vals) <- collect frames [] [] ;;
  let frames_used := List.length blur_vals in
  if (frames_used <? 3)%nat then
    Return {| ok := false;
              distance_pd_mm := None;
              near_pd_mm := None;
              score := 0.0;
              frames_used := frames_used;
              diagnostics := [("blur", blur_vals); ("clip_pct", clip_vals)];
              message := "Low-quality burst — retake" |}
  else
    med_blur <- statistics.median blur_vals ;;
    med_clip <- statistics.median clip_vals ;;
    let s_blur := score_component_blur med_blur in
    let s_clip := score_component_clip med_clip in
    let score := Py.round (0.7 * s_blur + 0.3 * s_clip)%float 3 in
    let message := banding score in
    Return {| ok := true;
              distance_pd_mm := None;
              near_pd_mm := None;
              score := score;
              frames_used := frames_used;
              diagnostics := [("blur", blur_vals); ("clip_pct", clip_vals)];
              message := message |}.

(** [measure]: [st] is the state of the two dictionaries when the call
    begins and [now] the value [time()] returns at line 111; the result is
    the state the call leaves and what it returns or raises. *)
Definition measure (st : State) (now : float)
    (server_token : option string) (working_distance_cm : option float)
    (frames : list ndarray) : State * result MeasureResponse :=
  let st := {| USAGE_COUNTER := USAGE_COUNTER st + 1;
               RECENT_TOKENS := RECENT_TOKENS st |} in
  match server_token with
  | Some token =>
      if truthy server_token then
        let last := dict_get_default (RECENT_TOKENS st) token 0.0%float in
        if (now - last <? TOKEN_COOLDOWN_SEC)%float then (st, Return too_rapid)
        else
          let st := {| USAGE_COUNTER := USAGE_COUNTER st;
                       RECENT_TOKENS := dict_set (RECENT_TOKENS st) token now |} in
          (st, score_burst frames)
      else (st, score_burst frames)
  | None => (st, score_burst frames)
  end.

(** The state of a freshly started process. *)
Definition initial_state : State :=
  {| USAGE_COUNTER := 0; RECENT_TOKENS := [] |}.

End main.

(** ** Vocabulary of the statements *)

(** The order of the floats that are not NaN, read off their
    sign-exponent-mantissa form: [SFcompare] is the lexicographic order of
    these triples. *)
Module FloatOrder.

Definition key (x : spec_float) : option (Z * Z * Z) :=
  match x with
  | S754_nan => None
  | S754_infinity true => Some (-2, 0, 0)%Z
  | S754_infinity false => Some (2, 0, 0)%Z
  | S754_zero _ => Some (0, 0, 0)%Z
  | S754_finite true m e => Some (-1, - e, Zneg m)%Z
  | S754_finite false m e => Some (1, e, Zpos m)%Z
  end.

Definition lex_lt (a b : Z * Z * Z) : Prop :=
  let '(a1, a2, a3) := a in
  let '(b1, b2, b3) := b in
  (a1 < b1 \/ (a1 = b1 /\ (a2 < b2 \/ (a2 = b2 /\ a3 < b3))))%Z.

Definition lex_le (a b : Z * Z * Z) : Prop :=
  let '(a1, a2, a3) := a in
  let '(b1, b2, b3) := b in
  (a1 < b1 \/ (a1 = b1 /\ (a2 < b2 \/ (a2 = b2 /\ a3 <= b3))))%Z.

Definition fkey (x : float) : option (Z * Z * Z) := key (Prim2SF x).

End FloatOrder.

Module Vocabulary.

Import cv2 quality_gates main.
Local Open Scope result_scope.
Local Open Scope string_scope.

(** A buffer as [measure] and [ready_check] hand it to the metrics:
    three channels and at least one pixel. *)
Definition valid_frame (a : ndarray) : bool :=
  Nat.eqb (channels a) 3 && negb (empty a).

(** The pair (sharpness, clip percentage) of every frame, in order. *)
Fixpoint frame_metrics (frames : list ndarray) : result (list (float * float)) :=
  match frames with
  | [] => Return []
  | bgr :: frames' =>
      b <- calc_blur_laplacian_var bgr ;;
      c <- calc_hist_clip_pct bgr ;;
      ms <- frame_metrics frames' ;;
      Return ((b, c) :: ms)
  end.

(** A frame survives the sanity filter unless its sharpness is below 5.0
    or its clip percentage above 50.0. *)
Definition survives (m : float * float) : bool :=
  negb ((fst m <? 5.0)%float || (50.0 <? snd m)%float).

Definition survivors (ms : list (float * float)) : list (float * float) :=
  filter survives ms.

(** The call is turned away by the cooldown: it carries a non-empty token
    whose last recorded use is less than [TOKEN_COOLDOWN_SEC] before [now]. *)
Definition cooldown_rejects (st : State) (now : float)
    (server_token : option string) : bool :=
  match server_token with
  | Some token =>
      negb (String.eqb token "")
      && (now - dict_get_default (RECENT_TOKENS st) token 0.0 <? TOKEN_COOLDOWN_SEC)%float
  | None => false
  end.

(** A call of [measure] with its clock reading, and the state a sequence
    of calls leaves. *)
Record Call : Type := {
  call_now : float;
  call_token : option string;
  call_distance : option float;
  call_frames : list ndarray
}.

Definition answer (st : State) (c : Call) : State * result MeasureResponse :=
  measure st (call_now c) (call_token c) (call_distance c) (call_frames c).

Definition run (st : State) (calls : list Call) : State :=
  fold_left (fun st c => fst (answer st c)) calls st.

(** The two responses of burst scoring, from the surviving metrics
    (lines 157-165 and 200-208). *)
Definition low_quality_burst (survived : list (float * float)) : MeasureResponse :=
  {| ok := false;
     distance_pd_mm := None;
     near_pd_mm := None;
     score := 0.0;
     frames_used := List.length survived;
     diagnostics := [("blur", map fst survived); ("clip_pct", map snd survived)];
     message := "Low-quality burst — retake" |}.

Definition scored_burst (survived : list (float * float))
    (med_blur med_clip : float) : MeasureResponse :=
  let score :=
    Py.round (0.7 * score_component_blur med_blur
              + 0.3 * score_component_clip med_clip)%float 3 in
  {| ok := true;
     distance_pd_mm := None;
     near_pd_mm := None;
     score := score;
     frames_used := List.length survived;
     diagnostics := [("blur", map fst survived); ("clip_pct", map snd survived)];
     message := banding score |}.

(** The two scoring curves in the words of the specification: 0.0 up to
    40.0, 1.0 from 160.0 on and linear in between; and 1.0 up to 4.0, 0.0
    from 16.0 on and linear in between. *)
Definition rising_curve (x : float) : float :=
  if (x <=? 40.0)%float then 0.0
  else if (160.0 <=? x)%float then 1.0
  else ((x - 40.0) / 120.0)%float.

Definition falling_curve (x : float) : float :=
  if (x <=? 4.0)%float then 1.0
  else if (16.0 <=? x)%float then 0.0
  else (1.0 - (x - 4.0) / 12.0)%float.

(** Example buffers: gray levels written on the three channels. *)
Definition px (v : Z) : Z * Z * Z := (v, v, v).

Definition gray_levels (rows : list (list Z)) : ndarray :=
  Mat3 (map (map px) rows).

(** sharpness 25600, clip 0 *)
Definition sharp_frame : ndarray := gray_levels [[100; 140]; [140; 100]]%Z.
(** sharpness 144, clip 0 *)
Definition soft_frame : ndarray := gray_levels [[100; 103]; [103; 100]]%Z.
(** sharpness 0, clip 0 *)
Definition flat_frame : ndarray := gray_levels [[7; 7; 7]; [7; 7; 7]]%Z.
(** sharpness about 83.95, clip about 11.1 *)
Definition spot_frame : ndarray :=
  gray_levels [[250; 250; 250]; [250; 255; 250]; [250; 250; 250]]%Z.
(** sharpness about 37352, clip about 11.1 *)
Definition glare_frame : ndarray :=
  gray_levels [[120; 120; 120]; [120; 130; 120]; [120; 120; 255]]%Z.
(** clip 100 *)
Definition checkerboard : ndarray :=
  gray_levels [[0; 255; 0]; [255; 0; 255]]%Z.
(** one channel *)
Definition gray_frame : ndarray := Mat1 [[128%Z]].

(** Example bursts: two sharp frames around three flat ones; five times
    the same frame; three different frames. *)
Definition hiccup_burst : list ndarray :=
  [sharp_frame; flat_frame; flat_frame; flat_frame; sharp_frame].

Definition steady_burst : list ndarray :=
  [sharp_frame; sharp_frame; sharp_frame; sharp_frame; sharp_frame].

Definition mixed_burst : list ndarray :=
  [spot_frame; soft_frame; glare_frame].

End Vocabulary.

(** ** server/main.py: the ready-check handler and the usage counter *)

Module endpoints.

Import cv2 quality_gates main.
Local Open Scope string_scope.

(** What a handler can raise: a missing key of a dictionary, or the error
    of a library call. *)
Inductive error : Type :=
| KeyError (key : string)
| LibraryError (e : exn).

(** [d[k]] *)
Definition getitem {V : Type} (d : dict V) (k : string) : error + V :=
  match dict_get d k with
  | Some v => inr v
  | None => inl (KeyError k)
  end.

Record ReadyCheckResponse : Type := {
  ready : bool;
  failing_gates : list string;
  guidance : string;
  action : option string;
  server_token : string;
  diagnostics : dict float
}.

(** [ready_check], lines 68-82: [bgr] is the array of line 66 and [uuid4]
    the string [str(uuid.uuid4())] of line 70.  The log line of lines
    72-73 reads the two keys of [metrics]; what it prints is not
    modelled. *)
Definition ready_check (bgr : ndarray) (uuid4 : string)
  : error + ReadyCheckResponse :=
  match evaluate_basic_gates bgr with
  | Raise e => inl (LibraryError e)
  | Return (ready, failing, guidance, metrics) =>
      let action : option string := None in
      let token := uuid4 in
      match getitem metrics "blur_laplacian_var" with
      | inl e => inl e
      | inr _ =>
          match getitem metrics "lighting_clip_pct" with
          | inl e => inl e
          | inr _ =>
              inr {| ready := ready;
                     failing_gates := failing;
                     guidance := guidance;
                     action := action;
                     server_token := token;
                     diagnostics := metrics |}
          end
      end
  end.

(** [usage], lines 212-214. *)
Definition usage (st : State) : dict Z :=
  [("measure_calls", USAGE_COUNTER st)].

End endpoints.

(** ** Python's numbers: ints, and the floats made from them *)
Module PyNum.

Local Open Scope Z_scope.

Inductive error : Type :=
| OverflowError
| ValueError
| ZeroDivisionError.

(** A computed value as a float; a value too large for the format raises. *)
Definition finite_float (x : spec_float) : error + float :=
  match x with
  | S754_infinity _ => inl OverflowError
  | _ => inr (SF2Prim x)
  end.

(** [float(n)] for an int [n]: the nearest float, ties to even. *)
Definition float_of_int (n : Z) : error + float :=
  finite_float (binary_normalize prec emax n 0 false).

(** [a / b] for two ints: the nearest float of the exact quotient. *)
Definition truediv (a b : Z) : error + float :=
  match b, a with
  | Z0, _ => inl ZeroDivisionError
  | Zpos _, Z0 => inr zero
  | Zneg _, Z0 => inr neg_zero
  | Zpos d, Zpos n =>
      finite_float (SFdiv prec emax (S754_finite false n 0) (S754_finite false d 0))
  | Zpos d, Zneg n =>
      finite_float (SFdiv prec emax (S754_finite true n 0) (S754_finite false d 0))
  | Zneg d, Zpos n =>
      finite_float (SFdiv prec emax (S754_finite false n 0) (S754_finite true d 0))
  | Zneg d, Zneg n =>
      finite_float (SFdiv prec emax (S754_finite true n 0) (S754_finite true d 0))
  end.

(** [n * x] for an int [n] and a float [x]: [float(n) * x]. *)
Definition int_mul_float (n : Z) (x : float) : error + float :=
  match float_of_int n with
  | inl e => inl e
  | inr f => inr (f * x)%float
  end.

(** [int(x)] for a float [x]: truncation towards zero. *)
Definition int (x : float) : error + Z :=
  match Prim2SF x with
  | S754_nan => inl ValueError
  | S754_infinity _ => inl OverflowError
  | S754_zero _ => inr 0
  | S754_finite s m e =>
      inr (cond_Zopp s (if 0 <=? e then Zpos m * 2 ^ e else Zpos m / 2 ^ (- e)))
  end.

End PyNum.

(** ** server/main.py: the downscale before the metrics *)
Module preprocessing.

Import PyNum.
Local Open Scope Z_scope.

Definition max_w : Z := 960.

(** Lines 60-63 of [ready_check] and 137-140 of [measure]: the size
    handed to [pil.resize] for an image of the given width and height, or
    [None] when the image is left as it is. *)
Definition downscale (width height : Z) : error + option (Z * Z) :=
  if max_w <? width then
    match truediv max_w width with
    | inl e => inl e
    | inr ratio =>
        match int_mul_float height ratio with
        | inl e => inl e
        | inr scaled_height =>
            match int scaled_height with
            | inl e => inl e
            | inr h => inr (Some (max_w, h))
            end
        end
    end
  else inr None.

End preprocessing.

(** ** The values of floats

    The zeros and the positive finite floats, read as integers in units
    of [2^-1074], the smallest positive float. *)
Module FloatValue.

Local Open Scope Z_scope.

Definition scaled (x : spec_float) : Z :=
  match x with
  | S754_finite false m e => Zpos m * 2 ^ (e + 1074)
  | _ => 0
  end.

(** A zero or a positive finite float of the format. *)
Definition nnf (x : spec_float) : Prop :=
  match x with
  | S754_zero _ => True
  | S754_finite false m e => bounded prec emax m e = true
  | _ => False
  end.

Definition V (x : float) : Z := scaled (Prim2SF x).

Definition NNF (x : float) : Prop := nnf (Prim2SF x).

(** [x] is a zero or a finite float, of sign [s], that is not above the
    float of mantissa [mc] and exponent [ec] in magnitude. *)
Definition below (s : bool) (x : spec_float) (mc : positive) (ec : Z) : Prop :=
  x = S754_zero s
  \/ exists m e, x = S754_finite s m e /\ (e < ec \/ (e = ec /\ Zpos m <= Zpos mc)).

(** [+0.0], a positive finite float or [+inf]: what a metric can be. *)
Definition not_negative (x : float) : Prop :=
  match Prim2SF x with
  | S754_zero false | S754_finite false _ _ | S754_infinity false => True
  | _ => False
  end.

(** [x <= y] on floats, as a proposition. *)
Definition fle (x y : float) : Prop := (x <=? y)%float = true.

(** *** Rounding to nearest *)

(** [N / D] lies in [[m, m + 1)], at the place [l] says: on [m], below,
    on or above the middle. *)
Definition located (m : Z) (l : location) (N D : Z) : Prop :=
  0 < D /\ m * D <= N < (m + 1) * D
  /\ match l with
     | loc_Exact => N = m * D
     | loc_Inexact Lt => m * D < N /\ 2 * (N - m * D) < D
     | loc_Inexact Eq => 2 * (N - m * D) = D
     | loc_Inexact Gt => D < 2 * (N - m * D)
     end.

(** [r] is an integer nearest to [N / D], the even one of the two when
    [N / D] is half-way. *)
Definition nearest_even (r N D : Z) : Prop :=
  (2 * r - 1) * D <= 2 * N <= (2 * r + 1) * D
  /\ (2 * N = (2 * r - 1) * D -> Z.even r = true)
  /\ (2 * N = (2 * r + 1) * D -> Z.even r = true).

(** The float of mantissa [r], at most [2^53], and exponent [e]. *)
Definition float_of (r e : Z) : spec_float :=
  if r =? 0 then S754_zero false
  else if r <? 2 ^ 53 then
    if e <=? emax - prec then S754_finite false (Z.to_pos r) e
    else S754_infinity false
  else
    if e + 1 <=? emax - prec then S754_finite false (Z.to_pos (2 ^ 52)) (e + 1)
    else S754_infinity false.

(** [R] is what rounding gives for the value [A / B], counted in units
    of [2^-1074]: a zero when the value is zero, else the result of
    [binary_round_aux] on a mantissa, an exponent and a location that
    stand for this value. *)
Definition rounding_of (R : spec_float) (A B : Z) : Prop :=
  0 <= A /\ 0 < B
  /\ ((A = 0 /\ exists s, R = S754_zero s)
      \/ exists m e l N D K,
           0 <= m /\ e <= fexp prec emax (Zdigits2 m + e) /\ located m l N D
           /\ R = binary_round_aux prec emax false m e l
           /\ 0 <= e + K /\ 1074 <= K
           /\ N * B * 2 ^ (e + K) = A * D * 2 ^ (K - 1074)).

End FloatValue.

(** ** More sample buffers *)
Module Scenarios.

Import cv2 main Vocabulary.
Local Open Scope string_scope.

(** A buffer of [h] rows and [w] columns whose pixels all equal [p]. *)
Definition uniform_frame (p : Z * Z * Z) (h w : nat) : ndarray :=
  Mat3 (repeat (repeat p w) h).

(** sharpness 16, clip 0 *)
Definition dull_frame : ndarray := gray_levels [[100; 101]; [101; 100]]%Z.
(** sharpness 104150, clip 25 *)
Definition backlit_frame : ndarray := gray_levels [[255; 100]; [140; 100]]%Z.

Definition dull_burst : list ndarray := [dull_frame; dull_frame; dull_frame].

Definition backlit_burst : list ndarray :=
  [backlit_frame; backlit_frame; backlit_frame].

(** Three frames of one colour each: a covered lens, a dark wall, an
    overexposed frame. *)
Definition covered_lens_burst : list ndarray :=
  [uniform_frame (0, 0, 0)%Z 2 3; uniform_frame (12, 10, 9)%Z 4 4;
   uniform_frame (255, 255, 255)%Z 1 1].

(** What [measure] answers on [mixed_burst]. *)
Definition mixed_burst_response : MeasureResponse :=
  {| ok := true;
     distance_pd_mm := None;
     near_pd_mm := None;
     score := 0.729;
     frames_used := 3;
     diagnostics :=
       [("blur", [83.950617283950621; 144.0; 37352.469135802472]%float);
        ("clip_pct", [11.111111111111111; 0.0; 11.111111111111111]%float)];
     message := "Borderline — consider retaking" |}.

(** What [ready_check] answers on [sharp_frame], whatever the token. *)
Definition sharp_frame_ready : endpoints.ReadyCheckResponse :=
  {| endpoints.ready := true;
     endpoints.failing_gates := [];
     endpoints.guidance := "Hold still… capturing";
     endpoints.action := None;
     endpoints.server_token := "";
     endpoints.diagnostics :=
       [("blur_laplacian_var", 25600.0%float); ("lighting_clip_pct", 0.0%float)] |}.

(** Calls in the order they come in: a token, the same token a second
    later, another token, no token. *)
Definition call_at (now : float) (token : option string)
    (frames : list ndarray) : Call :=
  {| call_now := now; call_token := token;
     call_distance := None; call_frames := frames |}.

Definition sample_calls : list Call :=
  [call_at 1700000000.0 (Some "tok") steady_burst;
   call_at 1700000001.0 (Some "tok") steady_burst;
   call_at 1700000002.0 (Some "other") mixed_burst;
   call_at 1700000003.0 None hiccup_burst].

(** Seven frames, four of them of one colour (sharpness 0.0, dropped by
    the filter); and the same burst with the four replaced by frames of
    sharpness 16. *)
Definition half_flat_burst : list ndarray :=
  [flat_frame; flat_frame; flat_frame; flat_frame;
   sharp_frame; sharp_frame; sharp_frame].

Definition half_dull_burst : list ndarray :=
  [dull_frame; dull_frame; dull_frame; dull_frame;
   sharp_frame; sharp_frame; sharp_frame].

End Scenarios.

(** * Properties *)

Import FloatOrder Vocabulary.
Import cv2 quality_gates main.

(** ** The order of floats *)

Lemma SFcompare_key x y kx ky :
  key x = Some kx -> key y = Some ky ->
  (SFltb x y = true <-> lex_lt kx ky) /\ (SFleb x y = true <-> lex_le kx ky).
Proof.
  unfold SFltb, SFleb.
  destruct x as [sx|sx| |sx mx ex], y as [sy|sy| |sy my ey];
    try destruct sx; try destruct sy; simpl; intros Hx Hy;
    try discriminate; inversion Hx; inversion Hy; subst; clear Hx Hy;
    unfold lex_lt, lex_le;
    try change (Pos.compare_cont Eq mx my) with (Pos.compare mx my);
    try (destruct (Z.compare_spec ex ey); [destruct (Pos.compare_spec mx my)| |]; simpl);
    repeat split; intros; try discriminate; try lia.
Qed.

Lemma SFcompare_nan x y :
  key x = None \/ key y = None -> SFltb x y = false /\ SFleb x y = false.
Proof.
  unfold SFltb, SFleb.
  intros [H|H]; [destruct x as [s|s| |s m e]|destruct y as [s|s| |s m e]];
    try destruct s; try discriminate H.
  - split; reflexivity.
  - destruct x; split; reflexivity.
Qed.

Lemma fkey_some x : is_nan x = false -> exists k, fkey x = Some k.
Proof.
  intros H. unfold fkey, Prim2SF. rewrite H.
  destruct (is_zero x); [simpl; eauto|].
  destruct (is_infinity x); [destruct (get_sign x); simpl; eauto|].
  destruct (Z.frexp x) as [r e].
  destruct (shr_fexp prec emax _ _ _) as [s e'].
  destruct (shr_m s); [simpl; eauto| |simpl; eauto].
  destruct (get_sign x); simpl; eauto.
Qed.

Lemma ltb_iff x y kx ky :
  fkey x = Some kx -> fkey y = Some ky -> ((x <? y)%float = true <-> lex_lt kx ky).
Proof. intros Hx Hy. rewrite ltb_spec. apply (SFcompare_key _ _ _ _ Hx Hy). Qed.

Lemma leb_iff x y kx ky :
  fkey x = Some kx -> fkey y = Some ky -> ((x <=? y)%float = true <-> lex_le kx ky).
Proof. intros Hx Hy. rewrite leb_spec. apply (SFcompare_key _ _ _ _ Hx Hy). Qed.

Lemma ltb_nan x y : fkey x = None \/ fkey y = None -> (x <? y)%float = false.
Proof. intros H. rewrite ltb_spec. apply (SFcompare_nan _ _ H). Qed.

Lemma leb_nan x y : fkey x = None \/ fkey y = None -> (x <=? y)%float = false.
Proof. intros H. rewrite leb_spec. apply (SFcompare_nan _ _ H). Qed.

Lemma fkey_nan x : is_nan x = true -> fkey x = None.
Proof. intros H. unfold fkey, Prim2SF. rewrite H. reflexivity. Qed.

(** A comparison that holds has no NaN on either side. *)
Lemma leb_true_not_nan x y :
  (x <=? y)%float = true -> is_nan x = false /\ is_nan y = false.
Proof.
  intros H. split.
  - destruct (is_nan x) eqn:E; [|reflexivity].
    rewrite leb_nan in H by (left; apply fkey_nan, E). discriminate H.
  - destruct (is_nan y) eqn:E; [|reflexivity].
    rewrite leb_nan in H by (right; apply fkey_nan, E). discriminate H.
Qed.

Ltac fkeys x :=
  let E := fresh "E" in
  destruct (fkey x) as [[[? ?] ?]|] eqn:E.

Ltac nan_contra :=
  match goal with
  | H : (_ <? _)%float = true |- _ => rewrite ltb_nan in H by auto; discriminate H
  | H : (_ <=? _)%float = true |- _ => rewrite leb_nan in H by auto; discriminate H
  end.

Ltac lex :=
  repeat match goal with
  | H : (?a <? ?b)%float = true |- _ =>
      apply (ltb_iff a b _ _ ltac:(eassumption) ltac:(eassumption)) in H
  | H : (?a <=? ?b)%float = true |- _ =>
      apply (leb_iff a b _ _ ltac:(eassumption) ltac:(eassumption)) in H
  end;
  unfold lex_lt, lex_le in *; lia.

(** [x < a <= b] excludes [b <= x], whatever the three floats are. *)
Lemma ltb_leb_trans_false x a b :
  (x <? a)%float = true -> (a <=? b)%float = true -> (b <=? x)%float = false.
Proof.
  intros H1 H2.
  fkeys x; [|nan_contra]. fkeys a; [|nan_contra]. fkeys b; [|nan_contra].
  destruct (b <=? x)%float eqn:H3; [exfalso; lex|reflexivity].
Qed.

Lemma leb_ltb_trans_false x a b :
  (x <=? a)%float = true -> (a <? b)%float = true -> (b <=? x)%float = false.
Proof.
  intros H1 H2.
  fkeys x; [|nan_contra]. fkeys a; [|nan_contra]. fkeys b; [|nan_contra].
  destruct (b <=? x)%float eqn:H3; [exfalso; lex|reflexivity].
Qed.

Lemma ltb_leb_false x y : (x <? y)%float = true -> (y <=? x)%float = false.
Proof.
  intros H1.
  fkeys x; [|nan_contra]. fkeys y; [|nan_contra].
  destruct (y <=? x)%float eqn:H3; [exfalso; lex|reflexivity].
Qed.

(** On floats that are not NaN the order is total: [x < y] is the
    negation of [y <= x]. *)
Lemma ltb_negb_leb x y :
  is_nan x = false -> is_nan y = false -> (x <? y)%float = negb (y <=? x)%float.
Proof.
  intros Hx Hy.
  destruct (fkey_some x Hx) as [[[x1 x2] x3] Ex].
  destruct (fkey_some y Hy) as [[[y1 y2] y3] Ey].
  destruct (x <? y)%float eqn:H1.
  - rewrite (ltb_leb_false _ _ H1). reflexivity.
  - destruct (y <=? x)%float eqn:H2; [reflexivity|exfalso].
    apply not_true_iff_false in H1, H2.
    rewrite (ltb_iff _ _ _ _ Ex Ey) in H1. rewrite (leb_iff _ _ _ _ Ey Ex) in H2.
    unfold lex_lt, lex_le in *. lia.
Qed.

(** ** Gate evaluation *)

Section Gates.

Local Open Scope string_scope.

(** [evaluate_basic_gates] extracts the two metrics and hands them to
    [gate_verdict]. *)
Lemma evaluate_basic_gates_metrics bgr blur clip :
  calc_blur_laplacian_var bgr = Return blur ->
  calc_hist_clip_pct bgr = Return clip ->
  evaluate_basic_gates bgr = Return (gate_verdict blur clip).
Proof.
  intros Hb Hc. unfold evaluate_basic_gates. rewrite Hb, Hc. reflexivity.
Qed.

(** The failing list is the sharpness name, if sharpness is below 80.0,
    followed by the lighting name, if the clip percentage is at least 8.0. *)
Lemma gate_verdict_failing blur clip :
  snd (fst (fst (gate_verdict blur clip))) =
    ((if (blur <? 80.0)%float then ["sharpness"] else [])
     ++ (if Py.geb clip 8.0 then ["lighting"] else []))%list.
Proof.
  unfold gate_verdict.
  destruct (blur <? 80.0)%float, (Py.geb clip 8.0); reflexivity.
Qed.

Lemma gate_verdict_ready blur clip :
  fst (fst (fst (gate_verdict blur clip))) =
    negb (blur <? 80.0)%float && negb (Py.geb clip 8.0).
Proof.
  unfold gate_verdict.
  destruct (blur <? 80.0)%float, (Py.geb clip 8.0); reflexivity.
Qed.

(** C1.  For every pair of metrics that are numbers, the verdict is
    ready exactly when sharpness >= 80.0 and clip percentage < 8.0;
    sharpness < 80.0 puts "sharpness" in the failing list, clip >= 8.0 puts
    "lighting" there, and no other name is ever listed.  The verdict of a
    buffer is the verdict of its two metrics. *)
Theorem C1_gate_ready_iff_thresholds :
  forall blur clip : float,
    is_nan blur = false -> is_nan clip = false ->
    let '(ready, failing, _, _) := gate_verdict blur clip in
    (ready = true <-> (Py.geb blur 80.0 = true /\ (clip <? 8.0)%float = true))
    /\ ((blur <? 80.0)%float = true -> In "sharpness" failing)
    /\ (Py.geb clip 8.0 = true -> In "lighting" failing)
    /\ (forall g, In g failing -> g = "sharpness" \/ g = "lighting")
    /\ (forall bgr,
          calc_blur_laplacian_var bgr = Return blur ->
          calc_hist_clip_pct bgr = Return clip ->
          evaluate_basic_gates bgr = Return (gate_verdict blur clip)).
Proof.
  intros blur clip Hb Hc.
  pose proof (ltb_negb_leb blur 80.0 Hb eq_refl) as Eb.
  pose proof (ltb_negb_leb clip 8.0 Hc eq_refl) as Ec.
  pose proof (gate_verdict_ready blur clip) as Hr.
  pose proof (gate_verdict_failing blur clip) as Hf.
  destruct (gate_verdict blur clip) as [[[ready failing] guidance] metrics] eqn:E.
  simpl in Hr, Hf. subst ready failing. unfold Py.geb in *.
  repeat split.
  - destruct (80.0 <=? blur)%float; [reflexivity|].
    rewrite Eb in H. discriminate H.
  - destruct (8.0 <=? clip)%float; [|assumption].
    rewrite andb_false_r in H. discriminate H.
  - intros [H1 H2]. rewrite Eb, H1. rewrite Ec in H2.
    destruct (8.0 <=? clip)%float; [discriminate H2|reflexivity].
  - intros H. rewrite H. simpl. auto.
  - intros H. rewrite H. apply in_or_app. right. simpl. auto.
  - intros g Hg. apply in_app_or in Hg.
    destruct (blur <? 80.0)%float, (8.0 <=? clip)%float; simpl in Hg; intuition.
  - intros bgr H1 H2. rewrite <- E. apply evaluate_basic_gates_metrics; assumption.
Qed.

Lemma C1_gate_ready_iff_thresholds_witness :
  let '(ready, failing, _, _) := gate_verdict 79.9 2.0 in
  (ready = true <-> (Py.geb 79.9 80.0 = true /\ (2.0 <? 8.0)%float = true))
  /\ ((79.9 <? 80.0)%float = true -> In "sharpness" failing)
  /\ (Py.geb 2.0 8.0 = true -> In "lighting" failing)
  /\ (forall g, In g failing -> g = "sharpness" \/ g = "lighting")
  /\ (forall bgr,
        calc_blur_laplacian_var bgr = Return 79.9%float ->
        calc_hist_clip_pct bgr = Return 2.0%float ->
        evaluate_basic_gates bgr = Return (gate_verdict 79.9 2.0)).
Proof.
  apply (C1_gate_ready_iff_thresholds 79.9 2.0); reflexivity.
Defined.

(** The three sample verdicts of the specification. *)
Example gate_sample_blurry :
  fst (fst (gate_verdict 79.9 2.0)) = (false, ["sharpness"]).
Proof. reflexivity. Qed.

Example gate_sample_backlit :
  fst (fst (gate_verdict 90.0 9.0)) = (false, ["lighting"]).
Proof. reflexivity. Qed.

Example gate_sample_ready :
  fst (fst (gate_verdict 90.0 2.0)) = (true, []).
Proof. reflexivity. Qed.


End Gates.

(** ** The measurement handler: cooldown, then burst scoring *)

Section Measure.

Local Open Scope string_scope.

Lemma measure_rejected st now token wd frames :
  cooldown_rejects st now token = true ->
  snd (measure st now token wd frames) = Return too_rapid.
Proof.
  unfold cooldown_rejects, measure, truthy.
  destruct token as [token|]; [|discriminate]. simpl.
  destruct (String.eqb token ""); simpl; [discriminate|].
  intros H. rewrite H. reflexivity.
Qed.

Lemma measure_passes st now token wd frames :
  cooldown_rejects st now token = false ->
  snd (measure st now token wd frames) = score_burst frames.
Proof.
  unfold cooldown_rejects, measure, truthy.
  destruct token as [token|]; [|reflexivity]. simpl.
  destruct (String.eqb token ""); simpl; [reflexivity|].
  intros H. rewrite H. reflexivity.
Qed.

(** A call counts, whatever becomes of it. *)
Lemma measure_counts st now token wd frames :
  USAGE_COUNTER (fst (measure st now token wd frames)) = (USAGE_COUNTER st + 1)%Z.
Proof.
  unfold measure.
  destruct token as [token|]; [|reflexivity].
  destruct (truthy (Some token)); [|reflexivity].
  match goal with |- context [if ?c then _ else _] => destruct c end; reflexivity.
Qed.

(** A call that passes the cooldown check with a token records [now]
    under it, before any frame is looked at. *)
Lemma measure_records st now token wd frames :
  token <> "" ->
  cooldown_rejects st now (Some token) = false ->
  RECENT_TOKENS (fst (measure st now (Some token) wd frames)) =
    dict_set (RECENT_TOKENS st) token now.
Proof.
  intros Hne. unfold cooldown_rejects, measure, truthy.
  destruct (String.eqb_spec token ""); [contradiction|]. simpl.
  intros H. rewrite H. reflexivity.
Qed.

Lemma dict_get_set_same {V : Type} (d : dict V) k v :
  dict_get (dict_set d k v) k = Some v.
Proof.
  induction d as [|[k' v'] d IH]; simpl.
  - rewrite String.eqb_refl. reflexivity.
  - destruct (String.eqb k k') eqn:E; simpl.
    + rewrite String.eqb_refl. reflexivity.
    + rewrite E. exact IH.
Qed.

(** *** The metrics of valid frames *)

Lemma valid_frame_cvtColor bgr :
  valid_frame bgr = true ->
  exists rows, bgr = Mat3 rows /\
    cvtColor bgr COLOR_BGR2GRAY = Return (map (map luminance) rows).
Proof.
  unfold valid_frame, cvtColor. intros H.
  apply andb_true_iff in H. destruct H as [Hc He].
  apply negb_true_iff in He. rewrite He.
  destruct bgr as [rows|rows]; [discriminate Hc|].
  exists rows. split; reflexivity.
Qed.

Lemma valid_frame_has_metrics bgr :
  valid_frame bgr = true ->
  exists b c, calc_blur_laplacian_var bgr = Return b
              /\ calc_hist_clip_pct bgr = Return c.
Proof.
  intros H. destruct (valid_frame_cvtColor bgr H) as (rows & _ & Hg).
  unfold calc_blur_laplacian_var, calc_hist_clip_pct. rewrite Hg. simpl.
  eauto.
Qed.

Lemma frame_metrics_total frames :
  forallb valid_frame frames = true ->
  exists ms, frame_metrics frames = Return ms.
Proof.
  induction frames as [|bgr frames IH]; simpl; intros H.
  - eauto.
  - apply andb_true_iff in H. destruct H as [Hv Hrest].
    destruct (valid_frame_has_metrics bgr Hv) as (b & c & Hb & Hc).
    destruct (IH Hrest) as [ms Hms].
    rewrite Hb, Hc, Hms. simpl. eauto.
Qed.

Lemma broken_survives b c : broken b c = negb (survives (b, c)).
Proof. unfold broken, survives, Py.gtb. simpl. rewrite negb_involutive. reflexivity. Qed.

(** The loop of [measure] keeps, in order, the metrics of the frames that
    survive the sanity filter. *)
Lemma collect_survivors frames :
  forall ms blur_vals clip_vals,
    frame_metrics frames = Return ms ->
    collect frames blur_vals clip_vals =
      Return ((blur_vals ++ map fst (survivors ms))%list,
              (clip_vals ++ map snd (survivors ms))%list).
Proof.
  induction frames as [|bgr frames IH]; simpl; intros ms bl cl H.
  - inversion H; subst. simpl. rewrite !app_nil_r. reflexivity.
  - destruct (calc_blur_laplacian_var bgr) as [b|]; [|discriminate H].
    destruct (calc_hist_clip_pct bgr) as [c|]; [|discriminate H].
    simpl in *.
    destruct (frame_metrics frames) as [ms'|]; [|discriminate H].
    simpl in H. inversion H; subst ms. clear H.
    rewrite broken_survives. unfold survivors. simpl.
    destruct (survives (b, c)); simpl.
    + rewrite (IH ms' _ _ eq_refl). rewrite <- !app_assoc. reflexivity.
    + apply (IH ms' _ _ eq_refl).
Qed.

(** *** The median is defined on non-empty data *)

Lemma insert_length x l : List.length (Py.insert x l) = S (List.length l).
Proof.
  induction l as [|y l IH]; simpl; [reflexivity|].
  destruct (x <? y)%float; simpl; [reflexivity|]. rewrite IH. reflexivity.
Qed.

Lemma sorted_length data : List.length (Py.sorted data) = List.length data.
Proof.
  unfold Py.sorted.
  assert (G : forall acc,
             List.length (fold_left (fun acc x => Py.insert x acc) data acc)
             = (List.length data + List.length acc)%nat).
  { induction data as [|x data IH]; simpl; intros acc; [reflexivity|].
    rewrite IH, insert_length. lia. }
  rewrite G. simpl. lia.
Qed.

Lemma median_total data :
  data <> [] -> exists m, statistics.median data = Return m.
Proof.
  intros H. unfold statistics.median. rewrite sorted_length.
  destruct data as [|x data]; [contradiction|]. 
  destruct (Nat.eqb (List.length (x :: data)) 0) eqn:E; [discriminate E|].
  destruct (Nat.eqb _ 1); eauto.
Qed.

(** *** The two outcomes of burst scoring *)

Lemma score_burst_short frames ms :
  frame_metrics frames = Return ms ->
  (List.length (survivors ms) < 3)%nat ->
  score_burst frames = Return (low_quality_burst (survivors ms)).
Proof.
  intros Hms Hlt. unfold score_burst.
  rewrite (collect_survivors frames ms [] [] Hms). simpl.
  rewrite length_map.
  destruct (Nat.ltb_spec (List.length (survivors ms)) 3); [|lia].
  reflexivity.
Qed.

Lemma score_burst_full frames ms :
  frame_metrics frames = Return ms ->
  (3 <= List.length (survivors ms))%nat ->
  exists med_blur med_clip,
    statistics.median (map fst (survivors ms)) = Return med_blur
    /\ statistics.median (map snd (survivors ms)) = Return med_clip
    /\ score_burst frames = Return (scored_burst (survivors ms) med_blur med_clip).
Proof.
  intros Hms Hge. unfold score_burst.
  rewrite (collect_survivors frames ms [] [] Hms). simpl.
  rewrite length_map.
  destruct (Nat.ltb_spec (List.length (survivors ms)) 3); [lia|].
  destruct (median_total (map fst (survivors ms))) as [mb Hb].
  { destruct (survivors ms); simpl in *; [lia|discriminate]. }
  destruct (median_total (map snd (survivors ms))) as [mc Hc].
  { destruct (survivors ms); simpl in *; [lia|discriminate]. }
  exists mb, mc. rewrite Hb, Hc. simpl. repeat split.
Qed.

End Measure.

(** ** Burst scoring *)

Section BurstScoring.

Local Open Scope string_scope.

(** C3.  A call that reaches burst scoring keeps exactly the frames whose
    sharpness is not below 5.0 and whose clip percentage is not above 50.0
    (sharpness 5.0 and clip 50.0 survive); with fewer than 3 survivors it
    answers score 0.0, ok false, the retake message, the number of
    survivors and the survivors' values. *)
Theorem C3_sanity_filter_short_circuit :
  forall st now token wd frames,
    forallb valid_frame frames = true ->
    cooldown_rejects st now token = false ->
    exists ms,
      frame_metrics frames = Return ms
      /\ collect frames [] [] =
           Return (map fst (survivors ms), map snd (survivors ms))
      /\ (forall b c, In (b, c) (survivors ms) <->
            In (b, c) ms /\ (b <? 5.0)%float = false /\ Py.gtb c 50.0 = false)
      /\ (forall c, Py.gtb c 50.0 = false -> survives (5.0%float, c) = true)
      /\ (forall b, (b <? 5.0)%float = false -> survives (b, 50.0%float) = true)
      /\ ((List.length (survivors ms) < 3)%nat ->
          snd (measure st now token wd frames) =
            Return {| ok := false;
                      distance_pd_mm := None;
                      near_pd_mm := None;
                      score := 0.0;
                      frames_used := List.length (survivors ms);
                      diagnostics := [("blur", map fst (survivors ms));
                                      ("clip_pct", map snd (survivors ms))];
                      message := "Low-quality burst — retake" |}).
Proof.
  intros st now token wd frames Hv Hc.
  destruct (frame_metrics_total frames Hv) as [ms Hms].
  exists ms. split; [exact Hms|]. split; [|split; [|split; [|split]]].
  - rewrite (collect_survivors frames ms [] [] Hms). reflexivity.
  - intros b c. unfold survivors. rewrite filter_In.
    unfold survives, Py.gtb. simpl. rewrite negb_true_iff, orb_false_iff.
    reflexivity.
  - intros c H. unfold survives, Py.gtb in *. simpl. rewrite H. reflexivity.
  - intros b H. unfold survives. simpl. rewrite H. reflexivity.
  - intros Hlt. rewrite (measure_passes _ _ _ _ _ Hc).
    apply (score_burst_short frames ms Hms Hlt).
Qed.

Lemma C3_sanity_filter_short_circuit_witness :
  exists ms,
    frame_metrics hiccup_burst = Return ms
    /\ collect hiccup_burst [] [] =
         Return (map fst (survivors ms), map snd (survivors ms))
    /\ (forall b c, In (b, c) (survivors ms) <->
          In (b, c) ms /\ (b <? 5.0)%float = false /\ Py.gtb c 50.0 = false)
    /\ (forall c, Py.gtb c 50.0 = false -> survives (5.0%float, c) = true)
    /\ (forall b, (b <? 5.0)%float = false -> survives (b, 50.0%float) = true)
    /\ ((List.length (survivors ms) < 3)%nat ->
        snd (measure initial_state 1700000000.0 (Some "tok") None hiccup_burst) =
          Return {| ok := false;
                    distance_pd_mm := None;
                    near_pd_mm := None;
                    score := 0.0;
                    frames_used := List.length (survivors ms);
                    diagnostics := [("blur", map fst (survivors ms));
                                    ("clip_pct", map snd (survivors ms))];
                    message := "Low-quality burst — retake" |}).
Proof.
  apply (C3_sanity_filter_short_circuit
           initial_state 1700000000.0 (Some "tok") None hiccup_burst);
    reflexivity.
Defined.

(** The boundary case of the specification: five frames, three of them
    filtered out for a sharpness below 5. *)
Example short_circuit_two_survivors :
  snd (measure initial_state 1700000000.0 None (Some 40.0%float) hiccup_burst) =
    Return {| ok := false;
              distance_pd_mm := None;
              near_pd_mm := None;
              score := 0.0;
              frames_used := 2;
              diagnostics := [("blur", [25600.0; 25600.0]%float);
                              ("clip_pct", [0.0; 0.0]%float)];
              message := "Low-quality burst — retake" |}.
Proof. vm_compute. reflexivity. Qed.

(** The scoring functions of the source are the curves of the
    specification. *)
Lemma score_component_blur_curve b : score_component_blur b = rising_curve b.
Proof.
  unfold score_component_blur, rising_curve, Py.geb.
  destruct (b <=? 40.0)%float eqn:H1.
  - rewrite (leb_ltb_trans_false b 40.0 160.0 H1 eq_refl). reflexivity.
  - destruct (160.0 <=? b)%float; reflexivity.
Qed.

Lemma score_component_clip_curve c : score_component_clip c = falling_curve c.
Proof.
  unfold score_component_clip, falling_curve, Py.geb.
  destruct (c <=? 4.0)%float; [reflexivity|].
  destruct (16.0 <=? c)%float; reflexivity.
Qed.

Example rising_curve_samples :
  (rising_curve 40.0 = 0.0 /\ rising_curve 100.0 = 0.5
   /\ rising_curve 160.0 = 1.0)%float.
Proof. repeat split; reflexivity. Qed.

Example falling_curve_samples :
  (falling_curve 4.0 = 1.0 /\ falling_curve 10.0 = 0.5
   /\ falling_curve 16.0 = 0.0)%float.
Proof. repeat split; reflexivity. Qed.

(** A full run: medians 144 and 11.1, components 0.8667 and 0.4074, score
    0.729, hence the borderline message. *)
Example mixed_burst_is_borderline :
  snd (measure initial_state 1700000000.0 None (Some 40.0%float) mixed_burst) =
    Return {| ok := true;
              distance_pd_mm := None;
              near_pd_mm := None;
              score := 0.729;
              frames_used := 3;
              diagnostics :=
                [("blur", [83.950617283950621; 144.0; 37352.469135802472]%float);
                 ("clip_pct", [11.111111111111111; 0.0; 11.111111111111111]%float)];
              message := "Borderline — consider retaking" |}.
Proof. vm_compute. reflexivity. Qed.

Example weighted_combination :
  (Py.round (0.7 * 1.0 + 0.3 * 1.0) 3 = 1.0
   /\ Py.round (0.7 * 0.0 + 0.3 * 0.0) 3 = 0.0)%float.
Proof. split; vm_compute; reflexivity. Qed.

(** C4.  With at least 3 survivors the score is
    [round(0.7 * s + 0.3 * c, 3)], [s] the rising curve at the median
    surviving sharpness, [c] the falling curve at the median surviving
    clip percentage; a median sharpness of 100.0 gives [s = 0.5]. *)
Theorem C4_score_formula :
  forall st now token wd frames,
    forallb valid_frame frames = true ->
    cooldown_rejects st now token = false ->
    exists ms,
      frame_metrics frames = Return ms
      /\ ((3 <= List.length (survivors ms))%nat ->
          exists med_blur med_clip resp,
            statistics.median (map fst (survivors ms)) = Return med_blur
            /\ statistics.median (map snd (survivors ms)) = Return med_clip
            /\ snd (measure st now token wd frames) = Return resp
            /\ score resp =
                 Py.round (0.7 * rising_curve med_blur
                           + 0.3 * falling_curve med_clip)%float 3
            /\ (med_blur = 100.0%float -> rising_curve med_blur = 0.5%float)).
Proof.
  intros st now token wd frames Hv Hc.
  destruct (frame_metrics_total frames Hv) as [ms Hms].
  exists ms. split; [exact Hms|]. intros Hge.
  destruct (score_burst_full frames ms Hms Hge) as (mb & mc & Hb & Hcl & Hs).
  exists mb, mc, (scored_burst (survivors ms) mb mc).
  repeat split; try assumption.
  - rewrite (measure_passes _ _ _ _ _ Hc). exact Hs.
  - simpl. rewrite score_component_blur_curve, score_component_clip_curve.
    reflexivity.
  - intros ->. reflexivity.
Qed.

Lemma C4_score_formula_witness :
  exists ms,
    frame_metrics mixed_burst = Return ms
    /\ ((3 <= List.length (survivors ms))%nat ->
        exists med_blur med_clip resp,
          statistics.median (map fst (survivors ms)) = Return med_blur
          /\ statistics.median (map snd (survivors ms)) = Return med_clip
          /\ snd (measure initial_state 1700000000.0 (Some "tok") None mixed_burst)
             = Return resp
          /\ score resp =
               Py.round (0.7 * rising_curve med_blur
                         + 0.3 * falling_curve med_clip)%float 3
          /\ (med_blur = 100.0%float -> rising_curve med_blur = 0.5%float)).
Proof.
  apply (C4_score_formula
           initial_state 1700000000.0 (Some "tok") None mixed_burst);
    reflexivity.
Defined.

(** What [banding] answers for a score, whatever the score is. *)
Lemma banding_bands s :
  (Py.geb s 0.75 = true -> banding s = "OK")
  /\ (Py.geb s 0.55 = true -> (s <? 0.75)%float = true ->
      banding s = "Borderline — consider retaking")
  /\ ((s <? 0.55)%float = true -> banding s = "Low quality — retake").
Proof.
  unfold banding, Py.geb. repeat split.
  - intros ->. reflexivity.
  - intros H1 H2. rewrite (ltb_leb_false _ _ H2), H1. reflexivity.
  - intros H.
    rewrite (ltb_leb_trans_false s 0.55 0.75 H eq_refl).
    rewrite (ltb_leb_false _ _ H). reflexivity.
Qed.

Example banding_samples :
  banding 0.75 = "OK"
  /\ banding 0.749 = "Borderline — consider retaking"
  /\ banding 0.55 = "Borderline — consider retaking"
  /\ banding 0.549 = "Low quality — retake".
Proof. repeat split; reflexivity. Qed.

(** C5.  On the full scoring path the message is "OK" for a score of at
    least 0.75, the borderline message for a score in [0.55, 0.75) and the
    low-quality message for a score below 0.55; 0.75 gives "OK" and 0.55
    the borderline message. *)
Theorem C5_message_bands :
  forall st now token wd frames,
    forallb valid_frame frames = true ->
    cooldown_rejects st now token = false ->
    exists ms,
      frame_metrics frames = Return ms
      /\ ((3 <= List.length (survivors ms))%nat ->
          exists resp,
            snd (measure st now token wd frames) = Return resp
            /\ ok resp = true
            /\ message resp = banding (score resp)
            /\ (Py.geb (score resp) 0.75 = true -> message resp = "OK")
            /\ (Py.geb (score resp) 0.55 = true ->
                (score resp <? 0.75)%float = true ->
                message resp = "Borderline — consider retaking")
            /\ ((score resp <? 0.55)%float = true ->
                message resp = "Low quality — retake"))
      /\ banding 0.75 = "OK"
      /\ banding 0.55 = "Borderline — consider retaking".
Proof.
  intros st now token wd frames Hv Hc.
  destruct (frame_metrics_total frames Hv) as [ms Hms].
  exists ms. split; [exact Hms|]. split; [|split; reflexivity]. intros Hge.
  destruct (score_burst_full frames ms Hms Hge) as (mb & mc & _ & _ & Hs).
  exists (scored_burst (survivors ms) mb mc).
  split; [rewrite (measure_passes _ _ _ _ _ Hc); exact Hs|].
  split; [reflexivity|]. split; [reflexivity|].
  apply banding_bands.
Qed.

Lemma C5_message_bands_witness :
  exists ms,
    frame_metrics mixed_burst = Return ms
    /\ ((3 <= List.length (survivors ms))%nat ->
        exists resp,
          snd (measure initial_state 1700000000.0 None None mixed_burst)
          = Return resp
          /\ ok resp = true
          /\ message resp = banding (score resp)
          /\ (Py.geb (score resp) 0.75 = true -> message resp = "OK")
          /\ (Py.geb (score resp) 0.55 = true ->
              (score resp <? 0.75)%float = true ->
              message resp = "Borderline — consider retaking")
          /\ ((score resp <? 0.55)%float = true ->
              message resp = "Low quality — retake"))
    /\ banding 0.75 = "OK"
    /\ banding 0.55 = "Borderline — consider retaking".
Proof.
  apply (C5_message_bands initial_state 1700000000.0 None None mixed_burst);
    reflexivity.
Defined.

End BurstScoring.

(** ** Diagnostics *)

Section Diagnostics.

Local Open Scope string_scope.

(** C10.  Every response to a call on valid frames carries two
    diagnostics lists whose lengths both equal [frames_used]: empty lists
    when the cooldown turns the call away (no frame is processed), and
    otherwise the per-frame sharpness and clip values of the survivors, in
    the order the frames were submitted. *)
Theorem C10_diagnostics_match_frames_used :
  forall st now token wd frames,
    forallb valid_frame frames = true ->
    exists ms resp blur_list clip_list,
      frame_metrics frames = Return ms
      /\ snd (measure st now token wd frames) = Return resp
      /\ dict_get (diagnostics resp) "blur" = Some blur_list
      /\ dict_get (diagnostics resp) "clip_pct" = Some clip_list
      /\ List.length blur_list = frames_used resp
      /\ List.length clip_list = frames_used resp
      /\ (cooldown_rejects st now token = true ->
          blur_list = [] /\ clip_list = [])
      /\ (cooldown_rejects st now token = false ->
          blur_list = map fst (survivors ms)
          /\ clip_list = map snd (survivors ms)).
Proof.
  intros st now token wd frames Hv.
  destruct (frame_metrics_total frames Hv) as [ms Hms]. exists ms.
  destruct (cooldown_rejects st now token) eqn:Hc.
  - exists too_rapid, [], [].
    rewrite (measure_rejected _ _ _ _ _ Hc).
    repeat split; try reflexivity; try assumption; congruence.
  - rewrite (measure_passes _ _ _ _ _ Hc).
    destruct (Nat.ltb_spec (List.length (survivors ms)) 3) as [Hlt|Hge].
    + exists (low_quality_burst (survivors ms)),
        (map fst (survivors ms)), (map snd (survivors ms)).
      rewrite (score_burst_short frames ms Hms Hlt).
      repeat split; try reflexivity; try assumption; try congruence;
        simpl; apply length_map.
    + destruct (score_burst_full frames ms Hms Hge) as (mb & mc & _ & _ & Hs).
      exists (scored_burst (survivors ms) mb mc),
        (map fst (survivors ms)), (map snd (survivors ms)).
      rewrite Hs.
      repeat split; try reflexivity; try assumption; try congruence;
        simpl; apply length_map.
Qed.

Lemma C10_diagnostics_match_frames_used_witness :
  exists ms resp blur_list clip_list,
    frame_metrics hiccup_burst = Return ms
    /\ snd (measure initial_state 1700000000.0 (Some "tok") None hiccup_burst)
       = Return resp
    /\ dict_get (diagnostics resp) "blur" = Some blur_list
    /\ dict_get (diagnostics resp) "clip_pct" = Some clip_list
    /\ List.length blur_list = frames_used resp
    /\ List.length clip_list = frames_used resp
    /\ (cooldown_rejects initial_state 1700000000.0 (Some "tok") = true ->
        blur_list = [] /\ clip_list = [])
    /\ (cooldown_rejects initial_state 1700000000.0 (Some "tok") = false ->
        blur_list = map fst (survivors ms)
        /\ clip_list = map snd (survivors ms)).
Proof.
  apply (C10_diagnostics_match_frames_used
           initial_state 1700000000.0 (Some "tok") None hiccup_burst).
  reflexivity.
Defined.

End Diagnostics.

(** ** The token cooldown *)

Section Cooldown.

Local Open Scope string_scope.

(** Burst scoring never answers with the rapid-repeat message. *)
Lemma score_burst_not_rapid frames r :
  score_burst frames = Return r ->
  message r <> "Too-rapid repeat; please hold still briefly.".
Proof.
  unfold score_burst.
  destruct (collect frames [] []) as [[bl cl]|]; simpl; [|discriminate].
  destruct (Nat.ltb _ 3).
  - intros H. inversion H; subst. simpl. discriminate.
  - destruct (statistics.median bl) as [mb|]; simpl; [|discriminate].
    destruct (statistics.median cl) as [mc|]; simpl; [|discriminate].
    intros H. inversion H; subst. simpl. unfold banding.
    repeat match goal with |- context [if ?c then _ else _] => destruct c end;
      discriminate.
Qed.

(** Three calls with one token, at 0, 2 and 3 seconds: the second is
    turned away and leaves no trace, so the third, one second after it, is
    measured from the first and scored. *)
Lemma C7_counterexample :
  (1700000003.0 - 1700000002.0 <? TOKEN_COOLDOWN_SEC)%float = true
  /\ snd (measure
            (fst (measure initial_state 1700000000.0 (Some "tok") None steady_burst))
            1700000002.0 (Some "tok") None steady_burst)
     = Return too_rapid
  /\ snd (measure
            (fst (measure
                    (fst (measure initial_state 1700000000.0 (Some "tok") None
                            steady_burst))
                    1700000002.0 (Some "tok") None steady_burst))
            1700000003.0 (Some "tok") None steady_burst)
     = Return {| ok := true;
                 distance_pd_mm := None;
                 near_pd_mm := None;
                 score := 1.0;
                 frames_used := 5;
                 diagnostics :=
                   [("blur", [25600.0; 25600.0; 25600.0; 25600.0; 25600.0]%float);
                    ("clip_pct", [0.0; 0.0; 0.0; 0.0; 0.0]%float)];
                 message := "OK" |}.
Proof. repeat split; vm_compute; reflexivity. Qed.

(** A call the cooldown turns away records nothing. *)
Lemma measure_rejected_records_nothing st now token wd frames :
  cooldown_rejects st now token = true ->
  RECENT_TOKENS (fst (measure st now token wd frames)) = RECENT_TOKENS st.
Proof.
  unfold cooldown_rejects, measure, truthy.
  destruct token as [token|]; [|discriminate]. simpl.
  destruct (String.eqb token ""); simpl; [discriminate|].
  intros H. rewrite H. reflexivity.
Qed.


Lemma dict_get_set_other {V : Type} (d : dict V) k k' v :
  k <> k' -> dict_get (dict_set d k' v) k = dict_get d k.
Proof.
  intros Hne. induction d as [|[k0 v0] d IH]; simpl.
  - destruct (String.eqb_spec k k'); [contradiction|reflexivity].
  - destruct (String.eqb_spec k' k0) as [->|Hk]; simpl.
    + destruct (String.eqb_spec k k0); [contradiction|reflexivity].
    + destruct (String.eqb k k0); [reflexivity|exact IH].
Qed.

(** A call with another token, or with none, leaves the record of
    [token] as it is. *)
Lemma answer_keeps_other_tokens st c token :
  call_token c <> Some token ->
  dict_get (RECENT_TOKENS (fst (answer st c))) token
  = dict_get (RECENT_TOKENS st) token.
Proof.
  intros Hne. unfold answer, measure.
  destruct (call_token c) as [t|]; [|reflexivity].
  destruct (truthy (Some t)); [|reflexivity].
  match goal with |- context [if ?b then _ else _] => destruct b end;
    [reflexivity|].
  simpl. apply dict_get_set_other. congruence.
Qed.

Lemma run_keeps_other_tokens calls : forall st token,
  Forall (fun c => call_token c <> Some token) calls ->
  dict_get (RECENT_TOKENS (run st calls)) token
  = dict_get (RECENT_TOKENS st) token.
Proof.
  induction calls as [|c calls IH]; intros st token Hall; [reflexivity|].
  inversion Hall as [|? ? Hc Hrest]; subst. simpl.
  rewrite (IH _ _ Hrest). apply answer_keeps_other_tokens, Hc.
Qed.

(** C7, amended.  When a call with a non-empty token has passed the
    cooldown check, so that its time is recorded, the next call with that
    token, less than 2.5 seconds later, is answered ok false, score 0.0,
    frames_used 0, empty diagnostics and the rapid-repeat message,
    whatever frames either call submits and whatever calls with other
    tokens or without a token come in between; and it records nothing.
    A call without a token is never turned away: it is answered by burst
    scoring, which never gives the rapid-repeat message. *)
Theorem C7_cooldown_after_recorded_use :
  (forall st first between second token,
      token <> "" ->
      call_token first = Some token ->
      call_token second = Some token ->
      Forall (fun c => call_token c <> Some token) between ->
      cooldown_rejects st (call_now first) (Some token) = false ->
      (call_now second - call_now first <? TOKEN_COOLDOWN_SEC)%float = true ->
      let st' := run (fst (answer st first)) between in
      snd (answer st' second)
      = Return {| ok := false;
                  distance_pd_mm := None;
                  near_pd_mm := None;
                  score := 0.0;
                  frames_used := 0;
                  diagnostics := [("blur", []); ("clip_pct", [])];
                  message := "Too-rapid repeat; please hold still briefly." |}
      /\ RECENT_TOKENS (fst (answer st' second)) = RECENT_TOKENS st')
  /\ (forall st now wd frames,
         cooldown_rejects st now None = false
         /\ snd (measure st now None wd frames) = score_burst frames
         /\ forall r, snd (measure st now None wd frames) = Return r ->
                      message r <> "Too-rapid repeat; please hold still briefly.").
Proof.
  split.
  - intros st first between second token Hne Hf Hs Hall Hpass Hclose st'.
    assert (Hrej : cooldown_rejects st' (call_now second) (Some token) = true).
    { unfold cooldown_rejects, dict_get_default, st'.
      rewrite (run_keeps_other_tokens between _ token Hall).
      unfold answer. rewrite Hf.
      rewrite (measure_records st (call_now first) token _ _ Hne Hpass).
      rewrite dict_get_set_same.
      destruct (String.eqb_spec token ""); [contradiction|].
      simpl. exact Hclose. }
    unfold answer. rewrite Hs. split.
    + apply (measure_rejected _ _ _ _ _ Hrej).
    + apply (measure_rejected_records_nothing _ _ _ _ _ Hrej).
  - intros st now wd frames. split; [reflexivity|]. split; [reflexivity|].
    intros r. apply score_burst_not_rapid.
Qed.

Lemma C7_cooldown_after_recorded_use_witness :
  snd (answer
         (run (fst (answer initial_state
                      {| call_now := 1700000000.0; call_token := Some "tok";
                         call_distance := None; call_frames := steady_burst |}))
              [{| call_now := 1700000001.0; call_token := Some "other";
                  call_distance := None; call_frames := mixed_burst |};
               {| call_now := 1700000001.5; call_token := None;
                  call_distance := None; call_frames := hiccup_burst |}])
         {| call_now := 1700000002.0; call_token := Some "tok";
            call_distance := Some 40.0%float; call_frames := [gray_frame] |})
  = Return {| ok := false;
              distance_pd_mm := None;
              near_pd_mm := None;
              score := 0.0;
              frames_used := 0;
              diagnostics := [("blur", []); ("clip_pct", [])];
              message := "Too-rapid repeat; please hold still briefly." |}
  /\ RECENT_TOKENS
       (fst (answer
               (run (fst (answer initial_state
                            {| call_now := 1700000000.0; call_token := Some "tok";
                               call_distance := None;
                               call_frames := steady_burst |}))
                    [{| call_now := 1700000001.0; call_token := Some "other";
                        call_distance := None; call_frames := mixed_burst |};
                     {| call_now := 1700000001.5; call_token := None;
                        call_distance := None; call_frames := hiccup_burst |}])
               {| call_now := 1700000002.0; call_token := Some "tok";
                  call_distance := Some 40.0%float;
                  call_frames := [gray_frame] |}))
     = RECENT_TOKENS
         (run (fst (answer initial_state
                      {| call_now := 1700000000.0; call_token := Some "tok";
                         call_distance := None; call_frames := steady_burst |}))
              [{| call_now := 1700000001.0; call_token := Some "other";
                  call_distance := None; call_frames := mixed_burst |};
               {| call_now := 1700000001.5; call_token := None;
                  call_distance := None; call_frames := hiccup_burst |}]).
Proof.
  apply (proj1 C7_cooldown_after_recorded_use
           initial_state
           {| call_now := 1700000000.0; call_token := Some "tok";
              call_distance := None; call_frames := steady_burst |}
           [{| call_now := 1700000001.0; call_token := Some "other";
               call_distance := None; call_frames := mixed_burst |};
            {| call_now := 1700000001.5; call_token := None;
               call_distance := None; call_frames := hiccup_burst |}]
           {| call_now := 1700000002.0; call_token := Some "tok";
              call_distance := Some 40.0%float; call_frames := [gray_frame] |}
           "tok").
  - discriminate.
  - reflexivity.
  - reflexivity.
  - repeat constructor; discriminate.
  - reflexivity.
  - reflexivity.
Defined.

(** ** Dependence on the frames only *)




End Cooldown.

(** ** Rounding an exact value to a float

    [Py.Q2float] is one correctly rounded division.  This section follows
    [SFdiv] through its shifts and its rounding to show that the quotient
    of two positive integers is a valid float that keeps the sign, and that
    a quotient of at most 100 rounds to a float of at most 100. *)

Section Rounding.

Local Open Scope Z_scope.

(** *** Binary digits *)
Lemma digits2_pos_bounds p :
  2 ^ (Zpos (digits2_pos p) - 1) <= Zpos p < 2 ^ Zpos (digits2_pos p).
Proof.
  induction p as [p IH|p IH|]; simpl digits2_pos.
  - rewrite Pos2Z.inj_succ.
    replace (Z.succ (Zpos (digits2_pos p)) - 1) with (Z.succ (Zpos (digits2_pos p) - 1)) by lia.
    rewrite !Z.pow_succ_r by lia. lia.
  - rewrite Pos2Z.inj_succ.
    replace (Z.succ (Zpos (digits2_pos p)) - 1) with (Z.succ (Zpos (digits2_pos p) - 1)) by lia.
    rewrite !Z.pow_succ_r by lia. lia.
  - simpl. lia.
Qed.

Lemma Zdigits2_bounds m :
  0 < m -> 2 ^ (Zdigits2 m - 1) <= m < 2 ^ Zdigits2 m.
Proof. destruct m; try lia. intros _. apply digits2_pos_bounds. Qed.

Lemma Zdigits2_nonneg m : 0 <= Zdigits2 m.
Proof. destruct m; simpl; lia. Qed.

Lemma Zdigits2_pos m : 0 < m -> 0 < Zdigits2 m.
Proof. destruct m; simpl; lia. Qed.

Lemma Zdigits2_unique m d :
  0 < d -> 2 ^ (d - 1) <= m < 2 ^ d -> Zdigits2 m = d.
Proof.
  intros Hd [H1 H2].
  assert (Hm : 0 < m) by (pose proof (Z.pow_pos_nonneg 2 (d - 1)); lia).
  pose proof (Zdigits2_bounds m Hm) as [B1 B2].
  pose proof (Zdigits2_pos m Hm) as Hp.
  destruct (Z.lt_trichotomy (Zdigits2 m) d) as [Hlt|[Heq|Hgt]]; [exfalso| exact Heq |exfalso].
  - assert (2 ^ Zdigits2 m <= 2 ^ (d - 1)) by (apply Z.pow_le_mono_r; lia). lia.
  - assert (2 ^ d <= 2 ^ (Zdigits2 m - 1)) by (apply Z.pow_le_mono_r; lia). lia.
Qed.

(** [m < 2^k] bounds the digits, and conversely *)
Lemma Zdigits2_le m k : 0 <= m -> 0 <= k -> m < 2 ^ k -> Zdigits2 m <= k.
Proof.
  intros Hm Hk H. destruct (Z.eq_dec m 0) as [->|Hne]; [simpl; lia|].
  pose proof (Zdigits2_bounds m ltac:(lia)) as [B1 _].
  destruct (Z_le_gt_dec (Zdigits2 m) k) as [|Hgt]; [assumption|exfalso].
  assert (2 ^ k <= 2 ^ (Zdigits2 m - 1)) by (apply Z.pow_le_mono_r; lia). lia.
Qed.

Lemma Zdigits2_ge m k : 0 <= k -> 2 ^ k <= m -> k + 1 <= Zdigits2 m.
Proof.
  intros Hk H.
  assert (Hm : 0 < m) by (pose proof (Z.pow_pos_nonneg 2 k); lia).
  pose proof (Zdigits2_bounds m Hm) as [_ B2].
  destruct (Z_le_gt_dec (k + 1) (Zdigits2 m)) as [|Hgt]; [assumption|exfalso].
  assert (2 ^ Zdigits2 m <= 2 ^ k) by (apply Z.pow_le_mono_r; lia). lia.
Qed.

(** digits after a right shift *)
Lemma Zdigits2_shift m k :
  0 < m -> 0 <= k -> k < Zdigits2 m -> Zdigits2 (m / 2 ^ k) = Zdigits2 m - k.
Proof.
  intros Hm Hk Hlt.
  pose proof (Zdigits2_bounds m Hm) as [B1 B2].
  assert (P : 0 < 2 ^ k) by (apply Z.pow_pos_nonneg; lia).
  apply Zdigits2_unique; [lia|]. split.
  - apply Z.div_le_lower_bound; [lia|].
    rewrite <- Z.pow_add_r by lia. replace (k + (Zdigits2 m - k - 1)) with (Zdigits2 m - 1) by lia.
    exact B1.
  - apply Z.div_lt_upper_bound; [lia|].
    rewrite <- Z.pow_add_r by lia. replace (k + (Zdigits2 m - k)) with (Zdigits2 m) by lia.
    exact B2.
Qed.

Lemma Zdigits2_shift_zero m k :
  0 <= m -> 0 <= k -> Zdigits2 m <= k -> m / 2 ^ k = 0.
Proof.
  intros Hm Hk Hle. destruct (Z.eq_dec m 0) as [->|Hne]; [apply Z.div_0_l; pose proof (Z.pow_pos_nonneg 2 k); lia|].
  pose proof (Zdigits2_bounds m ltac:(lia)) as [_ B2].
  apply Z.div_small. split; [lia|].
  assert (2 ^ Zdigits2 m <= 2 ^ k) by (apply Z.pow_le_mono_r; lia). lia.
Qed.

(** *** Shifting a mantissa to the right *)
Lemma shr_1_m mrs : 0 <= shr_m mrs -> shr_m (shr_1 mrs) = shr_m mrs / 2.
Proof.
  destruct mrs as [m r s]. cbn [shr_m]. intros Hm.
  destruct m as [|[p|p|]|p]; cbn [shr_1 shr_m]; try lia.
  - reflexivity.
  - apply Z.div_unique with (r := 1); lia.
  - apply Z.div_unique with (r := 0); lia.
  - reflexivity.
Qed.

Lemma shr_1_nonneg mrs : 0 <= shr_m mrs -> 0 <= shr_m (shr_1 mrs).
Proof.
  intros H. rewrite shr_1_m by assumption. apply Z.div_pos; lia.
Qed.

Lemma iter_shr_m p : forall mrs,
  0 <= shr_m mrs -> shr_m (iter_pos shr_1 p mrs) = shr_m mrs / 2 ^ Zpos p.
Proof.
  induction p as [p IH|p IH|]; intros mrs Hm; cbn [iter_pos].
  - rewrite IH, IH, shr_1_m; try assumption.
    + rewrite !Z.div_div by (try apply Z.pow_pos_nonneg; lia).
      f_equal. rewrite Pos2Z.inj_xI, <- Z.pow_add_r, <- Z.pow_succ_r by lia. f_equal. lia.
    + apply shr_1_nonneg; assumption.
    + rewrite IH by (apply shr_1_nonneg; assumption).
      apply Z.div_pos; [apply shr_1_nonneg; assumption|apply Z.pow_pos_nonneg; lia].
  - rewrite IH, IH; try assumption.
    + rewrite !Z.div_div by (try apply Z.pow_pos_nonneg; lia).
      f_equal. rewrite Pos2Z.inj_xO, <- Z.pow_add_r by lia. f_equal. lia.
    + rewrite IH by assumption. apply Z.div_pos; [assumption|apply Z.pow_pos_nonneg; lia].
  - rewrite shr_1_m by assumption. reflexivity.
Qed.

(** an exact record stays exact when only zero bits are shifted out *)
Lemma shr_1_exact m :
  0 <= m -> m mod 2 = 0 ->
  shr_1 (Build_shr_record m false false) = Build_shr_record (m / 2) false false.
Proof.
  intros Hm Hmod.
  destruct m as [|[p|p|]|p]; cbn [shr_1 orb]; try lia; try reflexivity.
  - exfalso. rewrite Pos2Z.inj_xI in Hmod.
    rewrite Z.add_comm, Z.mul_comm, Z.mod_add in Hmod by lia. discriminate.
  - f_equal. apply Z.div_unique with (r := 0); lia.
  - exfalso. discriminate Hmod.
Qed.

Lemma iter_shr_exact p : forall m,
  0 <= m -> m mod 2 ^ Zpos p = 0 ->
  iter_pos shr_1 p (Build_shr_record m false false)
  = Build_shr_record (m / 2 ^ Zpos p) false false.
Proof.
  induction p as [p IH|p IH|]; intros m Hm Hmod; cbn [iter_pos].
  - assert (P : 0 < 2 ^ Zpos p) by (apply Z.pow_pos_nonneg; lia).
    assert (E : 2 ^ Zpos p~1 = 2 * (2 ^ Zpos p * 2 ^ Zpos p)).
    { rewrite Pos2Z.inj_xI, <- Z.pow_add_r, <- Z.pow_succ_r by lia. f_equal. lia. }
    rewrite E in *.
    apply Z.mod_divide in Hmod; [|lia]. destruct Hmod as [c Hc]. subst m.
    rewrite shr_1_exact.
    2: lia.
    2: { replace (c * (2 * (2 ^ Z.pos p * 2 ^ Z.pos p))) with ((c * (2 ^ Z.pos p * 2 ^ Z.pos p)) * 2) by lia.
         apply Z.mod_mul. lia. }
    replace (c * (2 * (2 ^ Z.pos p * 2 ^ Z.pos p)) / 2) with (c * 2 ^ Zpos p * 2 ^ Zpos p).
    2: { apply Z.div_unique with (r := 0); lia. }
    rewrite IH.
    2: nia.
    2: apply Z.mod_mul; lia.
    rewrite Z.div_mul by lia.
    rewrite IH.
    2: nia.
    2: apply Z.mod_mul; lia.
    rewrite Z.div_mul by lia.
    f_equal. apply Z.div_unique with (r := 0); nia.
  - assert (P : 0 < 2 ^ Zpos p) by (apply Z.pow_pos_nonneg; lia).
    assert (E : 2 ^ Zpos p~0 = 2 ^ Zpos p * 2 ^ Zpos p).
    { rewrite Pos2Z.inj_xO, <- Z.pow_add_r by lia. f_equal. lia. }
    rewrite E in *.
    apply Z.mod_divide in Hmod; [|nia]. destruct Hmod as [c Hc]. subst m.
    replace (c * (2 ^ Z.pos p * 2 ^ Z.pos p)) with (c * 2 ^ Zpos p * 2 ^ Zpos p) by lia.
    rewrite IH.
    2: nia.
    2: apply Z.mod_mul; lia.
    rewrite Z.div_mul by lia.
    rewrite IH.
    2: nia.
    2: apply Z.mod_mul; lia.
    rewrite Z.div_mul by lia.
    f_equal. apply Z.div_unique with (r := 0); nia.
  - apply shr_1_exact; assumption.
Qed.

(** *** Rounding to the format *)
Lemma fexp_eq x : fexp prec emax x = Z.max (x - 53) (-1074).
Proof. reflexivity. Qed.

Lemma Zdigits2_mono m m' : 0 <= m <= m' -> Zdigits2 m <= Zdigits2 m'.
Proof.
  intros [H0 H1]. destruct (Z.eq_dec m 0) as [->|Hne]; [apply Zdigits2_nonneg|].
  pose proof (Zdigits2_bounds m ltac:(lia)) as [B1 _].
  pose proof (Zdigits2_pos m ltac:(lia)).
  pose proof (Zdigits2_ge m' (Zdigits2 m - 1) ltac:(lia) ltac:(lia)). lia.
Qed.

Lemma shr_record_of_loc_m m l : shr_m (shr_record_of_loc m l) = m.
Proof. destruct l as [|[]]; reflexivity. Qed.

Lemma loc_of_shr_record_of_loc m l : loc_of_shr_record (shr_record_of_loc m l) = l.
Proof. destruct l as [|[]]; reflexivity. Qed.

Lemma shr_fexp_canonical m e l :
  0 <= m -> e <= fexp prec emax (Zdigits2 m + e) ->
  exists mrs e1,
    shr_fexp prec emax m e l = (mrs, e1)
    /\ e1 = fexp prec emax (Zdigits2 m + e)
    /\ shr_m mrs = m / 2 ^ (e1 - e)
    /\ 0 <= shr_m mrs
    /\ fexp prec emax (Zdigits2 (shr_m mrs) + e1) = e1
    /\ (l = loc_Exact -> m mod 2 ^ (e1 - e) = 0 -> loc_of_shr_record mrs = loc_Exact)
    /\ (e1 = e -> loc_of_shr_record mrs = l).
Proof.
  intros Hm He. unfold shr_fexp, shr.
  remember (fexp prec emax (Zdigits2 m + e) - e) as k eqn:Hk.
  destruct k as [|p|p]; [| |lia].
  - exists (shr_record_of_loc m l), e.
    assert (E : fexp prec emax (Zdigits2 m + e) = e) by lia.
    rewrite shr_record_of_loc_m, Z.sub_diag, Z.pow_0_r, Z.div_1_r.
    repeat split; try lia; try assumption.
    + intros -> _. reflexivity.
    + intros _. apply loc_of_shr_record_of_loc.
  - exists (iter_pos shr_1 p (shr_record_of_loc m l)), (e + Zpos p).
    assert (E : e + Zpos p = fexp prec emax (Zdigits2 m + e)) by lia.
    replace (e + Z.pos p - e) with (Zpos p) by lia.
    rewrite iter_shr_m by (rewrite shr_record_of_loc_m; assumption).
    rewrite shr_record_of_loc_m.
    assert (P : 0 < 2 ^ Zpos p) by (apply Z.pow_pos_nonneg; lia).
    repeat split; try assumption.
    + apply Z.div_pos; lia.
    + destruct (Z_lt_le_dec (Zpos p) (Zdigits2 m)) as [Hlt|Hge].
      * assert (0 < m) by (destruct m; simpl in *; lia).
        rewrite Zdigits2_shift by lia.
        replace (Zdigits2 m - Z.pos p + (e + Z.pos p)) with (Zdigits2 m + e) by lia.
        lia.
      * rewrite Zdigits2_shift_zero by lia. simpl Zdigits2.
        rewrite fexp_eq in *. lia.
    + intros -> Hmod. simpl shr_record_of_loc.
      rewrite iter_shr_exact by assumption. reflexivity.
    + intros. lia.
Qed.

Lemma round_nearest_even_cases m l :
  round_nearest_even m l = m \/ round_nearest_even m l = m + 1.
Proof.
  unfold round_nearest_even. destruct l as [|[]]; auto.
  destruct (Z.even m); auto.
Qed.

Lemma binary_round_aux_shape s m e l :
  0 <= m -> e <= fexp prec emax (Zdigits2 m + e) ->
  exists mrs1 e1 mrs2 e2,
    shr_fexp prec emax m e l = (mrs1, e1)
    /\ e1 = fexp prec emax (Zdigits2 m + e)
    /\ shr_m mrs1 = m / 2 ^ (e1 - e)
    /\ (l = loc_Exact -> m mod 2 ^ (e1 - e) = 0 -> loc_of_shr_record mrs1 = loc_Exact)
    /\ (e1 = e -> loc_of_shr_record mrs1 = l)
    /\ shr_fexp prec emax
         (round_nearest_even (shr_m mrs1) (loc_of_shr_record mrs1)) e1 loc_Exact
       = (mrs2, e2)
    /\ e1 <= e2
    /\ shr_m mrs2
       = round_nearest_even (shr_m mrs1) (loc_of_shr_record mrs1) / 2 ^ (e2 - e1)
    /\ 0 <= shr_m mrs2
    /\ fexp prec emax (Zdigits2 (shr_m mrs2) + e2) = e2
    /\ e2 = fexp prec emax (Zdigits2 (round_nearest_even (shr_m mrs1) (loc_of_shr_record mrs1)) + e1)
    /\ binary_round_aux prec emax s m e l =
         match shr_m mrs2 with
         | Z0 => S754_zero s
         | Zpos p => if e2 <=? emax - prec then S754_finite s p e2 else S754_infinity s
         | Zneg _ => S754_nan
         end.
Proof.
  intros Hm He.
  destruct (shr_fexp_canonical m e l Hm He)
    as (mrs1 & e1 & H1 & He1 & Hm1 & Hp1 & Hc1 & Hx1 & Hl1).
  set (m1r := round_nearest_even (shr_m mrs1) (loc_of_shr_record mrs1)).
  assert (Hr : shr_m mrs1 <= m1r <= shr_m mrs1 + 1).
  { unfold m1r. destruct (round_nearest_even_cases (shr_m mrs1) (loc_of_shr_record mrs1)) as [->| ->]; lia. }
  assert (He1' : e1 <= fexp prec emax (Zdigits2 m1r + e1)).
  { pose proof (Zdigits2_mono (shr_m mrs1) m1r ltac:(lia)).
    rewrite fexp_eq in *. lia. }
  destruct (shr_fexp_canonical m1r e1 loc_Exact ltac:(lia) He1')
    as (mrs2 & e2 & H2 & He2 & Hm2 & Hp2 & Hc2 & _ & _).
  exists mrs1, e1, mrs2, e2.
  repeat split; try assumption; try lia.
  unfold binary_round_aux. rewrite H1. fold m1r. rewrite H2. reflexivity.
Qed.

Lemma binary_round_aux_valid s m e l :
  0 <= m -> e <= fexp prec emax (Zdigits2 m + e) ->
  valid_binary (binary_round_aux prec emax s m e l) = true
  /\ (binary_round_aux prec emax s m e l = S754_zero s
      \/ (exists m' e', binary_round_aux prec emax s m e l = S754_finite s m' e')
      \/ binary_round_aux prec emax s m e l = S754_infinity s).
Proof.
  intros Hm He.
  destruct (binary_round_aux_shape s m e l Hm He)
    as (mrs1 & e1 & mrs2 & e2 & _ & _ & _ & _ & _ & _ & _ & _ & Hp2 & Hc2 & _ & ->).
  destruct (shr_m mrs2) as [|p|p]; [| |lia].
  - split; [reflexivity|auto].
  - destruct (Z.leb_spec e2 (emax - prec)).
    + split; [|eauto].
      unfold valid_binary, bounded, canonical_mantissa.
      apply andb_true_iff. split; [apply Z.eqb_eq; exact Hc2|apply Z.leb_le; assumption].
    + split; [reflexivity|auto].
Qed.

(** *** The division of two positive integers *)
Lemma new_location_exact n : new_location n 0 = loc_Exact.
Proof. unfold new_location. destruct (Z.even n); reflexivity. Qed.

Lemma SFdiv_core_spec (n d : positive) :
  exists q r e',
    SFdiv_core_binary prec emax (Zpos n) 0 (Zpos d) 0 = (q, e', new_location (Zpos d) r)
    /\ e' = Z.min (fexp prec emax (Zdigits2 (Zpos n) - Zdigits2 (Zpos d))) 0
    /\ Zpos n * 2 ^ (- e') = Zpos d * q + r
    /\ 0 <= r < Zpos d
    /\ 0 <= q
    /\ e' <= fexp prec emax (Zdigits2 q + e').
Proof.
  unfold SFdiv_core_binary.
  set (d1 := Zdigits2 (Zpos n)). set (d2 := Zdigits2 (Zpos d)).
  rewrite !Z.add_0_r, Z.sub_0_r.
  set (e' := Z.min (fexp prec emax (d1 - d2)) 0).
  assert (He' : e' <= 0) by (unfold e'; lia).
  set (m' := match 0 - e' with Z.pos _ => Z.shiftl (Zpos n) (0 - e') | 0 => Zpos n | Z.neg _ => 0 end).
  assert (Hm' : m' = Zpos n * 2 ^ (- e')).
  { unfold m'. replace (0 - e') with (- e') by lia.
    destruct (- e') as [|p|p] eqn:E; [rewrite Z.pow_0_r; lia| |lia].
    rewrite Z.shiftl_mul_pow2 by lia. reflexivity. }
  pose proof (Z_div_mod m' (Zpos d) ltac:(lia)) as Hdm.
  destruct (Z.div_eucl m' (Zpos d)) as [q r]. destruct Hdm as [Hq Hr].
  exists q, r, e'.
  assert (Pn : 0 < 2 ^ (- e')) by (apply Z.pow_pos_nonneg; lia).
  assert (Hq0 : 0 <= q) by nia.
  repeat split; try lia.
  (* the quotient has enough digits *)
  destruct (Z.eq_dec e' (-1074)) as [E|E]; [rewrite fexp_eq; lia|].
  pose proof (digits2_pos_bounds n) as [N1 N2]. fold (Zdigits2 (Zpos n)) in N1, N2. fold d1 in N1, N2.
  pose proof (digits2_pos_bounds d) as [D1 D2]. fold (Zdigits2 (Zpos d)) in D1, D2. fold d2 in D1, D2.
  assert (Hd1 : 0 < d1) by (unfold d1; simpl; lia).
  assert (Hd2 : 0 < d2) by (unfold d2; simpl; lia).
  assert (Ht : 0 <= d1 - 1 - e' - d2).
  { unfold e' in *. rewrite fexp_eq in *. lia. }
  assert (Hlow : 2 ^ (d1 - 1 - e' - d2) <= q).
  { destruct (Z_le_gt_dec (2 ^ (d1 - 1 - e' - d2)) q) as [|Hgt]; [assumption|exfalso].
    assert (Hp : 2 ^ (d1 - 1) * 2 ^ (- e') = 2 ^ (d1 - 1 - e' - d2) * 2 ^ d2).
    { rewrite <- !Z.pow_add_r by lia. f_equal. lia. }
    assert (0 < 2 ^ (d1 - 1 - e' - d2)) by (apply Z.pow_pos_nonneg; lia).
    nia. }
  pose proof (Zdigits2_ge q (d1 - 1 - e' - d2) Ht Hlow) as Hdq.
  unfold e' in *. rewrite !fexp_eq in *. lia.
Qed.

Lemma SFdiv_valid (s : bool) (n d : positive) :
  let R := SFdiv prec emax (S754_finite s n 0) (S754_finite false d 0) in
  valid_binary R = true
  /\ (R = S754_zero s \/ (exists m' e', R = S754_finite s m' e') \/ R = S754_infinity s).
Proof.
  cbn [SFdiv].
  destruct (SFdiv_core_spec n d) as (q & r & e' & -> & _ & _ & _ & Hq & He).
  rewrite xorb_false_r. apply binary_round_aux_valid; assumption.
Qed.

Lemma SFdiv_le_100 (n d : positive) :
  Zpos n <= 100 * Zpos d ->
  let R := SFdiv prec emax (S754_finite false n 0) (S754_finite false d 0) in
  R = S754_zero false
  \/ exists m e, R = S754_finite false m e
                /\ (e < -46 \/ (e = -46 /\ Zpos m <= 7036874417766400)).
Proof.
  intros Hle. cbn [SFdiv].
  destruct (SFdiv_core_spec n d) as (q & r & e' & -> & He' & Hdiv & Hr & Hq & He).
  cbn [xorb].
  destruct (binary_round_aux_shape false q e' (new_location (Zpos d) r) Hq He)
    as (mrs1 & e1 & mrs2 & e2 & _ & He1 & Hm1 & Hx1 & Hl1 & _ & He12 & Hm2 & Hp2 & _ & He2 & ->).
  set (m1r := round_nearest_even (shr_m mrs1) (loc_of_shr_record mrs1)) in *.
  (* exponents *)
  pose proof (digits2_pos_bounds n) as [N1 N2]. fold (Zdigits2 (Zpos n)) in N1, N2.
  pose proof (digits2_pos_bounds d) as [D1 D2]. fold (Zdigits2 (Zpos d)) in D1, D2.
  set (d1 := Zdigits2 (Zpos n)) in *. set (d2 := Zdigits2 (Zpos d)) in *.
  assert (Hd1 : 0 < d1) by (unfold d1; simpl; lia).
  assert (Hd2 : 0 < d2) by (unfold d2; simpl; lia).
  assert (Hdd : d1 <= d2 + 7).
  { apply Zdigits2_le; try lia. rewrite (Z.pow_add_r 2 d2 7) by lia.
    change (2 ^ 7) with 128. lia. }
  assert (He'46 : e' <= -46) by (rewrite He', fexp_eq; lia).
  assert (Ps : 0 < 2 ^ (- e')) by (apply Z.pow_pos_nonneg; lia).
  assert (Hq100 : q <= 100 * 2 ^ (- e')) by nia.
  assert (Hdq : Zdigits2 q <= 7 - e').
  { apply Zdigits2_le; try lia. replace (7 - e') with (7 + - e') by lia.
    rewrite (Z.pow_add_r 2 7 (- e')) by lia. change (2 ^ 7) with 128. lia. }
  assert (He146 : e1 <= -46) by (rewrite He1, fexp_eq; lia).
  assert (He1e : e' <= e1) by lia.
  (* the first shift *)
  assert (Pk : 0 < 2 ^ (e1 - e')) by (apply Z.pow_pos_nonneg; lia).
  assert (P1 : 0 < 2 ^ (- e1)) by (apply Z.pow_pos_nonneg; lia).
  assert (Esplit : 2 ^ (- e') = 2 ^ (- e1) * 2 ^ (e1 - e')).
  { rewrite <- Z.pow_add_r by lia. f_equal. lia. }
  assert (Hm1r : m1r <= 100 * 2 ^ (- e1)).
  { destruct (Z.eq_dec q (100 * 2 ^ (- e'))) as [Eq|Nq].
    - assert (r = 0) by nia. subst r.
      assert (Hex : loc_of_shr_record mrs1 = loc_Exact).
      { apply Hx1; [apply new_location_exact|].
        rewrite Eq, Esplit. rewrite Z.mul_assoc. apply Z.mod_mul. lia. }
      unfold m1r. rewrite Hex. cbn [round_nearest_even]. rewrite Hm1.
      apply Z.div_le_upper_bound; [lia|]. nia.
    - assert (shr_m mrs1 < 100 * 2 ^ (- e1)).
      { rewrite Hm1. apply Z.div_lt_upper_bound; [lia|]. nia. }
      unfold m1r.
      destruct (round_nearest_even_cases (shr_m mrs1) (loc_of_shr_record mrs1)) as [->| ->]; lia. }
  assert (Hm1r0 : 0 <= m1r).
  { assert (0 <= shr_m mrs1) by (rewrite Hm1; apply Z.div_pos; lia).
    unfold m1r.
    destruct (round_nearest_even_cases (shr_m mrs1) (loc_of_shr_record mrs1)) as [->| ->]; lia. }
  assert (Hdr : Zdigits2 m1r <= 7 - e1).
  { apply Zdigits2_le; try lia. replace (7 - e1) with (7 + - e1) by lia.
    rewrite (Z.pow_add_r 2 7 (- e1)) by lia. change (2 ^ 7) with 128. lia. }
  assert (He246 : e2 <= -46) by (rewrite He2, fexp_eq; lia).
  assert (Pk2 : 0 < 2 ^ (e2 - e1)) by (apply Z.pow_pos_nonneg; lia).
  assert (P2 : 0 < 2 ^ (- e2)) by (apply Z.pow_pos_nonneg; lia).
  assert (Esplit2 : 2 ^ (- e1) = 2 ^ (- e2) * 2 ^ (e2 - e1)).
  { rewrite <- Z.pow_add_r by lia. f_equal. lia. }
  assert (Hm2b : shr_m mrs2 <= 100 * 2 ^ (- e2)).
  { rewrite Hm2. apply Z.div_le_upper_bound; [lia|]. nia. }
  destruct (shr_m mrs2) as [|p|p]; [left; reflexivity| |lia].
  right. destruct (Z.leb_spec e2 (emax - prec)) as [_|Hbad]; [|unfold emax, prec in Hbad; lia].
  exists p, e2. split; [reflexivity|].
  destruct (Z.eq_dec e2 (-46)) as [E|E]; [right|left; lia].
  split; [assumption|]. rewrite E in Hm2b. exact Hm2b.
Qed.

(** *** Back to the primitive floats *)

Lemma leb_zero_SF R :
  valid_binary R = true ->
  (R = S754_zero false \/ (exists m e, R = S754_finite false m e)
   \/ R = S754_infinity false) ->
  (0 <=? SF2Prim R)%float = true.
Proof.
  intros Hv HR. rewrite leb_spec. rewrite (Prim2SF_SF2Prim R Hv).
  change (Prim2SF 0) with (S754_zero false).
  destruct HR as [->|[(m & e & ->)| ->]]; reflexivity.
Qed.


Lemma Qle_0_num (q : Q) : (0 <= q)%Q -> (0 <= Qnum q)%Z.
Proof. unfold Qle. simpl. lia. Qed.

Lemma Qle_100_num (q : Q) : (q <= 100)%Q -> (Qnum q <= 100 * Zpos (Qden q))%Z.
Proof. unfold Qle. simpl. lia. Qed.

Lemma Q2float_nonneg (q : Q) : (0 <= q)%Q -> (0 <=? Py.Q2float q)%float = true.
Proof.
  intros H. apply Qle_0_num in H.
  unfold Py.Q2float, Py.ratio2float.
  destruct (Qnum q) as [|n|n]; [reflexivity| |lia].
  destruct (SFdiv_valid false n (Qden q)) as [Hv HR].
  apply leb_zero_SF; assumption.
Qed.

Lemma Prim2SF_100 : Prim2SF 100 = S754_finite false 7036874417766400 (-46).
Proof. vm_compute. reflexivity. Qed.

Lemma SFleb_finite_le m e c ec :
  (e < ec \/ (e = ec /\ Zpos m <= Zpos c))%Z ->
  SFleb (S754_finite false m e) (S754_finite false c ec) = true.
Proof.
  intros Hb. unfold SFleb, SFcompare.
  change (PosDef.Pos.compare_cont Eq m c) with (Pos.compare m c).
  destruct (Z.compare_spec e ec); [|reflexivity|lia].
  destruct (Pos.compare_spec m c); try reflexivity. lia.
Qed.

Lemma leb_100_SF R :
  valid_binary R = true ->
  (R = S754_zero false
   \/ exists m e, R = S754_finite false m e
                  /\ (e < -46 \/ (e = -46 /\ Zpos m <= 7036874417766400))%Z) ->
  (SF2Prim R <=? 100)%float = true.
Proof.
  intros Hv HR. rewrite leb_spec. rewrite (Prim2SF_SF2Prim R Hv).
  rewrite Prim2SF_100.
  destruct HR as [->|(m & e & -> & Hb)]; [reflexivity|].
  apply SFleb_finite_le. exact Hb.
Qed.

Lemma Q2float_le_100 (q : Q) :
  (0 <= q)%Q -> (q <= 100)%Q -> (Py.Q2float q <=? 100)%float = true.
Proof.
  intros H0 H. apply Qle_0_num in H0. apply Qle_100_num in H.
  unfold Py.Q2float, Py.ratio2float.
  destruct (Qnum q) as [|n|n]; [reflexivity| |lia].
  destruct (SFdiv_valid false n (Qden q)) as [Hv _].
  apply leb_100_SF; [exact Hv|].
  apply SFdiv_le_100. exact H.
Qed.

End Rounding.

(** ** The two metrics *)

Section Metrics.

Local Open Scope string_scope.

Lemma Qsquare_nonneg (a : Q) : (0 <= a * a)%Q.
Proof. unfold Qle, Qmult. simpl. nia. Qed.

Lemma Qsum_squares_nonneg (m : Q) xs :
  (0 <= np.Qsum (map (fun x => (inject_Z x - m) * (inject_Z x - m)) xs))%Q.
Proof.
  induction xs as [|x xs IH]; simpl.
  - apply Qle_refl.
  - rewrite <- (Qplus_0_l 0). apply Qplus_le_compat; [|exact IH].
    apply Qsquare_nonneg.
Qed.

(** A variance is never negative. *)
Lemma var_nonneg a : (0 <= np.var a)%Q.
Proof.
  unfold np.var, Qdiv. apply Qmult_le_0_compat.
  - apply Qsum_squares_nonneg.
  - apply Qinv_le_0_compat. unfold Qle. simpl. lia.
Qed.

Lemma last_le_sum hist :
  Forall (fun n => 0 <= n)%Z hist -> (0 <= last hist 0 <= np.sum hist)%Z.
Proof.
  induction 1 as [|n hist Hn Hall IH]; simpl; [lia|].
  destruct hist as [|n' hist]; [simpl; lia|]. simpl in *. lia.
Qed.

(** The two extreme bins of a histogram hold no more than all its bins. *)
Lemma extreme_le_sum hist :
  Forall (fun n => 0 <= n)%Z hist -> (2 <= List.length hist)%nat ->
  (0 <= nth 0 hist 0 + last hist 0 <= np.sum hist)%Z.
Proof.
  intros Hall Hlen. destruct hist as [|n hist]; [simpl in Hlen; lia|].
  inversion Hall as [|? ? Hn Hrest]; subst.
  destruct hist as [|n' hist]; [simpl in Hlen; lia|].
  pose proof (last_le_sum (n' :: hist) Hrest) as H.
  change (last (n :: n' :: hist) 0%Z) with (last (n' :: hist) 0%Z).
  change (np.sum (n :: n' :: hist)) with (n + np.sum (n' :: hist))%Z.
  simpl nth. lia.
Qed.

Lemma calcHist_counts gray :
  Forall (fun n => 0 <= n)%Z (calcHist gray)
  /\ List.length (calcHist gray) = 256%nat.
Proof.
  unfold calcHist. split.
  - apply Forall_map. apply Forall_forall. intros v _. lia.
  - rewrite length_map, length_seq. reflexivity.
Qed.

(** The divisor of line 22 is positive, whatever the histogram. *)
Lemma hist_total_positive hist : (0 < hist_total hist)%Q.
Proof.
  unfold hist_total. destruct (Z.ltb_spec 0 (np.sum hist)).
  - unfold Qlt. simpl. lia.
  - reflexivity.
Qed.

Lemma clip_pct_range hist :
  Forall (fun n => 0 <= n)%Z hist -> (2 <= List.length hist)%nat ->
  (0 <= clip_pct_of_hist hist /\ clip_pct_of_hist hist <= 100)%Q.
Proof.
  intros Hall Hlen. pose proof (extreme_le_sum hist Hall Hlen) as [H0 H1].
  pose proof (hist_total_positive hist) as Ht.
  unfold clip_pct_of_hist.
  set (e := (nth 0 hist 0 + last hist 0)%Z) in *.
  split.
  - apply Qmult_le_0_compat; [|discriminate].
    unfold Qdiv. apply Qmult_le_0_compat.
    + unfold Qle. simpl. lia.
    + apply Qinv_le_0_compat, Qlt_le_weak, Ht.
  - setoid_replace 100%Q with (1 * 100)%Q at 2 by reflexivity.
    apply Qmult_le_compat_r; [|discriminate].
    apply Qle_shift_div_r; [exact Ht|].
    rewrite Qmult_1_l. unfold hist_total.
    destruct (Z.ltb_spec 0 (np.sum hist)).
    + rewrite <- Zle_Qle. exact H1.
    + unfold Qle. simpl. lia.
Qed.


(** The metrics of a valid buffer are numbers in range. *)
Lemma valid_frame_metrics_in_range bgr :
  valid_frame bgr = true ->
  exists sharpness clip : float,
    calc_blur_laplacian_var bgr = Return sharpness
    /\ calc_hist_clip_pct bgr = Return clip
    /\ (0 <=? sharpness)%float = true
    /\ (0 <=? clip)%float = true
    /\ (clip <=? 100)%float = true.
Proof.
  intros Hv.
  destruct (valid_frame_cvtColor bgr Hv) as (rows & _ & Hg).
  set (gray := map (map luminance) rows) in *.
  exists (Py.Q2float (np.var (Laplacian gray CV_64F))),
    (Py.Q2float (clip_pct_of_hist (calcHist gray))).
  unfold calc_blur_laplacian_var, calc_hist_clip_pct. rewrite Hg. simpl.
  split; [reflexivity|]. split; [reflexivity|].
  destruct (calcHist_counts gray) as [Hall Hlen].
  destruct (clip_pct_range (calcHist gray) Hall ltac:(lia)) as [Hc0 Hc100].
  repeat split.
  - apply Q2float_nonneg, var_nonneg.
  - apply Q2float_nonneg, Hc0.
  - apply Q2float_le_100; assumption.
Qed.

(** Hence the verdict of a valid buffer is the verdict of two metrics
    that are not NaN. *)
Lemma evaluate_basic_gates_valid_frame bgr :
  valid_frame bgr = true ->
  exists blur clip : float,
    evaluate_basic_gates bgr = Return (gate_verdict blur clip)
    /\ is_nan blur = false /\ is_nan clip = false.
Proof.
  intros Hv.
  destruct (valid_frame_metrics_in_range bgr Hv) as (b & c & Hb & Hc & H0 & H1 & _).
  exists b, c. split; [apply evaluate_basic_gates_metrics; assumption|].
  split; [apply (leb_true_not_nan _ _ H0)|apply (leb_true_not_nan _ _ H1)].
Qed.



(** The sample buffers of the specification: a flat image has sharpness
    0, a black-and-white checkerboard has 100 percent of clipped pixels. *)
Example flat_frame_sharpness :
  calc_blur_laplacian_var flat_frame = Return 0.0%float.
Proof. vm_compute. reflexivity. Qed.

Example checkerboard_clip :
  calc_hist_clip_pct checkerboard = Return 100.0%float.
Proof. vm_compute. reflexivity. Qed.

(** A one-channel buffer, not empty, on which both metrics raise. *)
Lemma C8_counterexample :
  empty gray_frame = false
  /\ channels gray_frame = 1%nat
  /\ calc_blur_laplacian_var gray_frame
     = Raise (cv2_error "Invalid number of channels in input image")
  /\ calc_hist_clip_pct gray_frame
     = Raise (cv2_error "Invalid number of channels in input image").
Proof. repeat split. Qed.

(** C8, amended.  Both metrics are total over the non-empty 3-channel
    buffers: each first converts its input with the same
    [cvtColor(bgr, COLOR_BGR2GRAY)], hence the same luminance weighting,
    and computes on that gray image.  On a one-channel buffer both raise
    the error of the conversion. *)
Theorem C8_metrics_total_on_bgr :
  (forall bgr,
      valid_frame bgr = true ->
      exists rows gray,
        bgr = Mat3 rows
        /\ gray = map (map luminance) rows
        /\ cvtColor bgr COLOR_BGR2GRAY = Return gray
        /\ calc_blur_laplacian_var bgr
           = Return (Py.Q2float (np.var (Laplacian gray CV_64F)))
        /\ calc_hist_clip_pct bgr
           = Return (Py.Q2float (clip_pct_of_hist (calcHist gray))))
  /\ (forall rows,
         exists e,
           cvtColor (Mat1 rows) COLOR_BGR2GRAY = Raise e
           /\ calc_blur_laplacian_var (Mat1 rows) = Raise e
           /\ calc_hist_clip_pct (Mat1 rows) = Raise e).
Proof.
  split.
  - intros bgr Hv.
    destruct (valid_frame_cvtColor bgr Hv) as (rows & Hb & Hg).
    exists rows, (map (map luminance) rows).
    unfold calc_blur_laplacian_var, calc_hist_clip_pct. rewrite Hg.
    repeat split. exact Hb.
  - intros rows.
    unfold calc_blur_laplacian_var, calc_hist_clip_pct, cvtColor.
    destruct (empty (Mat1 rows)); eexists; repeat split.
Qed.

Lemma C8_metrics_total_on_bgr_witness :
  exists rows gray,
    sharp_frame = Mat3 rows
    /\ gray = map (map luminance) rows
    /\ cvtColor sharp_frame COLOR_BGR2GRAY = Return gray
    /\ calc_blur_laplacian_var sharp_frame
       = Return (Py.Q2float (np.var (Laplacian gray CV_64F)))
    /\ calc_hist_clip_pct sharp_frame
       = Return (Py.Q2float (clip_pct_of_hist (calcHist gray))).
Proof.
  apply (proj1 C8_metrics_total_on_bgr sharp_frame). reflexivity.
Defined.

End Metrics.

(** * Further properties of the handlers *)

Import FloatValue Scenarios.

(** ** The usage counter and the token map over sequences of calls *)

Section Protocol.
Local Open Scope string_scope.

(** X1.  After any sequence of calls of [measure], [usage] reports the
    count it had before plus the number of calls: every call counts once,
    whether it is scored, turned away by the cooldown or ends in an
    error. *)
Theorem usage_counts_every_call :
  forall st calls,
    endpoints.usage (run st calls)
    = [("measure_calls", (USAGE_COUNTER st + Z.of_nat (List.length calls))%Z)].
Proof.
  intros st calls. unfold endpoints.usage. do 2 f_equal.
  revert st. induction calls as [|c calls IH]; intros st.
  - simpl. lia.
  - change (run st (c :: calls)) with (run (fst (answer st c)) calls).
    rewrite IH. unfold answer. rewrite measure_counts.
    simpl List.length. lia.
Qed.

(** Four calls, one of them turned away: the counter says 4 and the map
    holds the two tokens with the times of their accepted calls. *)
Example sample_calls_state :
  endpoints.usage (run initial_state sample_calls) = [("measure_calls", 4%Z)]
  /\ RECENT_TOKENS (run initial_state sample_calls)
     = [("tok", 1700000000.0%float); ("other", 1700000002.0%float)].
Proof. split; vm_compute; reflexivity. Qed.

Lemma run_cons st c calls : run st (c :: calls) = run (fst (answer st c)) calls.
Proof. reflexivity. Qed.

(** the token map of one call *)
Lemma answer_tokens st c :
  RECENT_TOKENS (fst (answer st c)) = RECENT_TOKENS st
  \/ exists token, call_token c = Some token /\ token <> ""
       /\ cooldown_rejects st (call_now c) (Some token) = false
       /\ RECENT_TOKENS (fst (answer st c))
          = dict_set (RECENT_TOKENS st) token (call_now c).
Proof.
  unfold answer, measure, cooldown_rejects, truthy.
  destruct (call_token c) as [t|]; [|left; reflexivity].
  destruct (String.eqb_spec t ""); simpl; [left; reflexivity|].
  match goal with |- context [if ?b then _ else _] => destruct b eqn:E end;
    [left; reflexivity|].
  right. exists t. simpl in E. repeat split; try assumption.
  rewrite E. apply andb_false_r.
Qed.

Lemma dict_set_length {V : Type} (d : dict V) k v :
  List.length (dict_set d k v)
  = match dict_get d k with
    | Some _ => List.length d
    | None => S (List.length d)
    end.
Proof.
  induction d as [|[k' v'] d IH]; simpl; [reflexivity|].
  destruct (String.eqb k k'); simpl; [reflexivity|].
  rewrite IH. destruct (dict_get d k); reflexivity.
Qed.

Lemma dict_get_set {V : Type} (d : dict V) k k' v :
  dict_get (dict_set d k' v) k = if String.eqb k k' then Some v else dict_get d k.
Proof.
  destruct (String.eqb_spec k k') as [->|Hne].
  - apply dict_get_set_same.
  - apply dict_get_set_other, Hne.
Qed.

Lemma answer_tokens_grow st c :
  (forall token, dict_get (RECENT_TOKENS st) token <> None ->
                 dict_get (RECENT_TOKENS (fst (answer st c))) token <> None)
  /\ (List.length (RECENT_TOKENS st)
      <= List.length (RECENT_TOKENS (fst (answer st c)))
      <= S (List.length (RECENT_TOKENS st)))%nat.
Proof.
  destruct (answer_tokens st c) as [->|(t & _ & _ & _ & ->)].
  - split; [auto|lia].
  - split.
    + intros token H. rewrite dict_get_set.
      destruct (String.eqb token t); [discriminate|exact H].
    + rewrite dict_set_length. destruct (dict_get (RECENT_TOKENS st) t); lia.
Qed.

(** X2.  [RECENT_TOKENS] only grows: over any sequence of calls a token
    that has an entry keeps one, no entry is ever removed, and a call adds
    at most one entry. *)
Theorem recent_tokens_only_grow calls : forall st,
  (forall token, dict_get (RECENT_TOKENS st) token <> None ->
                 dict_get (RECENT_TOKENS (run st calls)) token <> None)
  /\ (List.length (RECENT_TOKENS st)
      <= List.length (RECENT_TOKENS (run st calls))
      <= List.length (RECENT_TOKENS st) + List.length calls)%nat.
Proof.
  induction calls as [|c calls IH]; intros st.
  - simpl. split; [auto|lia].
  - rewrite run_cons.
    destruct (answer_tokens_grow st c) as [G1 G2].
    destruct (IH (fst (answer st c))) as [I1 I2].
    split; [auto|]. simpl List.length. lia.
Qed.

Lemma answer_token_provenance st c token t :
  dict_get (RECENT_TOKENS (fst (answer st c))) token = Some t ->
  dict_get (RECENT_TOKENS st) token = Some t
  \/ (call_token c = Some token /\ call_now c = t /\ token <> ""
      /\ cooldown_rejects st (call_now c) (Some token) = false).
Proof.
  destruct (answer_tokens st c) as [->|(tk & Hc & Hne & Hpass & ->)]; [auto|].
  rewrite dict_get_set.
  destruct (String.eqb_spec token tk) as [->|Hd]; [|auto].
  intros H. inversion H; subst. right. auto.
Qed.

(** X3.  A time found under a token after a sequence of calls was there
    before, or is the clock of one of the calls that carried this token,
    and the token is not the empty string. *)
Theorem recent_tokens_provenance calls : forall st token t,
  dict_get (RECENT_TOKENS (run st calls)) token = Some t ->
  dict_get (RECENT_TOKENS st) token = Some t
  \/ Exists (fun c => call_token c = Some token /\ call_now c = t /\ token <> "")
       calls.
Proof.
  induction calls as [|c calls IH]; intros st token t H.
  - left. exact H.
  - rewrite run_cons in H. destruct (IH _ _ _ H) as [H1|H1].
    + destruct (answer_token_provenance _ _ _ _ H1) as [H2|(H2 & H3 & H4 & _)].
      * left. exact H2.
      * right. apply Exists_cons_hd. auto.
    + right. apply Exists_cons_tl. exact H1.
Qed.

Lemma recent_tokens_provenance_witness :
  dict_get (RECENT_TOKENS initial_state) "tok" = Some 1700000000.0%float
  \/ Exists (fun c => call_token c = Some "tok"
                      /\ call_now c = 1700000000.0%float /\ "tok" <> "")
       sample_calls.
Proof.
  apply (recent_tokens_provenance sample_calls initial_state "tok"
           1700000000.0%float).
  vm_compute. reflexivity.
Defined.



Lemma leb_ltb_false x y : (x <=? y)%float = true -> (y <? x)%float = false.
Proof.
  intros H1.
  fkeys x; [|nan_contra]. fkeys y; [|nan_contra].
  destruct (y <? x)%float eqn:H3; [exfalso; lex|reflexivity].
Qed.



(** X5.  Once a call with a token has passed the cooldown check, a later
    call with that token whose clock is 2.5 seconds or more after it
    (2.5 included) is scored and moves the recorded time to its own clock,
    whatever calls with other tokens or without a token come in
    between. *)
Theorem cooldown_expires st first between second token :
  token <> "" ->
  call_token first = Some token ->
  call_token second = Some token ->
  Forall (fun c => call_token c <> Some token) between ->
  cooldown_rejects st (call_now first) (Some token) = false ->
  (TOKEN_COOLDOWN_SEC <=? call_now second - call_now first)%float = true ->
  let st' := run (fst (answer st first)) between in
  snd (answer st' second) = score_burst (call_frames second)
  /\ dict_get (RECENT_TOKENS (fst (answer st' second))) token
     = Some (call_now second).
Proof.
  intros Hne Hf Hs Hall Hpass Hlate st'.
  assert (P : cooldown_rejects st' (call_now second) (Some token) = false).
  { unfold cooldown_rejects, dict_get_default, st'.
    rewrite (run_keeps_other_tokens between _ token Hall).
    unfold answer. rewrite Hf.
    rewrite (measure_records st (call_now first) token _ _ Hne Hpass).
    rewrite dict_get_set_same.
    destruct (String.eqb_spec token ""); [contradiction|].
    simpl. apply leb_ltb_false, Hlate. }
  unfold answer. rewrite Hs. split.
  - apply measure_passes, P.
  - rewrite (measure_records _ _ _ _ _ Hne P). apply dict_get_set_same.
Qed.

Lemma cooldown_expires_witness :
  snd (answer
         (run (fst (answer initial_state
                      (call_at 1700000000.0 (Some "tok") steady_burst)))
              [call_at 1700000001.0 (Some "other") mixed_burst])
         (call_at 1700000002.5 (Some "tok") mixed_burst))
  = score_burst mixed_burst
  /\ dict_get
       (RECENT_TOKENS
          (fst (answer
                  (run (fst (answer initial_state
                               (call_at 1700000000.0 (Some "tok") steady_burst)))
                       [call_at 1700000001.0 (Some "other") mixed_burst])
                  (call_at 1700000002.5 (Some "tok") mixed_burst))))
       "tok"
     = Some 1700000002.5%float.
Proof.
  apply (cooldown_expires initial_state
           (call_at 1700000000.0 (Some "tok") steady_burst)
           [call_at 1700000001.0 (Some "other") mixed_burst]
           (call_at 1700000002.5 (Some "tok") mixed_burst)
           "tok").
  - discriminate.
  - reflexivity.
  - reflexivity.
  - repeat constructor; discriminate.
  - reflexivity.
  - reflexivity.
Defined.

End Protocol.

(** ** Calls that fail, and what every response satisfies *)

Section Failures.

Local Open Scope string_scope.

Lemma invalid_frame_raises bgr :
  valid_frame bgr = false ->
  exists msg, cvtColor bgr COLOR_BGR2GRAY = Raise (cv2_error msg).
Proof.
  unfold valid_frame, cvtColor. intros H.
  destruct (empty bgr); [eauto|].
  destruct bgr as [rows|rows]; [eauto|]. discriminate H.
Qed.




Lemma collect_lengths frames : forall blur_vals clip_vals bl cl,
  collect frames blur_vals clip_vals = Return (bl, cl) ->
  List.length blur_vals = List.length clip_vals ->
  List.length bl = List.length cl
  /\ (List.length bl <= List.length blur_vals + List.length frames)%nat.
Proof.
  induction frames as [|bgr frames IH]; simpl; intros bv cv bl cl H Hlen.
  - inversion H; subst. split; [assumption|lia].
  - destruct (calc_blur_laplacian_var bgr) as [b|]; [|discriminate H].
    destruct (calc_hist_clip_pct bgr) as [c|]; [|discriminate H].
    simpl in H. destruct (broken b c).
    + destruct (IH _ _ _ _ H Hlen). split; [assumption|lia].
    + destruct (IH _ _ _ _ H) as [I1 I2].
      { rewrite !length_app. simpl. lia. }
      rewrite length_app in I2. simpl in I2. split; [assumption|lia].
Qed.

Lemma score_burst_invariants frames r :
  score_burst frames = Return r ->
  distance_pd_mm r = None /\ near_pd_mm r = None
  /\ (ok r = true <-> (3 <= frames_used r)%nat)
  /\ (ok r = false -> score r = 0%float)
  /\ (frames_used r <= List.length frames)%nat.
Proof.
  unfold score_burst.
  destruct (collect frames [] []) as [[bl cl]|] eqn:Hc; simpl; [|discriminate].
  destruct (collect_lengths frames [] [] bl cl Hc eq_refl) as [L1 L2].
  simpl in L2.
  destruct (Nat.ltb_spec (List.length bl) 3) as [Hlt|Hge].
  - intros H. inversion H; subst; simpl.
    repeat split; try discriminate; try lia.
  - destruct (statistics.median bl) as [mb|]; simpl; [|discriminate].
    destruct (statistics.median cl) as [mc|]; simpl; [|discriminate].
    intros H. inversion H; subst; simpl.
    repeat split; try discriminate; try lia.
Qed.

(** X7.  Every response of [measure], on any input: the two PD fields
    are [None]; ok is true exactly when frames_used is at least 3, so a
    burst of fewer than three frames is never ok; a response that is not
    ok has score 0.0; and frames_used never exceeds the number of frames
    submitted. *)
Theorem measure_response_invariants :
  forall st now token wd frames resp,
    snd (measure st now token wd frames) = Return resp ->
    distance_pd_mm resp = None /\ near_pd_mm resp = None
    /\ (ok resp = true <-> (3 <= frames_used resp)%nat)
    /\ (ok resp = false -> score resp = 0%float)
    /\ (frames_used resp <= List.length frames)%nat.
Proof.
  intros st now token wd frames resp.
  destruct (cooldown_rejects st now token) eqn:E.
  - rewrite (measure_rejected _ _ _ _ _ E). intros H. inversion H; subst. simpl.
    repeat split; try discriminate; try lia.
  - rewrite (measure_passes _ _ _ _ _ E). apply score_burst_invariants.
Qed.

Lemma measure_response_invariants_witness :
  distance_pd_mm mixed_burst_response = None
  /\ near_pd_mm mixed_burst_response = None
  /\ (ok mixed_burst_response = true <-> (3 <= frames_used mixed_burst_response)%nat)
  /\ (ok mixed_burst_response = false -> score mixed_burst_response = 0%float)
  /\ (frames_used mixed_burst_response <= List.length mixed_burst)%nat.
Proof.
  apply (measure_response_invariants initial_state 1700000000.0%float None
           (Some 40.0%float) mixed_burst mixed_burst_response).
  vm_compute. reflexivity.
Defined.

End Failures.

(** ** The ready-check handler *)

Section ReadyCheck.

Local Open Scope string_scope.

Lemma ready_check_returns bgr uuid4 blur clip :
  calc_blur_laplacian_var bgr = Return blur ->
  calc_hist_clip_pct bgr = Return clip ->
  endpoints.ready_check bgr uuid4
  = inr {| endpoints.ready := fst (fst (fst (gate_verdict blur clip)));
           endpoints.failing_gates := snd (fst (fst (gate_verdict blur clip)));
           endpoints.guidance := snd (fst (gate_verdict blur clip));
           endpoints.action := None;
           endpoints.server_token := uuid4;
           endpoints.diagnostics :=
             [("blur_laplacian_var", blur); ("lighting_clip_pct", clip)] |}.
Proof.
  intros Hb Hc. unfold endpoints.ready_check.
  rewrite (evaluate_basic_gates_metrics bgr blur clip Hb Hc).
  unfold gate_verdict.
  destruct (blur <? 80)%float, (Py.geb clip 8); reflexivity.
Qed.

Lemma ready_check_inr bgr uuid4 r :
  endpoints.ready_check bgr uuid4 = inr r ->
  exists blur clip,
    calc_blur_laplacian_var bgr = Return blur
    /\ calc_hist_clip_pct bgr = Return clip
    /\ endpoints.ready r = fst (fst (fst (gate_verdict blur clip)))
    /\ endpoints.diagnostics r
       = [("blur_laplacian_var", blur); ("lighting_clip_pct", clip)].
Proof.
  destruct (calc_blur_laplacian_var bgr) as [b|e] eqn:Hb.
  - destruct (calc_hist_clip_pct bgr) as [c|e] eqn:Hc.
    + rewrite (ready_check_returns bgr uuid4 b c Hb Hc). intros [= <-].
      exists b, c. repeat split.
    + unfold endpoints.ready_check, evaluate_basic_gates. rewrite Hb, Hc. discriminate.
  - unfold endpoints.ready_check, evaluate_basic_gates. rewrite Hb. discriminate.
Qed.

(** X8.  [ready_check] answers for every valid buffer: its diagnostics
    are the two metrics [measure] computes for the same buffer, under the
    keys the log line reads, action is [None], the token is the fresh
    uuid, and ready holds exactly when no gate is listed.  On a buffer the
    conversion rejects it raises the conversion's error.  It never raises
    a [KeyError]: the keys read at lines 72-73 are those written at line 50
    of [quality_gates.py]. *)
Theorem ready_check_outcomes :
  forall bgr uuid4,
    (valid_frame bgr = true ->
     exists r blur clip,
       endpoints.ready_check bgr uuid4 = inr r
       /\ frame_metrics [bgr] = Return [(blur, clip)]
       /\ endpoints.diagnostics r
          = [("blur_laplacian_var", blur); ("lighting_clip_pct", clip)]
       /\ endpoints.action r = None
       /\ endpoints.server_token r = uuid4
       /\ (endpoints.ready r = true <-> endpoints.failing_gates r = []))
    /\ (valid_frame bgr = false ->
        exists msg,
          endpoints.ready_check bgr uuid4
          = inl (endpoints.LibraryError (cv2_error msg)))
    /\ (forall key, endpoints.ready_check bgr uuid4 <> inl (endpoints.KeyError key)).
Proof.
  intros bgr uuid4. split; [|split].
  - intros Hv. destruct (valid_frame_has_metrics bgr Hv) as (b & c & Hb & Hc).
    eexists. exists b, c.
    split; [apply (ready_check_returns bgr uuid4 b c Hb Hc)|].
    split; [simpl; rewrite Hb, Hc; reflexivity|].
    split; [reflexivity|]. split; [reflexivity|]. split; [reflexivity|].
    cbn [endpoints.ready endpoints.failing_gates]. unfold gate_verdict.
    destruct (b <? 80)%float, (Py.geb c 8); simpl; split; intros H; congruence.
  - intros Hv. destruct (invalid_frame_raises bgr Hv) as [msg Hg].
    exists msg. unfold endpoints.ready_check, evaluate_basic_gates, calc_blur_laplacian_var.
    rewrite Hg. reflexivity.
  - intros key.
    destruct (calc_blur_laplacian_var bgr) as [b|e] eqn:Hb.
    + destruct (calc_hist_clip_pct bgr) as [c|e] eqn:Hc.
      * rewrite (ready_check_returns bgr uuid4 b c Hb Hc). discriminate.
      * unfold endpoints.ready_check, evaluate_basic_gates. rewrite Hb, Hc. discriminate.
    + unfold endpoints.ready_check, evaluate_basic_gates. rewrite Hb. discriminate.
Qed.

Lemma ready_check_outcomes_witness :
  exists r blur clip,
    endpoints.ready_check spot_frame "0b7e" = inr r
    /\ frame_metrics [spot_frame] = Return [(blur, clip)]
    /\ endpoints.diagnostics r
       = [("blur_laplacian_var", blur); ("lighting_clip_pct", clip)]
    /\ endpoints.action r = None
    /\ endpoints.server_token r = "0b7e"
    /\ (endpoints.ready r = true <-> endpoints.failing_gates r = []).
Proof.
  apply (proj1 (ready_check_outcomes spot_frame "0b7e")). reflexivity.
Defined.

(** A frame with sharpness 83.95 and 11.1 percent of clipped pixels: the
    lighting gate fails. *)
Example ready_check_sample :
  endpoints.ready_check spot_frame "0b7e"
  = inr {| endpoints.ready := false;
           endpoints.failing_gates := ["lighting"];
           endpoints.guidance :=
             "Face a light source (avoid a bright window behind you)";
           endpoints.action := None;
           endpoints.server_token := "0b7e";
           endpoints.diagnostics :=
             [("blur_laplacian_var", 83.950617283950621%float);
              ("lighting_clip_pct", 11.111111111111111%float)] |}.
Proof. vm_compute. reflexivity. Qed.

Lemma ltb_trans_false x a b :
  (a <=? b)%float = true -> (x <? b)%float = false -> (x <? a)%float = false.
Proof.
  intros H1 H2. destruct (x <? a)%float eqn:H3; [|reflexivity].
  fkeys x; [|nan_contra]. fkeys a; [|nan_contra]. fkeys b; [|nan_contra].
  destruct (x <? b)%float eqn:H4; [discriminate|].
  apply not_true_iff_false in H4. exfalso. apply H4.
  apply (ltb_iff _ _ _ _ E E1). 
  apply (ltb_iff _ _ _ _ E E0) in H3. apply (leb_iff _ _ _ _ E0 E1) in H1.
  unfold lex_lt, lex_le in *. lia.
Qed.

Lemma leb_ltb_chain_false a b x :
  (a <? b)%float = true -> (a <=? x)%float = false -> (b <? x)%float = false.
Proof.
  intros H1 H2. destruct (b <? x)%float eqn:H3; [|reflexivity].
  fkeys a; [|nan_contra]. fkeys b; [|nan_contra]. fkeys x; [|nan_contra].
  apply not_true_iff_false in H2. exfalso. apply H2.
  apply (leb_iff _ _ _ _ E E1).
  apply (ltb_iff _ _ _ _ E E0) in H1. apply (ltb_iff _ _ _ _ E0 E1) in H3.
  unfold lex_lt, lex_le in *. lia.
Qed.

(** the gates are stricter than the sanity filter of [measure] *)
Lemma ready_survives blur clip :
  fst (fst (fst (gate_verdict blur clip))) = true -> broken blur clip = false.
Proof.
  unfold gate_verdict, broken, Py.geb, Py.gtb.
  destruct (blur <? 80)%float eqn:E1; [simpl; destruct (8 <=? clip)%float; discriminate|].
  destruct (8 <=? clip)%float eqn:E2; [discriminate|]. intros _.
  rewrite (ltb_trans_false blur 5 80 eq_refl E1).
  rewrite (leb_ltb_chain_false 8 50 clip eq_refl E2). reflexivity.
Qed.

Lemma collect_ready frames : forall blur_vals clip_vals,
  Forall (fun bgr => exists uuid4 r, endpoints.ready_check bgr uuid4 = inr r
                                     /\ endpoints.ready r = true) frames ->
  exists bl cl,
    collect frames blur_vals clip_vals
    = Return ((blur_vals ++ bl)%list, (clip_vals ++ cl)%list)
    /\ List.length bl = List.length frames
    /\ List.length cl = List.length frames.
Proof.
  induction frames as [|bgr frames IH]; intros bv cv Hall.
  - exists [], []. simpl. rewrite !app_nil_r. repeat split.
  - inversion Hall as [|? ? (u & r & Hr & Hready) Hrest]; subst.
    destruct (ready_check_inr bgr u r Hr) as (b & c & Hb & Hc & Er & _).
    rewrite Er in Hready. simpl. rewrite Hb, Hc. simpl.
    rewrite (ready_survives b c Hready).
    destruct (IH (bv ++ [b])%list (cv ++ [c])%list Hrest) as (bl & cl & -> & Hl1 & Hl2).
    exists (b :: bl), (c :: cl). rewrite <- !app_assoc. simpl.
    split; [reflexivity|]. rewrite Hl1, Hl2. split; reflexivity.
Qed.

(** X9.  The gates of ready-check are stricter than the sanity filter of
    [measure]: a frame that ready-check reports ready is never dropped, so
    a burst of three or more such frames that passes the cooldown check is
    scored, ok true, with every frame used. *)
Theorem ready_burst_is_scored :
  forall st now token wd frames,
    Forall (fun bgr => exists uuid4 r, endpoints.ready_check bgr uuid4 = inr r
                                       /\ endpoints.ready r = true) frames ->
    (3 <= List.length frames)%nat ->
    cooldown_rejects st now token = false ->
    exists resp,
      snd (measure st now token wd frames) = Return resp
      /\ ok resp = true
      /\ frames_used resp = List.length frames.
Proof.
  intros st now token wd frames Hall Hlen Hc.
  rewrite (measure_passes _ _ _ _ _ Hc). unfold score_burst.
  destruct (collect_ready frames [] [] Hall) as (bl & cl & -> & Hl1 & Hl2).
  simpl.
  destruct (Nat.ltb_spec (List.length bl) 3) as [Hlt|Hge]; [lia|].
  destruct (median_total bl) as [mb ->].
  { destruct bl; simpl in *; [lia|discriminate]. }
  destruct (median_total cl) as [mc ->].
  { destruct cl; simpl in *; [lia|discriminate]. }
  simpl. eexists. split; [reflexivity|]. split; [reflexivity|exact Hl1].
Qed.

Lemma ready_burst_is_scored_witness :
  exists resp,
    snd (measure initial_state 1700000000.0 (Some "tok") None steady_burst)
    = Return resp
    /\ ok resp = true
    /\ frames_used resp = List.length steady_burst.
Proof.
  apply (ready_burst_is_scored initial_state 1700000000.0%float (Some "tok") None
           steady_burst).
  - unfold steady_burst.
    repeat (apply Forall_cons;
            [exists "", sharp_frame_ready; split; [vm_compute; reflexivity|reflexivity]|]).
    apply Forall_nil.
  - simpl. lia.
  - reflexivity.
Defined.

End ReadyCheck.

(** ** Bounds that survive rounding

    A computed float does not exceed a float that bounds the exact
    result: the rounding of [binary_round_aux] can only go up to the bound,
    which is met exactly or not at all.  The section proves it for the
    rounding itself; the next ones for the comparisons, for [+], [-], [*]
    and [/] and for [round]. *)

Section RoundingBounds.

Local Open Scope Z_scope.

Lemma digits_le_of_bound m mc k :
  0 <= m -> 0 <= k -> m <= Zpos mc * 2 ^ k ->
  Zdigits2 m <= Zdigits2 (Zpos mc) + k.
Proof.
  intros Hm Hk Hb.
  pose proof (digits2_pos_bounds mc) as [_ D2]. fold (Zdigits2 (Zpos mc)) in D2.
  pose proof (Zdigits2_pos (Zpos mc) ltac:(lia)) as Dp.
  assert (P : 0 < 2 ^ k) by (apply Z.pow_pos_nonneg; lia).
  apply Zdigits2_le; [assumption|lia|].
  rewrite Z.pow_add_r by lia. nia.
Qed.

(** One shift of the mantissa, then rounding up by at most one, stays
    below an integer bound that is met only exactly. *)
Lemma shifted_round_le m k C (loc : location) :
  0 <= m -> 0 <= k -> m <= C * 2 ^ k ->
  (m = C * 2 ^ k -> loc = loc_Exact) ->
  round_nearest_even (m / 2 ^ k) loc <= C.
Proof.
  intros Hm Hk Hb Hex.
  assert (P : 0 < 2 ^ k) by (apply Z.pow_pos_nonneg; lia).
  assert (H1 : m / 2 ^ k <= C) by (apply Z.div_le_upper_bound; lia).
  destruct (Z.eq_dec (m / 2 ^ k) C) as [E|N].
  - pose proof (Z.mul_div_le m (2 ^ k) P) as H2. rewrite E in H2.
    rewrite Hex by lia. simpl. lia.
  - destruct (round_nearest_even_cases (m / 2 ^ k) loc) as [->| ->]; lia.
Qed.

Lemma binary_round_aux_le s m e l mc ec :
  0 <= m -> e <= fexp prec emax (Zdigits2 m + e) ->
  fexp prec emax (Zdigits2 (Zpos mc) + ec) = ec -> ec <= emax - prec ->
  e <= ec ->
  m <= Zpos mc * 2 ^ (ec - e) ->
  (l <> loc_Exact -> m < Zpos mc * 2 ^ (ec - e)) ->
  binary_round_aux prec emax s m e l = S754_zero s
  \/ exists m' e', binary_round_aux prec emax s m e l = S754_finite s m' e'
                   /\ (e' < ec \/ (e' = ec /\ Zpos m' <= Zpos mc)).
Proof.
  intros Hm He Hc Hec Hle Hb Hs.
  destruct (binary_round_aux_shape s m e l Hm He)
    as (mrs1 & e1 & mrs2 & e2 & _ & He1 & Hm1 & Hx1 & Hl1 & _ & He12 & Hm2 & Hp2 & _ & He2 & ->).
  set (m1r := round_nearest_even (shr_m mrs1) (loc_of_shr_record mrs1)) in *.
  set (dc := Zdigits2 (Zpos mc)) in *.
  pose proof (digits_le_of_bound m mc (ec - e) Hm ltac:(lia) Hb) as Hd.
  fold dc in Hd.
  rewrite fexp_eq in Hc.
  assert (He1c : e1 <= ec) by (rewrite He1, fexp_eq; lia).
  assert (He1e : e <= e1) by lia.
  assert (Ek : 2 ^ (ec - e) = 2 ^ (ec - e1) * 2 ^ (e1 - e)).
  { rewrite <- Z.pow_add_r by lia. f_equal. lia. }
  assert (P1 : 0 < 2 ^ (ec - e1)) by (apply Z.pow_pos_nonneg; lia).
  assert (Pk : 0 < 2 ^ (e1 - e)) by (apply Z.pow_pos_nonneg; lia).
  assert (Hm1r : m1r <= Zpos mc * 2 ^ (ec - e1)).
  { unfold m1r. rewrite Hm1. apply shifted_round_le; [lia|lia| |].
    - rewrite <- Z.mul_assoc, <- Ek. exact Hb.
    - intros Eq. rewrite <- Z.mul_assoc, <- Ek in Eq.
      destruct l as [|c].
      + apply Hx1; [reflexivity|]. rewrite Eq, Ek, Z.mul_assoc. apply Z.mod_mul. lia.
      + exfalso. assert (m < Z.pos mc * 2 ^ (ec - e)) by (apply Hs; discriminate). lia. }
  assert (Hm1r0 : 0 <= m1r).
  { assert (0 <= shr_m mrs1) by (rewrite Hm1; apply Z.div_pos; lia).
    unfold m1r.
    destruct (round_nearest_even_cases (shr_m mrs1) (loc_of_shr_record mrs1)) as [->| ->]; lia. }
  pose proof (digits_le_of_bound m1r mc (ec - e1) Hm1r0 ltac:(lia) Hm1r) as Hd1.
  fold dc in Hd1.
  assert (He2c : e2 <= ec) by (rewrite He2, fexp_eq; lia).
  assert (Ek2 : 2 ^ (ec - e1) = 2 ^ (ec - e2) * 2 ^ (e2 - e1)).
  { rewrite <- Z.pow_add_r by lia. f_equal. lia. }
  assert (P2 : 0 < 2 ^ (ec - e2)) by (apply Z.pow_pos_nonneg; lia).
  assert (Pk2 : 0 < 2 ^ (e2 - e1)) by (apply Z.pow_pos_nonneg; lia).
  assert (Hm2b : shr_m mrs2 <= Zpos mc * 2 ^ (ec - e2)).
  { rewrite Hm2. apply Z.div_le_upper_bound; [lia|].
    rewrite Z.mul_comm, <- Z.mul_assoc, <- Ek2. exact Hm1r. }
  destruct (shr_m mrs2) as [|p|p]; [left; reflexivity| |lia].
  right. destruct (Z.leb_spec e2 (emax - prec)) as [_|Hbad]; [|lia].
  exists p, e2. split; [reflexivity|].
  destruct (Z.eq_dec e2 ec) as [E|E]; [right|left; lia].
  split; [assumption|]. rewrite E, Z.sub_diag, Z.pow_0_r in Hm2b. lia.
Qed.

End RoundingBounds.

(** *** The order of the values *)

Section Values.

Local Open Scope Z_scope.

Lemma bounded_canonical m e :
  bounded prec emax m e = true ->
  fexp prec emax (Zdigits2 (Zpos m) + e) = e /\ e <= emax - prec /\ -1074 <= e
  /\ Zdigits2 (Zpos m) <= 53 /\ (-1074 < e -> Zdigits2 (Zpos m) = 53).
Proof.
  unfold bounded, canonical_mantissa. intros H.
  apply andb_true_iff in H. destruct H as [H1 H2].
  apply Z.eqb_eq in H1. apply Z.leb_le in H2.
  change (Zpos (digits2_pos m)) with (Zdigits2 (Zpos m)) in H1.
  pose proof H1 as H3. rewrite fexp_eq in H3.
  repeat split; try assumption; lia.
Qed.

Lemma pow_cancel_le a b u v w :
  0 <= u -> 0 <= v -> 0 <= w ->
  a * 2 ^ (u + w) <= b * 2 ^ (v + w) -> a * 2 ^ u <= b * 2 ^ v.
Proof.
  intros Hu Hv Hw H. rewrite !Z.pow_add_r, !Z.mul_assoc in H by assumption.
  assert (P : 0 < 2 ^ w) by (apply Z.pow_pos_nonneg; lia).
  apply Z.mul_le_mono_pos_r in H; assumption.
Qed.

Lemma pow_cancel_lt a b u v w :
  0 <= u -> 0 <= v -> 0 <= w ->
  a * 2 ^ (u + w) < b * 2 ^ (v + w) -> a * 2 ^ u < b * 2 ^ v.
Proof.
  intros Hu Hv Hw H. rewrite !Z.pow_add_r, !Z.mul_assoc in H by assumption.
  assert (P : 0 < 2 ^ w) by (apply Z.pow_pos_nonneg; lia).
  apply Z.mul_lt_mono_pos_r in H; assumption.
Qed.

Lemma pow_expand_le a b u v w :
  0 <= u -> 0 <= v -> 0 <= w ->
  a * 2 ^ u <= b * 2 ^ v -> a * 2 ^ (u + w) <= b * 2 ^ (v + w).
Proof.
  intros Hu Hv Hw H. rewrite !Z.pow_add_r, !Z.mul_assoc by assumption.
  assert (P : 0 < 2 ^ w) by (apply Z.pow_pos_nonneg; lia).
  apply Z.mul_le_mono_pos_r; assumption.
Qed.

(** Among the floats of the format, the order of the values is the
    order of the exponents, then of the mantissas. *)
Lemma canonical_lt m1 e1 m2 e2 :
  bounded prec emax m1 e1 = true -> bounded prec emax m2 e2 = true ->
  (e1 < e2 \/ (e1 = e2 /\ Zpos m1 < Zpos m2)) ->
  Zpos m1 * 2 ^ (e1 + 1074) < Zpos m2 * 2 ^ (e2 + 1074).
Proof.
  intros B1 B2 H.
  destruct (bounded_canonical _ _ B1) as (_ & _ & L1 & D1 & _).
  destruct (bounded_canonical _ _ B2) as (_ & _ & L2 & _ & N2).
  destruct H as [H|[-> H]].
  - specialize (N2 ltac:(lia)).
    pose proof (digits2_pos_bounds m1) as [_ U1]. fold (Zdigits2 (Zpos m1)) in U1.
    pose proof (digits2_pos_bounds m2) as [U2 _]. fold (Zdigits2 (Zpos m2)) in U2.
    rewrite N2 in U2. change (2 ^ (53 - 1)) with 4503599627370496 in U2.
    assert (U1' : Zpos m1 < 9007199254740992).
    { assert (2 ^ Zdigits2 (Zpos m1) <= 2 ^ 53) by (apply Z.pow_le_mono_r; lia).
      change (2 ^ 53) with 9007199254740992 in *. lia. }
    replace (e2 + 1074) with ((e2 - e1 - 1) + 1 + (e1 + 1074)) by lia.
    rewrite (Z.pow_add_r 2 (e2 - e1 - 1 + 1) (e1 + 1074)) by lia.
    rewrite (Z.pow_add_r 2 (e2 - e1 - 1) 1) by lia. change (2 ^ 1) with 2.
    assert (P : 0 < 2 ^ (e1 + 1074)) by (apply Z.pow_pos_nonneg; lia).
    assert (Q : 0 < 2 ^ (e2 - e1 - 1)) by (apply Z.pow_pos_nonneg; lia).
    set (p := 2 ^ (e1 + 1074)) in *. set (q := 2 ^ (e2 - e1 - 1)) in *.
    assert (S1 : Zpos m1 * p < 9007199254740992 * p) by nia.
    assert (S2 : 9007199254740992 * p <= Zpos m2 * 2 * p) by nia.
    assert (S3 : 0 <= Zpos m2 * 2 * p) by nia.
    assert (S4 : Zpos m2 * 2 * p <= q * (Zpos m2 * 2 * p)) by nia.
    replace (Zpos m2 * (q * 2 * p)) with (q * (Zpos m2 * 2 * p)) by ring.
    lia.
  - assert (P : 0 < 2 ^ (e2 + 1074)) by (apply Z.pow_pos_nonneg; lia).
    nia.
Qed.

Lemma canonical_le_iff m1 e1 m2 e2 :
  bounded prec emax m1 e1 = true -> bounded prec emax m2 e2 = true ->
  (e1 < e2 \/ (e1 = e2 /\ Zpos m1 <= Zpos m2))
  <-> Zpos m1 * 2 ^ (e1 + 1074) <= Zpos m2 * 2 ^ (e2 + 1074).
Proof.
  intros B1 B2. split.
  - intros [H|[-> H]].
    + apply Z.lt_le_incl, canonical_lt; auto.
    + destruct (bounded_canonical _ _ B2) as (_ & _ & L2 & _).
      assert (P : 0 < 2 ^ (e2 + 1074)) by (apply Z.pow_pos_nonneg; lia). nia.
  - intros H.
    destruct (Z.lt_trichotomy e1 e2) as [L|[E|G]]; [left; exact L| |exfalso].
    + right. split; [exact E|]. subst e2.
      destruct (Z_le_gt_dec (Zpos m1) (Zpos m2)) as [|G]; [assumption|exfalso].
      pose proof (canonical_lt m2 e1 m1 e1 B2 B1 ltac:(right; split; [reflexivity|lia])).
      lia.
    + pose proof (canonical_lt m2 e2 m1 e1 B2 B1 ltac:(left; lia)). lia.
Qed.

Lemma canonical_lt_iff m1 e1 m2 e2 :
  bounded prec emax m1 e1 = true -> bounded prec emax m2 e2 = true ->
  (e1 < e2 \/ (e1 = e2 /\ Zpos m1 < Zpos m2))
  <-> Zpos m1 * 2 ^ (e1 + 1074) < Zpos m2 * 2 ^ (e2 + 1074).
Proof.
  intros B1 B2. split; [apply canonical_lt; assumption|].
  intros H.
  destruct (Z.lt_trichotomy e1 e2) as [L|[E|G]]; [left; exact L| |exfalso].
  - right. split; [exact E|]. subst e2.
    destruct (Z_lt_ge_dec (Zpos m1) (Zpos m2)) as [|G]; [assumption|exfalso].
    pose proof (proj1 (canonical_le_iff m2 e1 m1 e1 B2 B1)
                  ltac:(right; split; [reflexivity|lia])).
    lia.
  - pose proof (canonical_lt m2 e2 m1 e1 B2 B1 ltac:(left; lia)). lia.
Qed.

Lemma scaled_nonneg x : 0 <= scaled x.
Proof.
  destruct x as [| | |[] m e]; cbn [scaled]; lia.
Qed.

Lemma scaled_pos m e : bounded prec emax m e = true -> 0 < scaled (S754_finite false m e).
Proof.
  intros B. destruct (bounded_canonical _ _ B) as (_ & _ & L & _).
  cbn [scaled]. assert (P : 0 < 2 ^ (e + 1074)) by (apply Z.pow_pos_nonneg; lia).
  apply Z.mul_pos_pos; lia.
Qed.

(** On zeros and positive finite floats the comparisons are those of
    the values. *)
Lemma SFleb_scaled x y :
  nnf x -> nnf y -> (SFleb x y = true <-> scaled x <= scaled y).
Proof.
  destruct x as [sx|sx| |[] mx ex], y as [sy|sy| |[] my ey]; cbn [nnf scaled];
    intros Bx By; try contradiction.
  - split; [lia|reflexivity].
  - pose proof (scaled_pos my ey By) as P. cbn [scaled] in P.
    unfold SFleb. cbn [SFcompare]. split; [lia|reflexivity].
  - pose proof (scaled_pos mx ex Bx) as P. cbn [scaled] in P.
    unfold SFleb. cbn [SFcompare]. split; [discriminate|lia].
  - rewrite <- (canonical_le_iff mx ex my ey Bx By).
    unfold SFleb, SFcompare.
    change (PosDef.Pos.compare_cont Eq mx my) with (Pos.compare mx my).
    destruct (Z.compare_spec ex ey); [destruct (Pos.compare_spec mx my)| |];
      split; intros; try reflexivity; try discriminate; lia.
Qed.

Lemma SFltb_scaled x y :
  nnf x -> nnf y -> (SFltb x y = true <-> scaled x < scaled y).
Proof.
  destruct x as [sx|sx| |[] mx ex], y as [sy|sy| |[] my ey]; cbn [nnf scaled];
    intros Bx By; try contradiction.
  - split; [discriminate|lia].
  - pose proof (scaled_pos my ey By) as P. cbn [scaled] in P.
    unfold SFltb. cbn [SFcompare]. split; [lia|reflexivity].
  - pose proof (scaled_pos mx ex Bx) as P. cbn [scaled] in P.
    unfold SFltb. cbn [SFcompare]. split; [discriminate|lia].
  - rewrite <- (canonical_lt_iff mx ex my ey Bx By).
    unfold SFltb, SFcompare.
    change (PosDef.Pos.compare_cont Eq mx my) with (Pos.compare mx my).
    destruct (Z.compare_spec ex ey); [destruct (Pos.compare_spec mx my)| |];
      split; intros; try reflexivity; try discriminate; lia.
Qed.

End Values.

(** *** Alignment and rounding of an exact value *)

Section Operations.

Local Open Scope Z_scope.

Lemma mantissa_lt_2p53 m e :
  bounded prec emax m e = true -> Zpos m < 9007199254740992.
Proof.
  intros B. destruct (bounded_canonical _ _ B) as (_ & _ & _ & D & _).
  pose proof (digits2_pos_bounds m) as [_ U]. fold (Zdigits2 (Zpos m)) in U.
  assert (2 ^ Zdigits2 (Zpos m) <= 2 ^ 53) by (apply Z.pow_le_mono_r; lia).
  change (2 ^ 53) with 9007199254740992 in *. lia.
Qed.

Lemma binary_round_aux_le2 s m e l mc ec :
  0 <= m -> e <= fexp prec emax (Zdigits2 m + e) ->
  bounded prec emax mc ec = true ->
  (e <= ec -> m <= Zpos mc * 2 ^ (ec - e)
              /\ (l <> loc_Exact -> m < Zpos mc * 2 ^ (ec - e))) ->
  (ec < e -> m * 2 ^ (e - ec) <= Zpos mc) ->
  below s (binary_round_aux prec emax s m e l) mc ec.
Proof.
  intros Hm He B H1 H2.
  destruct (bounded_canonical _ _ B) as (C1 & C2 & C3 & _).
  destruct (Z_le_gt_dec e ec) as [Hle|Hgt].
  - destruct (H1 Hle) as [Hb Hs].
    apply binary_round_aux_le; assumption.
  - exfalso. specialize (H2 ltac:(lia)).
    rewrite fexp_eq in He.
    assert (Hd : 53 <= Zdigits2 m) by lia.
    assert (Hm0 : 0 < m) by (destruct m; simpl in *; lia).
    pose proof (Zdigits2_bounds m Hm0) as [L _].
    assert (2 ^ 52 <= 2 ^ (Zdigits2 m - 1)) by (apply Z.pow_le_mono_r; lia).
    change (2 ^ 52) with 4503599627370496 in *.
    assert (2 ^ 1 <= 2 ^ (e - ec)) by (apply Z.pow_le_mono_r; lia).
    change (2 ^ 1) with 2 in *.
    pose proof (mantissa_lt_2p53 mc ec B). nia.
Qed.

Lemma iter_xO m d : Zpos (Pos.iter xO m d) = Zpos m * 2 ^ Zpos d.
Proof.
  induction d as [|d IH] using Pos.peano_ind.
  - simpl. lia.
  - rewrite Pos.iter_succ, Pos2Z.inj_xO, IH, Pos2Z.inj_succ, Z.pow_succ_r by lia. ring.
Qed.

Lemma shl_align_spec m e e' :
  snd (shl_align m e e') = Z.min e e'
  /\ Zpos (fst (shl_align m e e')) = Zpos m * 2 ^ (e - Z.min e e').
Proof.
  unfold shl_align. destruct (e' - e) as [|p|p] eqn:E; cbn [fst snd].
  - replace (Z.min e e') with e by lia. rewrite Z.sub_diag. simpl. lia.
  - replace (Z.min e e') with e by lia. rewrite Z.sub_diag. simpl. lia.
  - replace (Z.min e e') with e' by lia. rewrite iter_xO.
    replace (e - e') with (Zpos p) by lia. split; reflexivity.
Qed.

Lemma Zdigits2_mul_pow2 m k :
  0 < m -> 0 <= k -> Zdigits2 (m * 2 ^ k) = Zdigits2 m + k.
Proof.
  intros Hm Hk. pose proof (Zdigits2_bounds m Hm) as [L U].
  pose proof (Zdigits2_pos m Hm) as P.
  assert (Q : 0 < 2 ^ k) by (apply Z.pow_pos_nonneg; lia).
  apply Zdigits2_unique; [lia|]. split.
  - replace (Zdigits2 m + k - 1) with (Zdigits2 m - 1 + k) by lia.
    rewrite Z.pow_add_r by lia. nia.
  - rewrite Z.pow_add_r by lia. nia.
Qed.

(** [binary_round]: alignment, then rounding of an exact value. *)
Lemma binary_round_shape s m e :
  exists m' e',
    binary_round prec emax s m e = binary_round_aux prec emax s (Zpos m') e' loc_Exact
    /\ e' = Z.min e (fexp prec emax (Zdigits2 (Zpos m) + e))
    /\ Zpos m' = Zpos m * 2 ^ (e - e')
    /\ e' <= fexp prec emax (Zdigits2 (Zpos m') + e').
Proof.
  unfold binary_round.
  change (Zpos (digits2_pos m)) with (Zdigits2 (Zpos m)).
  set (f := fexp prec emax (Zdigits2 (Zpos m) + e)).
  destruct (shl_align_spec m e f) as [S1 S2].
  destruct (shl_align m e f) as [mz ez]. cbn [fst snd] in S1, S2.
  subst ez. exists mz, (Z.min e f). split; [reflexivity|].
  split; [reflexivity|]. split; [exact S2|].
  rewrite S2, Zdigits2_mul_pow2 by lia.
  replace (Zdigits2 (Zpos m) + (e - Z.min e f) + Z.min e f)
    with (Zdigits2 (Zpos m) + e) by lia.
  fold f. lia.
Qed.

Lemma binary_round_le s m e mc ec :
  -1074 <= e ->
  bounded prec emax mc ec = true ->
  Zpos m * 2 ^ (e + 1074) <= Zpos mc * 2 ^ (ec + 1074) ->
  below s (binary_round prec emax s m e) mc ec.
Proof.
  intros He B H.
  destruct (bounded_canonical _ _ B) as (C1 & C2 & C3 & _).
  destruct (binary_round_shape s m e) as (m' & e' & -> & E' & M' & P').
  assert (L' : -1074 <= e' <= e) by (rewrite E', fexp_eq; lia).
  apply binary_round_aux_le2; try assumption; try lia.
  - intros Hle. split; [|intros N; exfalso; apply N; reflexivity].
    rewrite M'.
    apply (pow_cancel_le _ _ (e - e') (ec - e') (e' + 1074)); try lia.
    replace (e - e' + (e' + 1074)) with (e + 1074) by lia.
    replace (ec - e' + (e' + 1074)) with (ec + 1074) by lia.
    exact H.
  - intros Hgt. rewrite M', <- Z.mul_assoc, <- Z.pow_add_r by lia.
    replace (Zpos mc) with (Zpos mc * 2 ^ 0) by (rewrite Z.pow_0_r; lia).
    apply (pow_cancel_le _ _ _ 0 (ec + 1074)); try lia.
    replace (e - e' + (e' - ec) + (ec + 1074)) with (e + 1074) by lia.
    replace (0 + (ec + 1074)) with (ec + 1074) by lia.
    exact H.
Qed.

End Operations.

(** *** The operations on zeros and positive finite floats *)

Section SpecOperations.

Local Open Scope Z_scope.

Lemma below_nnf R mc ec :
  below false R mc ec -> valid_binary R = true ->
  bounded prec emax mc ec = true ->
  nnf R /\ scaled R <= Zpos mc * 2 ^ (ec + 1074).
Proof.
  intros [->|(m & e & -> & H)] Hv B.
  - split; [exact I|]. cbn [scaled].
    destruct (bounded_canonical _ _ B) as (_ & _ & L & _).
    pose proof (Z.pow_nonneg 2 (ec + 1074) ltac:(lia)). nia.
  - split; [exact Hv|]. cbn [scaled].
    apply (canonical_le_iff m e mc ec Hv B). exact H.
Qed.

Lemma binary_round_valid s m e :
  valid_binary (binary_round prec emax s m e) = true.
Proof.
  destruct (binary_round_shape s m e) as (m' & e' & -> & _ & _ & P').
  apply binary_round_aux_valid; [lia|exact P'].
Qed.

(** *** Addition and subtraction *)

Lemma aligned_sum mx ex my ey :
  -1074 <= ex -> -1074 <= ey ->
  let ez := Z.min ex ey in
  Zpos (fst (shl_align mx ex ez)) * 2 ^ (ez + 1074) = Zpos mx * 2 ^ (ex + 1074)
  /\ Zpos (fst (shl_align my ey ez)) * 2 ^ (ez + 1074) = Zpos my * 2 ^ (ey + 1074).
Proof.
  intros Hx Hy ez.
  destruct (shl_align_spec mx ex ez) as [_ ->].
  destruct (shl_align_spec my ey ez) as [_ ->].
  replace (Z.min ex ez) with ez by (unfold ez; lia).
  replace (Z.min ey ez) with ez by (unfold ez; lia).
  rewrite <- !Z.mul_assoc, <- !Z.pow_add_r by (unfold ez; lia).
  split; do 2 f_equal; lia.
Qed.

Lemma SFadd_le x y mc ec :
  nnf x -> nnf y -> bounded prec emax mc ec = true ->
  scaled x + scaled y <= Zpos mc * 2 ^ (ec + 1074) ->
  nnf (SFadd prec emax x y)
  /\ scaled (SFadd prec emax x y) <= Zpos mc * 2 ^ (ec + 1074).
Proof.
  intros Nx Ny B H.
  pose proof (scaled_nonneg x) as Px. pose proof (scaled_nonneg y) as Py.
  destruct x as [sx|sx| |[] mx ex], y as [sy|sy| |[] my ey];
    cbn [nnf] in Nx, Ny; try contradiction.
  - destruct sx, sy; cbn [SFadd]; split; try exact I; cbn [scaled] in *; lia.
  - cbn [SFadd]. split; [exact Ny|]. cbn [scaled] in *. lia.
  - cbn [SFadd]. split; [exact Nx|]. cbn [scaled] in *. lia.
  - destruct (bounded_canonical _ _ Nx) as (_ & _ & Lx & _).
    destruct (bounded_canonical _ _ Ny) as (_ & _ & Ly & _).
    cbn [SFadd cond_Zopp].
    destruct (aligned_sum mx ex my ey Lx Ly) as [Ax Ay].
    set (ez := Z.min ex ey) in *.
    set (px := fst (shl_align mx ex ez)) in *.
    set (py := fst (shl_align my ey ez)) in *.
    change (Zpos px + Zpos py) with (Zpos (px + py)).
    cbn [binary_normalize].
    apply below_nnf; [|apply binary_round_valid|exact B].
    apply binary_round_le; [unfold ez; lia|exact B|].
    rewrite Pos2Z.inj_add, Z.mul_add_distr_r, Ax, Ay.
    cbn [scaled] in H. exact H.
Qed.

Lemma SFsub_le x y mc ec :
  nnf x -> nnf y -> bounded prec emax mc ec = true ->
  scaled y <= scaled x ->
  scaled x - scaled y <= Zpos mc * 2 ^ (ec + 1074) ->
  nnf (SFsub prec emax x y)
  /\ scaled (SFsub prec emax x y) <= Zpos mc * 2 ^ (ec + 1074).
Proof.
  intros Nx Ny B Hyx H.
  pose proof (scaled_nonneg x) as Px. pose proof (scaled_nonneg y) as Py.
  assert (Pc : 0 <= Zpos mc * 2 ^ (ec + 1074)).
  { destruct (bounded_canonical _ _ B) as (_ & _ & L & _).
    pose proof (Z.pow_nonneg 2 (ec + 1074) ltac:(lia)). nia. }
  destruct x as [sx|sx| |[] mx ex], y as [sy|sy| |[] my ey];
    cbn [nnf] in Nx, Ny; try contradiction.
  - destruct sx, sy; cbn [SFsub]; split; try exact I; cbn [scaled] in *; lia.
  - exfalso. pose proof (scaled_pos my ey Ny). cbn [scaled] in *. lia.
  - cbn [SFsub]. split; [exact Nx|]. cbn [scaled] in *. lia.
  - destruct (bounded_canonical _ _ Nx) as (_ & _ & Lx & _).
    destruct (bounded_canonical _ _ Ny) as (_ & _ & Ly & _).
    cbn [SFsub cond_Zopp].
    destruct (aligned_sum mx ex my ey Lx Ly) as [Ax Ay].
    set (ez := Z.min ex ey) in *.
    set (px := fst (shl_align mx ex ez)) in *.
    set (py := fst (shl_align my ey ez)) in *.
    cbn [scaled] in H, Hyx. rewrite <- Ax, <- Ay in H, Hyx.
    assert (Pz : 0 < 2 ^ (ez + 1074)) by (apply Z.pow_pos_nonneg; unfold ez; lia).
    destruct (Zpos px - Zpos py) as [|p|p] eqn:E; cbn [binary_normalize].
    + split; [exact I|]. cbn [scaled]. exact Pc.
    + apply below_nnf; [|apply binary_round_valid|exact B].
      apply binary_round_le; [unfold ez; lia|exact B|].
      rewrite <- E, Z.mul_sub_distr_r. exact H.
    + exfalso. assert (Zpos px < Zpos py) by lia. nia.
Qed.

(** *** Multiplication *)

Lemma mul_precondition mx ex my ey :
  bounded prec emax mx ex = true -> bounded prec emax my ey = true ->
  ex + ey <= fexp prec emax (Zdigits2 (Zpos (mx * my)) + (ex + ey)).
Proof.
  intros Bx By.
  destruct (bounded_canonical _ _ Bx) as (_ & _ & Lx & _ & Nx).
  destruct (bounded_canonical _ _ By) as (_ & _ & Ly & _ & Ny).
  rewrite fexp_eq.
  assert (G : forall a b, Zdigits2 (Zpos a) = 53 -> 53 <= Zdigits2 (Zpos (a * b))).
  { intros a b Ha.
    pose proof (digits2_pos_bounds a) as [La _]. fold (Zdigits2 (Zpos a)) in La.
    rewrite Ha in La.
    pose proof (Zdigits2_ge (Zpos (a * b)) 52 ltac:(lia)) as G.
    rewrite Pos2Z.inj_mul in *. apply G. change (53 - 1) with 52 in La. nia. }
  destruct (Z_le_gt_dec ex (-1074)) as [Ex|Ex];
    destruct (Z_le_gt_dec ey (-1074)) as [Ey|Ey].
  - lia.
  - pose proof (G my mx (Ny ltac:(lia))) as D. rewrite Pos.mul_comm in D. lia.
  - pose proof (G mx my (Nx ltac:(lia))) as D. lia.
  - pose proof (digits2_pos_bounds mx) as [La _]. fold (Zdigits2 (Zpos mx)) in La.
    pose proof (digits2_pos_bounds my) as [Lb _]. fold (Zdigits2 (Zpos my)) in Lb.
    rewrite (Nx ltac:(lia)) in La. rewrite (Ny ltac:(lia)) in Lb.
    change (2 ^ (53 - 1)) with 4503599627370496 in *.
    pose proof (Zdigits2_ge (Zpos (mx * my)) 104 ltac:(lia)) as G'.
    rewrite Pos2Z.inj_mul in *.
    change (2 ^ 104) with (4503599627370496 * 4503599627370496) in G'.
    assert (104 + 1 <= Zdigits2 (Zpos mx * Zpos my)) by (apply G'; nia).
    lia.
Qed.

Lemma SFmul_le x y mc ec :
  nnf x -> nnf y -> bounded prec emax mc ec = true ->
  scaled x * scaled y <= Zpos mc * 2 ^ (ec + 1074) * 2 ^ 1074 ->
  nnf (SFmul prec emax x y)
  /\ scaled (SFmul prec emax x y) <= Zpos mc * 2 ^ (ec + 1074).
Proof.
  intros Nx Ny B H.
  assert (Pc : 0 <= Zpos mc * 2 ^ (ec + 1074)).
  { destruct (bounded_canonical _ _ B) as (_ & _ & L & _).
    pose proof (Z.pow_nonneg 2 (ec + 1074) ltac:(lia)). nia. }
  destruct x as [sx|sx| |[] mx ex], y as [sy|sy| |[] my ey];
    cbn [nnf] in Nx, Ny; try contradiction;
    try (cbn [SFmul]; split; [exact I|exact Pc]).
  destruct (bounded_canonical _ _ Nx) as (_ & _ & Lx & _).
  destruct (bounded_canonical _ _ Ny) as (_ & _ & Ly & _).
  destruct (bounded_canonical _ _ B) as (_ & _ & Lc & _).
  cbn [SFmul xorb]. cbn [scaled] in H.
  pose proof (mul_precondition mx ex my ey Nx Ny) as Pre.
  assert (H' : Zpos (mx * my) * 2 ^ (ex + ey + 2148) <= Zpos mc * 2 ^ (ec + 2148)).
  { assert (E1 : 2 ^ (ex + ey + 2148) = 2 ^ (ex + 1074) * 2 ^ (ey + 1074)).
    { rewrite <- Z.pow_add_r by lia. f_equal. lia. }
    assert (E2 : 2 ^ (ec + 2148) = 2 ^ (ec + 1074) * 2 ^ 1074).
    { rewrite <- Z.pow_add_r by lia. f_equal. lia. }
    rewrite E1, E2, Pos2Z.inj_mul.
    replace (Zpos mx * Zpos my * (2 ^ (ex + 1074) * 2 ^ (ey + 1074)))
      with (Zpos mx * 2 ^ (ex + 1074) * (Zpos my * 2 ^ (ey + 1074))) by ring.
    replace (Zpos mc * (2 ^ (ec + 1074) * 2 ^ 1074))
      with (Zpos mc * 2 ^ (ec + 1074) * 2 ^ 1074) by ring.
    exact H. }
  apply below_nnf; [|apply binary_round_aux_valid; [lia|exact Pre]|exact B].
  apply binary_round_aux_le2; [lia|exact Pre|exact B| |].
  - intros Hle. split; [|intros N; exfalso; apply N; reflexivity].
    replace (Zpos (mx * my)) with (Zpos (mx * my) * 2 ^ 0) by (rewrite Z.pow_0_r; lia).
    apply (pow_cancel_le _ _ 0 (ec - (ex + ey)) (ex + ey + 2148)); try lia.
    replace (0 + (ex + ey + 2148)) with (ex + ey + 2148) by lia.
    replace (ec - (ex + ey) + (ex + ey + 2148)) with (ec + 2148) by lia.
    exact H'.
  - intros Hgt.
    replace (Zpos mc) with (Zpos mc * 2 ^ 0) by (rewrite Z.pow_0_r; lia).
    apply (pow_cancel_le _ _ (ex + ey - ec) 0 (ec + 2148)); try lia.
    replace (ex + ey - ec + (ec + 2148)) with (ex + ey + 2148) by lia.
    replace (0 + (ec + 2148)) with (ec + 2148) by lia.
    exact H'.
Qed.

End SpecOperations.

(** *** Division, for any two positive finite operands *)

Section Division.

Local Open Scope Z_scope.

Lemma SFdiv_core_general (mx my : positive) (ex ey : Z) :
  exists q r e',
    SFdiv_core_binary prec emax (Zpos mx) ex (Zpos my) ey
    = (q, e', new_location (Zpos my) r)
    /\ e' = Z.min (fexp prec emax (Zdigits2 (Zpos mx) + ex - (Zdigits2 (Zpos my) + ey)))
                  (ex - ey)
    /\ Zpos mx * 2 ^ (ex - ey - e') = Zpos my * q + r
    /\ 0 <= r < Zpos my
    /\ 0 <= q
    /\ e' <= fexp prec emax (Zdigits2 q + e').
Proof.
  unfold SFdiv_core_binary.
  set (d1 := Zdigits2 (Zpos mx)). set (d2 := Zdigits2 (Zpos my)).
  set (e' := Z.min (fexp prec emax (d1 + ex - (d2 + ey))) (ex - ey)).
  assert (Hs : 0 <= ex - ey - e') by (unfold e'; lia).
  set (m' := match ex - ey - e' with
             | Z.pos _ => Z.shiftl (Zpos mx) (ex - ey - e')
             | 0 => Zpos mx
             | Z.neg _ => 0
             end).
  assert (Hm' : m' = Zpos mx * 2 ^ (ex - ey - e')).
  { unfold m'. destruct (ex - ey - e') as [|p|p] eqn:E; [rewrite Z.pow_0_r; lia| |lia].
    rewrite Z.shiftl_mul_pow2 by lia. reflexivity. }
  pose proof (Z_div_mod m' (Zpos my) ltac:(lia)) as Hdm.
  destruct (Z.div_eucl m' (Zpos my)) as [q r]. destruct Hdm as [Hq Hr].
  exists q, r, e'.
  assert (Pn : 0 < 2 ^ (ex - ey - e')) by (apply Z.pow_pos_nonneg; lia).
  assert (Hq0 : 0 <= q) by nia.
  repeat split; try lia.
  destruct (Z_le_gt_dec e' (-1074)) as [E|E]; [rewrite fexp_eq; lia|].
  pose proof (digits2_pos_bounds mx) as [N1 N2]. fold (Zdigits2 (Zpos mx)) in N1, N2. fold d1 in N1, N2.
  pose proof (digits2_pos_bounds my) as [D1 D2]. fold (Zdigits2 (Zpos my)) in D1, D2. fold d2 in D1, D2.
  assert (Hd1 : 0 < d1) by (unfold d1; simpl; lia).
  assert (Hd2 : 0 < d2) by (unfold d2; simpl; lia).
  set (t := d1 - 1 + (ex - ey - e') - d2).
  assert (Ht : 52 <= t).
  { unfold t, e' in *. rewrite fexp_eq in *. lia. }
  assert (Hlow : 2 ^ t <= q).
  { destruct (Z_le_gt_dec (2 ^ t) q) as [|Hgt]; [assumption|exfalso].
    assert (Hp : 2 ^ (d1 - 1) * 2 ^ (ex - ey - e') = 2 ^ t * 2 ^ d2).
    { rewrite <- !Z.pow_add_r by lia. f_equal. unfold t. lia. }
    assert (0 < 2 ^ t) by (apply Z.pow_pos_nonneg; lia).
    nia. }
  pose proof (Zdigits2_ge q t ltac:(lia) Hlow) as Hdq.
  unfold t, e' in *. rewrite !fexp_eq in *. lia.
Qed.

Lemma SFdiv_general_valid s mx ex my ey :
  valid_binary (SFdiv prec emax (S754_finite s mx ex) (S754_finite false my ey)) = true.
Proof.
  cbn [SFdiv].
  destruct (SFdiv_core_general mx my ex ey) as (q & r & e' & -> & _ & _ & _ & Hq & He).
  apply binary_round_aux_valid; assumption.
Qed.

Lemma SFdiv_le mx ex my ey mc ec B :
  bounded prec emax mc ec = true ->
  0 <= ex + B -> 1074 <= ey + B -> 0 <= ec + ey + B ->
  Zpos mx * 2 ^ (ex + B) <= Zpos mc * Zpos my * 2 ^ (ec + ey + B) ->
  nnf (SFdiv prec emax (S754_finite false mx ex) (S754_finite false my ey))
  /\ scaled (SFdiv prec emax (S754_finite false mx ex) (S754_finite false my ey))
     <= Zpos mc * 2 ^ (ec + 1074).
Proof.
  intros Bc B1 B2 B3 H.
  apply below_nnf; [|apply SFdiv_general_valid|exact Bc].
  cbn [SFdiv].
  destruct (SFdiv_core_general mx my ex ey) as (q & r & e' & -> & He' & Hdiv & Hr & Hq & He).
  cbn [xorb].
  destruct (bounded_canonical _ _ Bc) as (_ & _ & Lc & _).
  assert (Le' : 0 <= ey + e' + B) by (rewrite He', fexp_eq; lia).
  assert (Hs : 0 <= ex - ey - e') by (rewrite He'; lia).
  apply binary_round_aux_le2; [exact Hq|exact He|exact Bc| |].
  - intros Hle.
    assert (G : Zpos mx * 2 ^ (ex - ey - e') <= Zpos mc * Zpos my * 2 ^ (ec - e')).
    { apply (pow_cancel_le _ _ _ _ (ey + e' + B)); try lia.
      replace (ex - ey - e' + (ey + e' + B)) with (ex + B) by lia.
      replace (ec - e' + (ey + e' + B)) with (ec + ey + B) by lia.
      exact H. }
    rewrite Hdiv in G.
    assert (P : 0 < 2 ^ (ec - e')) by (apply Z.pow_pos_nonneg; lia).
    split; [nia|].
    intros Hl.
    assert (r <> 0) by (intros ->; apply Hl, new_location_exact).
    nia.
  - intros Hgt.
    assert (G : Zpos mx * 2 ^ (ex - ey - e' + (e' - ec)) <= Zpos mc * Zpos my * 2 ^ 0).
    { apply (pow_cancel_le _ _ _ _ (ey + ec + B)); try lia.
      replace (ex - ey - e' + (e' - ec) + (ey + ec + B)) with (ex + B) by lia.
      replace (0 + (ey + ec + B)) with (ec + ey + B) by lia.
      exact H. }
    rewrite Z.pow_0_r, Z.pow_add_r, Z.mul_assoc, Hdiv in G by lia.
    assert (P : 0 < 2 ^ (e' - ec)) by (apply Z.pow_pos_nonneg; lia).
    nia.
Qed.

End Division.

(** *** The same on primitive floats *)

Section PrimBounds.

Local Open Scope Z_scope.

Lemma V_nonneg x : 0 <= V x.
Proof. apply scaled_nonneg. Qed.

Lemma leb_V x y : NNF x -> NNF y -> ((x <=? y)%float = true <-> V x <= V y).
Proof. intros Nx Ny. rewrite leb_spec. apply SFleb_scaled; assumption. Qed.

Lemma ltb_V x y : NNF x -> NNF y -> ((x <? y)%float = true <-> V x < V y).
Proof. intros Nx Ny. rewrite ltb_spec. apply SFltb_scaled; assumption. Qed.

Lemma NNF_finite x :
  NNF x -> 0 < V x ->
  exists m e, Prim2SF x = S754_finite false m e /\ bounded prec emax m e = true.
Proof.
  unfold NNF, V. destruct (Prim2SF x) as [s|s| |[] m e]; cbn [nnf scaled];
    intros N P; try contradiction; try lia.
  exists m, e. split; [reflexivity|exact N].
Qed.

(** A float strictly between two zeros-or-positive-finite floats is
    positive and finite. *)
Lemma NNF_between lo x hi :
  NNF lo -> NNF hi -> (lo <? x)%float = true -> (x <? hi)%float = true ->
  NNF x /\ V lo < V x < V hi.
Proof.
  intros Nlo Nhi H1 H2.
  assert (Nx : NNF x).
  { unfold NNF in *. rewrite ltb_spec in H1, H2.
    pose proof (Prim2SF_valid x) as Hv.
    destruct (Prim2SF x) as [s|[]| |[] m e]; cbn [nnf]; try exact I; try exact Hv;
      destruct (Prim2SF lo) as [?|[]| |[] ? ?]; try contradiction;
      destruct (Prim2SF hi) as [?|[]| |[] ? ?]; try contradiction;
      cbv [SFltb SFcompare] in H1, H2; discriminate. }
  split; [exact Nx|].
  apply (ltb_V lo x Nlo Nx) in H1. apply (ltb_V x hi Nx Nhi) in H2. lia.
Qed.

Lemma NNF_result x :
  (exists s, Prim2SF x = S754_zero s)
  \/ (exists m e, Prim2SF x = S754_finite false m e) ->
  NNF x.
Proof.
  unfold NNF. pose proof (Prim2SF_valid x) as Hv.
  intros [[s E]|(m & e & E)]; rewrite E in *; [exact I|exact Hv].
Qed.

Lemma add_le x y c :
  NNF x -> NNF y -> NNF c -> 0 < V c -> V x + V y <= V c ->
  NNF (x + y) /\ V (x + y) <= V c.
Proof.
  intros Nx Ny Nc Pc H.
  destruct (NNF_finite c Nc Pc) as (mc & ec & Ec & Bc).
  unfold NNF, V in *. rewrite add_spec. rewrite Ec in *. cbn [scaled] in H |- *.
  apply SFadd_le; assumption.
Qed.

Lemma sub_le x y c :
  NNF x -> NNF y -> NNF c -> 0 < V c -> V y <= V x -> V x - V y <= V c ->
  NNF (x - y) /\ V (x - y) <= V c.
Proof.
  intros Nx Ny Nc Pc Hyx H.
  destruct (NNF_finite c Nc Pc) as (mc & ec & Ec & Bc).
  unfold NNF, V in *. rewrite sub_spec. rewrite Ec in *. cbn [scaled] in H |- *.
  apply SFsub_le; assumption.
Qed.

Lemma Prim2SF_1 : Prim2SF 1 = S754_finite false 4503599627370496 (-52).
Proof. vm_compute. reflexivity. Qed.

Lemma bounded_1 : bounded prec emax 4503599627370496 (-52) = true.
Proof. vm_compute. reflexivity. Qed.

Lemma V_1 : V 1 = 2 ^ 1074.
Proof.
  unfold V. rewrite Prim2SF_1. cbn [scaled].
  change 4503599627370496 with (2 ^ 52). rewrite <- Z.pow_add_r by lia.
  reflexivity.
Qed.

Lemma NNF_1 : NNF 1.
Proof. unfold NNF. rewrite Prim2SF_1. exact bounded_1. Qed.

Lemma NNF_0 : NNF 0.
Proof. exact I. Qed.

Lemma V_0 : V 0 = 0.
Proof. reflexivity. Qed.

(** Multiplying by a factor of at most 1 does not increase. *)
Lemma mul_le_left x y :
  NNF x -> 0 < V x -> NNF y -> V y <= V 1 ->
  NNF (x * y) /\ V (x * y) <= V x.
Proof.
  intros Nx Px Ny Hy.
  destruct (NNF_finite x Nx Px) as (mx & ex & Ex & Bx).
  rewrite V_1 in Hy.
  unfold NNF, V in *. rewrite mul_spec. rewrite Ex in *. cbn [scaled] in Px |- *.
  apply SFmul_le; [exact Bx|exact Ny|exact Bx|].
  cbn [scaled]. apply Z.mul_le_mono_nonneg_l; [lia|exact Hy].
Qed.

(** A quotient of [x <= y] is at most 1. *)
Lemma div_le_one x y :
  NNF x -> NNF y -> 0 < V y -> V x <= V y ->
  NNF (x / y) /\ V (x / y) <= V 1.
Proof.
  intros Nx Ny Py H.
  destruct (NNF_finite y Ny Py) as (my & ey & Ey & By).
  destruct (bounded_canonical _ _ By) as (_ & _ & Ly & _).
  unfold NNF, V in *. rewrite div_spec, Prim2SF_1. rewrite Ey in *.
  destruct (Prim2SF x) as [s|s| |[] mx ex]; cbn [nnf] in Nx; try contradiction.
  - cbn [SF64div SFdiv]. split; [exact I|]. cbn [scaled].
    apply Z.mul_nonneg_nonneg; [lia|apply Z.pow_nonneg; lia].
  - destruct (bounded_canonical _ _ Nx) as (_ & _ & Lx & _).
    apply (SFdiv_le mx ex my ey 4503599627370496 (-52) 2148);
      [exact bounded_1|lia|lia|lia|].
    cbn [scaled] in H.
    apply (pow_expand_le _ _ _ _ 1074) in H; try lia.
    replace (ex + 1074 + 1074) with (ex + 2148) in H by lia.
    replace (ey + 1074 + 1074) with (ey + 2148) in H by lia.
    assert (E : 2 ^ (ey + 2148) = 4503599627370496 * 2 ^ (-52 + ey + 2148)).
    { change 4503599627370496 with (2 ^ 52). rewrite <- Z.pow_add_r by lia.
      f_equal. lia. }
    rewrite E in H.
    replace (4503599627370496 * Zpos my * 2 ^ (-52 + ey + 2148))
      with (Zpos my * (4503599627370496 * 2 ^ (-52 + ey + 2148))) by ring.
    exact H.
Qed.

Lemma round_half_even_le num den K :
  0 < den -> num <= K * den -> Py.round_half_even num den <= K.
Proof.
  intros Hd H. unfold Py.round_half_even.
  pose proof (Z.div_mod num den ltac:(lia)) as E.
  pose proof (Z.mod_pos_bound num den Hd) as R.
  assert (Q : num / den <= K) by (apply Z.div_le_upper_bound; lia).
  destruct (Z.eq_dec (num / den) K) as [Eq|Ne].
  - assert (R0 : num mod den = 0) by nia.
    rewrite R0. destruct (2 * 0 ?= den) eqn:C.
    + apply Z.compare_eq in C. lia.
    + lia.
    + apply Z.compare_gt_iff in C. lia.
  - destruct (2 * (num mod den) ?= den); [destruct (Z.even _)| |]; lia.
Qed.

Lemma round_le x c K :
  NNF x -> NNF c -> 0 < V c ->
  V x * 1000 <= K * V 1 -> K * V 1 <= V c * 1000 ->
  NNF (Py.round x 3) /\ V (Py.round x 3) <= V c.
Proof.
  intros Nx Nc Pc H1 H2. rewrite V_1 in H1, H2.
  destruct (NNF_finite c Nc Pc) as (mc & ec & Ec & Bc).
  destruct (bounded_canonical _ _ Bc) as (_ & _ & Lc & _).
  unfold Py.round.
  change (10 ^ Z.of_nat 3) with 1000. change (Z.to_pos 1000) with 1000%positive.
  unfold NNF, V in Nx, H1.
  destruct (Prim2SF x) as [s|s| |[] m e] eqn:Ex; cbn [nnf] in Nx; try contradiction.
  - split; [unfold NNF; rewrite Ex; exact I|].
    unfold V at 1. rewrite Ex. cbn [scaled]. lia.
  - destruct (bounded_canonical _ _ Nx) as (_ & _ & Le & _).
    cbn [scaled] in H1.
    set (n := Py.round_half_even (Zpos m * 1000 * 2 ^ Z.max e 0) (2 ^ Z.max (- e) 0)).
    assert (Hn : n <= K).
    { apply round_half_even_le; [apply Z.pow_pos_nonneg; lia|].
      apply (pow_cancel_le _ _ _ _ (1074 - Z.max (- e) 0)); try lia.
      replace (Z.max e 0 + (1074 - Z.max (- e) 0)) with (e + 1074) by lia.
      replace (Z.max (- e) 0 + (1074 - Z.max (- e) 0)) with 1074 by lia.
      replace (Zpos m * 1000 * 2 ^ (e + 1074)) with (Zpos m * 2 ^ (e + 1074) * 1000) by ring.
      exact H1. }
    destruct n as [|k|k].
    + split; [exact I|]. change (V zero) with 0. lia.
    + unfold NNF, V. rewrite Ec.
      rewrite Prim2SF_SF2Prim by apply SFdiv_general_valid.
      apply (SFdiv_le k 0 1000 0 mc ec 1074); [exact Bc|lia|lia|lia|].
      unfold V in H2. rewrite Ec in H2. cbn [scaled] in H2.
      replace (0 + 1074) with 1074 by lia. replace (ec + 0 + 1074) with (ec + 1074) by lia.
      assert (P : 0 < 2 ^ 1074) by (apply Z.pow_pos_nonneg; lia).
      apply Z.le_trans with (K * 2 ^ 1074); [nia|].
      replace (Zpos mc * 1000 * 2 ^ (ec + 1074)) with (Zpos mc * 2 ^ (ec + 1074) * 1000) by ring.
      exact H2.
    + split; [exact I|]. change (V zero) with 0. lia.
Qed.

End PrimBounds.

(** ** The range of the score *)

Section ScoreRange.

Local Open Scope Z_scope.

(** the constants of the two curves and of the score *)
Lemma curve_constants :
  NNF 40 /\ NNF 160 /\ NNF 120 /\ NNF 4 /\ NNF 16 /\ NNF 12
  /\ 0 < V 120 /\ 0 < V 12
  /\ V 160 - V 40 = V 120 /\ V 16 - V 4 = V 12.
Proof. repeat split; vm_compute; reflexivity. Qed.

Lemma score_constants :
  NNF 0.7 /\ NNF 0.3 /\ 0 < V 0.7 /\ 0 < V 0.3 /\ 0 < V 1
  /\ V 0.7 + V 0.3 <= V 1.
Proof. repeat split; vm_compute; try reflexivity; discriminate. Qed.

Lemma score_component_blur_range b :
  is_nan b = false ->
  NNF (score_component_blur b) /\ V (score_component_blur b) <= V 1.
Proof.
  intros Hn. unfold score_component_blur, Py.geb.
  destruct curve_constants as (N40 & N160 & N120 & _ & _ & _ & P120 & _ & E & _).
  destruct (160 <=? b)%float eqn:E1; [split; [exact NNF_1|lia]|].
  destruct (b <=? 40)%float eqn:E2.
  { split; [exact NNF_0|]. rewrite V_0. apply V_nonneg. }
  assert (L : (40 <? b)%float = true).
  { rewrite ltb_negb_leb, E2; reflexivity || exact Hn. }
  assert (U : (b <? 160)%float = true).
  { rewrite ltb_negb_leb, E1; reflexivity || exact Hn. }
  destruct (NNF_between 40 b 160 N40 N160 L U) as (Nb & Lb & Ub).
  change (160 - 40)%float with 120%float.
  destruct (sub_le b 40 120 Nb N40 N120 P120 ltac:(lia) ltac:(lia)) as [Nt Ht].
  apply div_le_one; assumption.
Qed.

Lemma score_component_clip_range c :
  is_nan c = false ->
  NNF (score_component_clip c) /\ V (score_component_clip c) <= V 1.
Proof.
  intros Hn. unfold score_component_clip, Py.geb.
  destruct curve_constants as (_ & _ & _ & N4 & N16 & N12 & _ & P12 & _ & E).
  destruct score_constants as (_ & _ & _ & _ & P1 & _).
  destruct (c <=? 4)%float eqn:E1; [split; [exact NNF_1|lia]|].
  destruct (16 <=? c)%float eqn:E2.
  { split; [exact NNF_0|]. rewrite V_0. apply V_nonneg. }
  assert (L : (4 <? c)%float = true).
  { rewrite ltb_negb_leb, E1; reflexivity || exact Hn. }
  assert (U : (c <? 16)%float = true).
  { rewrite ltb_negb_leb, E2; reflexivity || exact Hn. }
  destruct (NNF_between 4 c 16 N4 N16 L U) as (Nc & Lc & Uc).
  change (16 - 4)%float with 12%float.
  destruct (sub_le c 4 12 Nc N4 N12 P12 ltac:(lia) ltac:(lia)) as [Nt Ht].
  destruct (div_le_one _ 12 Nt N12 P12 Ht) as [Nu Hu].
  pose proof (V_nonneg ((c - 4) / 12)).
  apply sub_le; try assumption; try exact NNF_1; lia.
Qed.

Local Open Scope string_scope.

Lemma band_constants :
  NNF 0.75 /\ NNF 0.55 /\ NNF 0.71875 /\ NNF 0.3125
  /\ 0 < V 0.71875 /\ 0 < V 0.3125
  /\ V 0.7 * 1000 <= 700 * V 1 /\ 700 * V 1 <= V 0.71875 * 1000
  /\ V 0.3 * 1000 <= 300 * V 1 /\ 300 * V 1 <= V 0.3125 * 1000
  /\ V 0.71875 < V 0.75 /\ V 0.3125 < V 0.55.
Proof. repeat split; vm_compute; try reflexivity; discriminate. Qed.

(** The score of two medians that are not NaN lies in [0, 1]. *)
Lemma score_range med_blur med_clip :
  is_nan med_blur = false -> is_nan med_clip = false ->
  let s := Py.round (0.7 * score_component_blur med_blur
                     + 0.3 * score_component_clip med_clip)%float 3 in
  (0 <=? s)%float = true /\ (s <=? 1)%float = true.
Proof.
  intros Hb Hc s.
  destruct (score_component_blur_range med_blur Hb) as [Nb Ub].
  destruct (score_component_clip_range med_clip Hc) as [Nc Uc].
  destruct score_constants as (N7 & N3 & P7 & P3 & P1 & S).
  destruct (mul_le_left 0.7 _ N7 P7 Nb Ub) as [Np1 Hp1].
  destruct (mul_le_left 0.3 _ N3 P3 Nc Uc) as [Np2 Hp2].
  destruct (add_le _ _ 1 Np1 Np2 NNF_1 P1 ltac:(lia)) as [Ns Hs].
  destruct (round_le _ 1 1000 Ns NNF_1 P1 ltac:(lia) ltac:(lia)) as [Nr Hr].
  fold s in Nr, Hr. split.
  - apply (leb_V 0 s NNF_0 Nr). rewrite V_0. apply V_nonneg.
  - apply (leb_V s 1 Nr NNF_1). exact Hr.
Qed.

(** With a median clip of 16 or more the lighting component is 0 and
    the score stays below 0.75. *)
Lemma score_heavy_clipping med_blur med_clip :
  is_nan med_blur = false -> Py.geb med_clip 16 = true ->
  let s := Py.round (0.7 * score_component_blur med_blur
                     + 0.3 * score_component_clip med_clip)%float 3 in
  (s <=? 0.71875)%float = true /\ Py.geb s 0.75 = false.
Proof.
  intros Hb Hc s.
  assert (Ec : score_component_clip med_clip = 0%float).
  { unfold score_component_clip. unfold Py.geb in Hc.
    rewrite (ltb_leb_trans_false 4 16 med_clip eq_refl Hc).
    unfold Py.geb. rewrite Hc. reflexivity. }
  destruct (score_component_blur_range med_blur Hb) as [Nb Ub].
  destruct score_constants as (N7 & N3 & P7 & P3 & P1 & S).
  destruct band_constants as (N75 & _ & Nk & _ & Pk & _ & K1 & K2 & _ & _ & K3 & _).
  destruct (mul_le_left 0.7 _ N7 P7 Nb Ub) as [Np1 Hp1].
  unfold s. rewrite Ec. change (0.3 * 0)%float with 0%float.
  destruct (add_le _ 0 0.7 Np1 NNF_0 N7 P7 ltac:(rewrite V_0; lia)) as [Ns Hs].
  destruct (round_le _ 0.71875 700 Ns Nk Pk ltac:(lia) K2) as [Nr Hr].
  split.
  - apply (leb_V _ _ Nr Nk). exact Hr.
  - unfold Py.geb.
    match goal with |- ?t = false => destruct t eqn:E end; [exfalso|reflexivity].
    apply (leb_V _ _ N75 Nr) in E. lia.
Qed.

(** With a median sharpness of 40 or less the sharpness component is 0
    and the score stays below 0.55. *)
Lemma score_low_sharpness med_blur med_clip :
  (med_blur <=? 40)%float = true -> is_nan med_clip = false ->
  let s := Py.round (0.7 * score_component_blur med_blur
                     + 0.3 * score_component_clip med_clip)%float 3 in
  (s <=? 0.3125)%float = true /\ banding s = "Low quality — retake".
Proof.
  intros Hb Hc s.
  assert (Eb : score_component_blur med_blur = 0%float).
  { unfold score_component_blur, Py.geb.
    rewrite (leb_ltb_trans_false med_blur 40 160 Hb eq_refl), Hb. reflexivity. }
  destruct (score_component_clip_range med_clip Hc) as [Nc Uc].
  destruct score_constants as (N7 & N3 & P7 & P3 & P1 & S).
  destruct band_constants as (N75 & N55 & _ & Nk & _ & Pk & _ & _ & K1 & K2 & _ & K3).
  destruct (mul_le_left 0.3 _ N3 P3 Nc Uc) as [Np2 Hp2].
  unfold s. rewrite Eb. change (0.7 * 0)%float with 0%float.
  destruct (add_le 0 _ 0.3 NNF_0 Np2 N3 P3 ltac:(rewrite V_0; lia)) as [Ns Hs].
  destruct (round_le _ 0.3125 300 Ns Nk Pk ltac:(lia) K2) as [Nr Hr].
  assert (L : (Py.round (0 + 0.3 * score_component_clip med_clip) 3 <? 0.55)%float = true).
  { apply (ltb_V _ _ Nr N55). lia. }
  split.
  - apply (leb_V _ _ Nr Nk). exact Hr.
  - unfold banding, Py.geb.
    rewrite (ltb_leb_trans_false _ 0.55 0.75 L eq_refl).
    rewrite (ltb_leb_false _ _ L). reflexivity.
Qed.

End ScoreRange.

(** *** Medians of metrics *)

Section Medians.

Local Open Scope string_scope.

Lemma SFleb_zero_cases x :
  SFleb (S754_zero false) x = true <->
  match x with
  | S754_zero _ | S754_finite false _ _ | S754_infinity false => True
  | _ => False
  end.
Proof. destruct x as [[]|[]| |[] m e]; cbv [SFleb SFcompare]; intuition discriminate. Qed.

Lemma binary_round_sign s m e :
  match binary_round prec emax s m e with
  | S754_zero s' | S754_finite s' _ _ | S754_infinity s' => s' = s
  | S754_nan => False
  end.
Proof.
  destruct (binary_round_shape s m e) as (m' & e' & -> & _ & _ & P').
  destruct (binary_round_aux_valid s (Zpos m') e' loc_Exact ltac:(lia) P')
    as [_ [->|[(m2 & e2 & ->)| ->]]]; reflexivity.
Qed.

Lemma SFadd_nonneg x y :
  SFleb (S754_zero false) x = true -> SFleb (S754_zero false) y = true ->
  SFleb (S754_zero false) (SFadd prec emax x y) = true.
Proof.
  rewrite !SFleb_zero_cases.
  destruct x as [[]|[]| |[] mx ex], y as [[]|[]| |[] my ey];
    try contradiction; intros _ _; try exact I.
  cbn [SFadd cond_Zopp].
  set (px := fst (shl_align mx ex (Z.min ex ey))).
  set (py := fst (shl_align my ey (Z.min ex ey))).
  change (Zpos px + Zpos py)%Z with (Zpos (px + py)). cbn [binary_normalize].
  pose proof (binary_round_sign false (px + py) (Z.min ex ey)) as S.
  destruct (binary_round prec emax false (px + py) (Z.min ex ey)) as [s|s| |s m e];
    try subst s; try exact I; contradiction.
Qed.

Lemma SFdiv_nonneg x my ey :
  SFleb (S754_zero false) x = true ->
  SFleb (S754_zero false) (SFdiv prec emax x (S754_finite false my ey)) = true.
Proof.
  rewrite !SFleb_zero_cases.
  destruct x as [[]|[]| |[] mx ex]; try contradiction; intros _; try exact I.
  cbn [SFdiv].
  destruct (SFdiv_core_general mx my ex ey) as (q & r & e' & -> & _ & _ & _ & Hq & He).
  cbn [xorb].
  destruct (binary_round_aux_valid false q e' (new_location (Zpos my) r) Hq He)
    as [_ [->|[(m2 & e2 & ->)| ->]]]; exact I.
Qed.

Lemma Prim2SF_2 : Prim2SF 2 = S754_finite false 4503599627370496 (-51).
Proof. vm_compute. reflexivity. Qed.

(** The mean of two floats that are [>= 0] is [>= 0] (hence not NaN). *)
Lemma mean2_nonneg a b :
  (0 <=? a)%float = true -> (0 <=? b)%float = true ->
  (0 <=? (a + b) / 2)%float = true.
Proof.
  rewrite !leb_spec. change (Prim2SF 0) with (S754_zero false).
  rewrite div_spec, add_spec, Prim2SF_2. intros Ha Hb.
  apply SFdiv_nonneg, SFadd_nonneg; assumption.
Qed.

Lemma In_insert y x l : In y (Py.insert x l) <-> y = x \/ In y l.
Proof.
  induction l as [|z l IH]; simpl.
  - intuition.
  - destruct (x <? z)%float; simpl; [intuition|]. rewrite IH. intuition.
Qed.

Lemma In_sorted y data : In y (Py.sorted data) <-> In y data.
Proof.
  unfold Py.sorted.
  assert (G : forall acc, In y (fold_left (fun acc x => Py.insert x acc) data acc)
                          <-> In y data \/ In y acc).
  { induction data as [|x data IH]; simpl; intros acc; [intuition|].
    rewrite IH, In_insert. intuition. }
  rewrite G. simpl. intuition.
Qed.

Lemma median_nonneg data m :
  Forall (fun x => (0 <=? x)%float = true) data ->
  statistics.median data = Return m ->
  (0 <=? m)%float = true.
Proof.
  intros Hall. unfold statistics.median.
  set (sd := Py.sorted data).
  assert (Hsd : forall i, (i < List.length sd)%nat -> (0 <=? nth i sd 0)%float = true).
  { intros i Hi. rewrite Forall_forall in Hall. apply Hall.
    apply In_sorted. apply nth_In. exact Hi. }
  destruct (Nat.eqb_spec (List.length sd) 0) as [|Hn]; [discriminate|].
  destruct (Nat.eqb (List.length sd mod 2) 1) eqn:Hodd; intros H; injection H as <-.
  - assert (Hi : (List.length sd / 2 < List.length sd)%nat) by (apply Nat.div_lt; lia).
    apply Hsd. exact Hi.
  - assert (Hi : (List.length sd / 2 < List.length sd)%nat) by (apply Nat.div_lt; lia).
    apply mean2_nonneg; apply Hsd; [|exact Hi].
    apply Nat.le_lt_trans with (List.length sd / 2)%nat; [apply Nat.le_sub_l|exact Hi].
Qed.

Lemma frame_metrics_nonneg frames : forall ms,
  forallb valid_frame frames = true ->
  frame_metrics frames = Return ms ->
  Forall (fun m => (0 <=? fst m)%float = true /\ (0 <=? snd m)%float = true) ms.
Proof.
  induction frames as [|bgr frames IH]; simpl; intros ms Hv H.
  - inversion H. constructor.
  - apply andb_true_iff in Hv. destruct Hv as [Hv Hrest].
    destruct (valid_frame_metrics_in_range bgr Hv) as (b & c & Hb & Hc & B0 & C0 & _).
    rewrite Hb, Hc in H. simpl in H.
    destruct (frame_metrics frames) as [ms'|]; [|discriminate H].
    simpl in H. inversion H; subst ms. constructor; [split; assumption|].
    apply IH; [exact Hrest|reflexivity].
Qed.

Lemma survivors_medians_nonneg frames ms mb mc :
  forallb valid_frame frames = true ->
  frame_metrics frames = Return ms ->
  statistics.median (map fst (survivors ms)) = Return mb ->
  statistics.median (map snd (survivors ms)) = Return mc ->
  is_nan mb = false /\ is_nan mc = false.
Proof.
  intros Hv Hms Hb Hc.
  pose proof (frame_metrics_nonneg frames ms Hv Hms) as Hall.
  assert (Hs : Forall (fun m => (0 <=? fst m)%float = true /\ (0 <=? snd m)%float = true)
                 (survivors ms)).
  { rewrite Forall_forall in *. intros m Hm. apply Hall.
    unfold survivors in Hm. apply filter_In in Hm. apply Hm. }
  assert (Hf : Forall (fun x => (0 <=? x)%float = true) (map fst (survivors ms))).
  { apply Forall_map. rewrite Forall_forall in *. intros m Hm. apply (Hs m Hm). }
  assert (Hg : Forall (fun x => (0 <=? x)%float = true) (map snd (survivors ms))).
  { apply Forall_map. rewrite Forall_forall in *. intros m Hm. apply (Hs m Hm). }
  split.
  - apply (leb_true_not_nan 0 mb). apply (median_nonneg _ _ Hf Hb).
  - apply (leb_true_not_nan 0 mc). apply (median_nonneg _ _ Hg Hc).
Qed.

End Medians.

(** *** The score of a call *)

Section ScoreTheorems.

Local Open Scope string_scope.

(** X10.  Whatever a call on valid frames answers, its score is a float
    between 0 and 1, both included (the "0..1" of [MeasureResponse]). *)
Theorem score_in_unit_interval :
  forall st now token wd frames resp,
    forallb valid_frame frames = true ->
    snd (measure st now token wd frames) = Return resp ->
    (0 <=? score resp)%float = true /\ (score resp <=? 1)%float = true.
Proof.
  intros st now token wd frames resp Hv.
  destruct (cooldown_rejects st now token) eqn:Hc.
  - rewrite (measure_rejected _ _ _ _ _ Hc). intros [= <-]. split; reflexivity.
  - rewrite (measure_passes _ _ _ _ _ Hc).
    destruct (frame_metrics_total frames Hv) as [ms Hms].
    destruct (Nat.ltb_spec (List.length (survivors ms)) 3) as [Hlt|Hge].
    + rewrite (score_burst_short frames ms Hms Hlt). intros [= <-]. split; reflexivity.
    + destruct (score_burst_full frames ms Hms Hge) as (mb & mc & Hb & Hcl & ->).
      intros [= <-].
      destruct (survivors_medians_nonneg frames ms mb mc Hv Hms Hb Hcl) as [Nb Nc].
      apply (score_range mb mc Nb Nc).
Qed.

Lemma score_in_unit_interval_witness :
  (0 <=? score mixed_burst_response)%float = true
  /\ (score mixed_burst_response <=? 1)%float = true.
Proof.
  apply (score_in_unit_interval initial_state 1700000000.0%float None
           (Some 40.0%float) mixed_burst mixed_burst_response).
  - reflexivity.
  - vm_compute. reflexivity.
Defined.

(** X11.  A call on valid frames whose surviving frames have a median
    clip percentage of 16 or more is never answered "OK", however sharp
    the frames are: the lighting component is 0 and the score is at most
    0.7 (as a float: not above 0.71875, hence below 0.75). *)
Theorem heavy_clipping_is_never_ok :
  forall st now token wd frames ms med_clip resp,
    forallb valid_frame frames = true ->
    frame_metrics frames = Return ms ->
    statistics.median (map snd (survivors ms)) = Return med_clip ->
    Py.geb med_clip 16 = true ->
    snd (measure st now token wd frames) = Return resp ->
    message resp <> "OK" /\ (score resp <=? 0.71875)%float = true.
Proof.
  intros st now token wd frames ms med_clip resp Hv Hms Hmed Hclip.
  destruct (cooldown_rejects st now token) eqn:Hc.
  - rewrite (measure_rejected _ _ _ _ _ Hc). intros [= <-].
    split; [discriminate|reflexivity].
  - rewrite (measure_passes _ _ _ _ _ Hc).
    destruct (Nat.ltb_spec (List.length (survivors ms)) 3) as [Hlt|Hge].
    + rewrite (score_burst_short frames ms Hms Hlt). intros [= <-].
      split; [discriminate|reflexivity].
    + destruct (score_burst_full frames ms Hms Hge) as (mb & mc & Hb & Hcl & ->).
      intros [= <-].
      destruct (survivors_medians_nonneg frames ms mb mc Hv Hms Hb Hcl) as [Nb Nc].
      assert (mc = med_clip) by congruence. subst mc.
      destruct (score_heavy_clipping mb med_clip Nb Hclip) as [S1 S2].
      split; [|exact S1].
      cbn [message scored_burst]. unfold banding. rewrite S2.
      destruct (Py.geb _ 0.55); discriminate.
Qed.

Lemma heavy_clipping_is_never_ok_witness :
  "Borderline — consider retaking" <> "OK" /\ (0.7 <=? 0.71875)%float = true.
Proof.
  apply (heavy_clipping_is_never_ok initial_state 1700000000.0 None None
           backlit_burst
           [(104150.0, 25.0); (104150.0, 25.0); (104150.0, 25.0)]%float
           25.0%float
           {| ok := true;
              distance_pd_mm := None;
              near_pd_mm := None;
              score := 0.7;
              frames_used := 3;
              diagnostics :=
                [("blur", [104150.0; 104150.0; 104150.0]%float);
                 ("clip_pct", [25.0; 25.0; 25.0]%float)];
              message := "Borderline — consider retaking" |}).
  - reflexivity.
  - vm_compute. reflexivity.
  - vm_compute. reflexivity.
  - reflexivity.
  - vm_compute. reflexivity.
Defined.

(** X12.  A burst that is scored with a median sharpness of 40 or less
    is answered "Low quality — retake", with ok true, whatever its
    lighting: the sharpness component is 0 and the score is at most 0.3
    (as a float: not above 0.3125, hence below 0.55). *)
Theorem low_sharpness_is_low_quality :
  forall st now token wd frames ms med_blur,
    forallb valid_frame frames = true ->
    cooldown_rejects st now token = false ->
    frame_metrics frames = Return ms ->
    (3 <= List.length (survivors ms))%nat ->
    statistics.median (map fst (survivors ms)) = Return med_blur ->
    (med_blur <=? 40)%float = true ->
    exists resp,
      snd (measure st now token wd frames) = Return resp
      /\ ok resp = true
      /\ message resp = "Low quality — retake"
      /\ (score resp <=? 0.3125)%float = true.
Proof.
  intros st now token wd frames ms med_blur Hv Hc Hms Hge Hmed Hblur.
  rewrite (measure_passes _ _ _ _ _ Hc).
  destruct (score_burst_full frames ms Hms Hge) as (mb & mc & Hb & Hcl & ->).
  destruct (survivors_medians_nonneg frames ms mb mc Hv Hms Hb Hcl) as [Nb Nc].
  assert (mb = med_blur) by congruence. subst mb.
  destruct (score_low_sharpness med_blur mc Hblur Nc) as [S1 S2].
  eexists. split; [reflexivity|]. split; [reflexivity|]. split; [exact S2|exact S1].
Qed.

Lemma low_sharpness_is_low_quality_witness :
  exists resp,
    snd (measure initial_state 1700000000.0 (Some "tok") None dull_burst) = Return resp
    /\ ok resp = true
    /\ message resp = "Low quality — retake"
    /\ (score resp <=? 0.3125)%float = true.
Proof.
  apply (low_sharpness_is_low_quality initial_state 1700000000.0 (Some "tok") None
           dull_burst [(16.0, 0.0); (16.0, 0.0); (16.0, 0.0)]%float 16.0%float).
  - reflexivity.
  - reflexivity.
  - vm_compute. reflexivity.
  - simpl. lia.
  - vm_compute. reflexivity.
  - reflexivity.
Defined.

End ScoreTheorems.

(** ** The order of the frames in a burst *)

Section FrameOrder.

Local Open Scope string_scope.

Lemma not_negative_key x : not_negative x -> exists k, fkey x = Some k.
Proof.
  unfold not_negative, fkey. destruct (Prim2SF x) as [[]|[]| |[] m e]; simpl;
    intros H; try contradiction; eauto.
Qed.

Lemma not_negative_key_inj x y : not_negative x -> not_negative y -> fkey x = fkey y -> x = y.
Proof.
  unfold not_negative, fkey. intros Hx Hy H. apply Prim2SF_inj.
  destruct (Prim2SF x) as [[]|[]| |[] mx ex]; try contradiction;
    destruct (Prim2SF y) as [[]|[]| |[] my ey]; try contradiction;
    simpl in H; try discriminate; try reflexivity.
  inversion H. reflexivity.
Qed.

Lemma ltb_trichotomy x y :
  not_negative x -> not_negative y -> (x <? y)%float = true \/ (y <? x)%float = true \/ x = y.
Proof.
  intros Hx Hy.
  destruct (not_negative_key x Hx) as [[[x1 x2] x3] Ex].
  destruct (not_negative_key y Hy) as [[[y1 y2] y3] Ey].
  rewrite (ltb_iff _ _ _ _ Ex Ey), (ltb_iff _ _ _ _ Ey Ex).
  destruct (Z.lt_trichotomy x1 y1) as [|[E1|]]; [left; simpl; lia| |right; left; simpl; lia].
  destruct (Z.lt_trichotomy x2 y2) as [|[E2|]]; [left; simpl; lia| |right; left; simpl; lia].
  destruct (Z.lt_trichotomy x3 y3) as [|[E3|]]; [left; simpl; lia| |right; left; simpl; lia].
  right. right. apply not_negative_key_inj; try assumption. congruence.
Qed.

Lemma ltb_asym x y : (x <? y)%float = true -> (y <? x)%float = false.
Proof.
  intros H. fkeys x; [|nan_contra]. fkeys y; [|nan_contra].
  destruct (y <? x)%float eqn:H'; [exfalso; lex|reflexivity].
Qed.

Lemma ltb_trans x y z :
  (x <? y)%float = true -> (y <? z)%float = true -> (x <? z)%float = true.
Proof.
  intros H1 H2. fkeys x; [|nan_contra]. fkeys y; [|nan_contra]. fkeys z; [|nan_contra].
  apply (ltb_iff _ _ _ _ E E1).
  apply (ltb_iff _ _ _ _ E E0) in H1. apply (ltb_iff _ _ _ _ E0 E1) in H2.
  unfold lex_lt in *. lia.
Qed.

Lemma insert_comm x y l :
  not_negative x -> not_negative y ->
  Py.insert x (Py.insert y l) = Py.insert y (Py.insert x l).
Proof.
  intros Hx Hy. induction l as [|z l IH]; cbn [Py.insert].
  - destruct (ltb_trichotomy x y Hx Hy) as [H|[H| ->]].
    + rewrite H, (ltb_asym _ _ H). reflexivity.
    + rewrite H, (ltb_asym _ _ H). reflexivity.
    + destruct (y <? y)%float; reflexivity.
  - destruct (y <? z)%float eqn:YZ, (x <? z)%float eqn:XZ; cbn [Py.insert];
      rewrite ?YZ, ?XZ.
    + destruct (ltb_trichotomy x y Hx Hy) as [H|[H| ->]].
      * rewrite H, (ltb_asym _ _ H). reflexivity.
      * rewrite H, (ltb_asym _ _ H). reflexivity.
      * destruct (y <? y)%float; reflexivity.
    + destruct (x <? y)%float eqn:XY; [|reflexivity].
      rewrite (ltb_trans _ _ _ XY YZ) in XZ. discriminate.
    + destruct (y <? x)%float eqn:YX; [|reflexivity].
      rewrite (ltb_trans _ _ _ YX XZ) in YZ. discriminate.
    + rewrite IH. reflexivity.
Qed.

Lemma sorted_perm l l' :
  Permutation l l' -> Forall not_negative l -> Py.sorted l = Py.sorted l'.
Proof.
  unfold Py.sorted. intros HP. generalize (@nil float).
  induction HP as [|x l l' HP IH|x y l|l l' l'' HP1 IH1 HP2 IH2]; intros acc Hall.
  - reflexivity.
  - simpl. inversion Hall; subst. apply IH. assumption.
  - simpl. inversion Hall as [|? ? Hy Hrest]; subst.
    inversion Hrest as [|? ? Hx Hl]; subst.
    rewrite (insert_comm x y acc Hx Hy). reflexivity.
  - rewrite IH1 by assumption. apply IH2.
    apply (Permutation_Forall HP1 Hall).
Qed.

Lemma median_perm l l' :
  Permutation l l' -> Forall not_negative l -> statistics.median l = statistics.median l'.
Proof.
  intros HP Hall. unfold statistics.median. rewrite (sorted_perm l l' HP Hall).
  reflexivity.
Qed.

Lemma Q2float_not_negative (q : Q) : (0 <= q)%Q -> not_negative (Py.Q2float q).
Proof.
  intros H. apply Qle_0_num in H.
  unfold Py.Q2float, Py.ratio2float, not_negative.
  destruct (Qnum q) as [|n|n]; [exact I| |lia].
  destruct (SFdiv_valid false n (Qden q)) as [Hv HR].
  rewrite (Prim2SF_SF2Prim _ Hv).
  destruct HR as [->|[(m & e & ->)| ->]]; exact I.
Qed.

Lemma frame_metrics_not_negative frames : forall ms,
  forallb valid_frame frames = true ->
  frame_metrics frames = Return ms ->
  Forall (fun m => not_negative (fst m) /\ not_negative (snd m)) ms.
Proof.
  induction frames as [|bgr frames IH]; simpl; intros ms Hv H.
  - inversion H. constructor.
  - apply andb_true_iff in Hv. destruct Hv as [Hv Hrest].
    destruct (valid_frame_cvtColor bgr Hv) as (rows & _ & Hg).
    unfold calc_blur_laplacian_var, calc_hist_clip_pct in H. rewrite Hg in H.
    simpl in H.
    destruct (frame_metrics frames) as [ms'|]; [|discriminate H].
    simpl in H. injection H as <-. constructor.
    + split; cbn [fst snd].
      * apply Q2float_not_negative, var_nonneg.
      * apply Q2float_not_negative.
        destruct (calcHist_counts (map (map luminance) rows)) as [Hall Hlen].
        apply (clip_pct_range _ Hall). lia.
    + apply IH; [exact Hrest|reflexivity].
Qed.

Lemma frame_metrics_perm frames frames' :
  Permutation frames frames' ->
  forall ms, frame_metrics frames = Return ms ->
  exists ms', frame_metrics frames' = Return ms' /\ Permutation ms ms'.
Proof.
  induction 1 as [|x l l' HP IH|x y l|l l' l'' HP1 IH1 HP2 IH2]; intros ms H.
  - exists ms. split; [exact H|apply Permutation_refl].
  - simpl in *.
    destruct (calc_blur_laplacian_var x) as [b|]; [|discriminate H].
    destruct (calc_hist_clip_pct x) as [c|]; [|discriminate H]. simpl in *.
    destruct (frame_metrics l) as [ms0|]; [|discriminate H]. simpl in H.
    injection H as <-.
    destruct (IH ms0 eq_refl) as (ms0' & -> & HP'). simpl.
    exists ((b, c) :: ms0'). split; [reflexivity|]. apply perm_skip, HP'.
  - simpl in *.
    destruct (calc_blur_laplacian_var y) as [b|]; [|discriminate H].
    destruct (calc_hist_clip_pct y) as [c|]; [|discriminate H]. simpl in *.
    destruct (calc_blur_laplacian_var x) as [b'|]; [|discriminate H].
    destruct (calc_hist_clip_pct x) as [c'|]; [|discriminate H]. simpl in *.
    destruct (frame_metrics l) as [ms0|]; [|discriminate H]. simpl in H.
    injection H as <-.
    exists ((b', c') :: (b, c) :: ms0). split; [reflexivity|]. apply perm_swap.
  - destruct (IH1 ms H) as (ms1 & H1 & P1).
    destruct (IH2 ms1 H1) as (ms2 & H2 & P2).
    exists ms2. split; [exact H2|]. apply (Permutation_trans P1 P2).
Qed.

Lemma filter_perm {A : Type} (f : A -> bool) l l' :
  Permutation l l' -> Permutation (filter f l) (filter f l').
Proof.
  induction 1 as [|x l l' HP IH|x y l|l l' l'' HP1 IH1 HP2 IH2]; simpl.
  - constructor.
  - destruct (f x); [apply perm_skip|]; exact IH.
  - destruct (f x), (f y); try apply Permutation_refl. apply perm_swap.
  - apply (Permutation_trans IH1 IH2).
Qed.

(** X13.  The answer does not depend on the order of the frames in the
    burst: two calls that pass the cooldown check on valid frames, one on a
    permutation of the frames of the other, give the same ok, score,
    frames_used and message, and diagnostics lists that are permutations
    of each other. *)
Theorem score_ignores_frame_order :
  forall st now token wd st' now' token' wd' frames frames',
    Permutation frames frames' ->
    forallb valid_frame frames = true ->
    cooldown_rejects st now token = false ->
    cooldown_rejects st' now' token' = false ->
    exists resp resp',
      snd (measure st now token wd frames) = Return resp
      /\ snd (measure st' now' token' wd' frames') = Return resp'
      /\ ok resp' = ok resp
      /\ score resp' = score resp
      /\ frames_used resp' = frames_used resp
      /\ message resp' = message resp
      /\ Permutation (dict_get_default (diagnostics resp) "blur" [])
                     (dict_get_default (diagnostics resp') "blur" [])
      /\ Permutation (dict_get_default (diagnostics resp) "clip_pct" [])
                     (dict_get_default (diagnostics resp') "clip_pct" []).
Proof.
  intros st now token wd st' now' token' wd' frames frames' HP Hv Hc Hc'.
  rewrite (measure_passes _ _ _ _ _ Hc), (measure_passes _ _ _ _ _ Hc').
  destruct (frame_metrics_total frames Hv) as [ms Hms].
  destruct (frame_metrics_perm frames frames' HP ms Hms) as (ms' & Hms' & Pms).
  pose proof (filter_perm survives ms ms' Pms) as Ps. fold (survivors ms) (survivors ms') in Ps.
  pose proof (Permutation_length Ps) as Pl.
  pose proof (frame_metrics_not_negative frames ms Hv Hms) as Hnn.
  assert (Hs : Forall (fun m => not_negative (fst m) /\ not_negative (snd m)) (survivors ms)).
  { rewrite Forall_forall in *. intros m Hm. apply Hnn.
    unfold survivors in Hm. apply filter_In in Hm. apply Hm. }
  assert (Hf : Forall not_negative (map fst (survivors ms))).
  { apply Forall_map. rewrite Forall_forall in *. intros m Hm. apply (Hs m Hm). }
  assert (Hg : Forall not_negative (map snd (survivors ms))).
  { apply Forall_map. rewrite Forall_forall in *. intros m Hm. apply (Hs m Hm). }
  destruct (Nat.ltb_spec (List.length (survivors ms)) 3) as [Hlt|Hge].
  - rewrite (score_burst_short frames ms Hms Hlt).
    rewrite (score_burst_short frames' ms' Hms' ltac:(lia)).
    do 2 eexists. split; [reflexivity|]. split; [reflexivity|].
    cbn. repeat split; try (symmetry; exact Pl).
    + apply Permutation_map, Ps.
    + apply Permutation_map, Ps.
  - destruct (score_burst_full frames ms Hms Hge) as (mb & mc & Hb & Hcl & ->).
    destruct (score_burst_full frames' ms' Hms' ltac:(lia)) as (mb' & mc' & Hb' & Hcl' & ->).
    rewrite <- (median_perm _ _ (Permutation_map fst Ps) Hf) in Hb'.
    rewrite <- (median_perm _ _ (Permutation_map snd Ps) Hg) in Hcl'.
    assert (mb' = mb) by congruence. assert (mc' = mc) by congruence. subst.
    do 2 eexists. split; [reflexivity|]. split; [reflexivity|].
    cbn. repeat split; try (symmetry; exact Pl).
    + apply Permutation_map, Ps.
    + apply Permutation_map, Ps.
Qed.

Lemma score_ignores_frame_order_witness :
  exists resp resp',
    snd (measure initial_state 1700000000.0 None None mixed_burst) = Return resp
    /\ snd (measure initial_state 1700000009.0 (Some "tok") None
              [glare_frame; spot_frame; soft_frame])
       = Return resp'
    /\ ok resp' = ok resp
    /\ score resp' = score resp
    /\ frames_used resp' = frames_used resp
    /\ message resp' = message resp
    /\ Permutation (dict_get_default (diagnostics resp) "blur" [])
                   (dict_get_default (diagnostics resp') "blur" [])
    /\ Permutation (dict_get_default (diagnostics resp) "clip_pct" [])
                   (dict_get_default (diagnostics resp') "clip_pct" []).
Proof.
  apply (score_ignores_frame_order initial_state 1700000000.0%float None None
           initial_state 1700000009.0%float (Some "tok") None
           mixed_burst [glare_frame; spot_frame; soft_frame]).
  - apply Permutation_sym.
    apply (Permutation_cons_append [spot_frame; soft_frame] glare_frame).
  - reflexivity.
  - reflexivity.
  - reflexivity.
Defined.

End FrameOrder.

(** ** Frames whose metrics are zero *)

Section ZeroMetrics.

Local Open Scope string_scope.

Lemma nth_repeat_lt {A : Type} (a d : A) n m :
  (n < m)%nat -> nth n (repeat a m) d = a.
Proof.
  revert n. induction m as [|m IH]; intros n H; [lia|].
  destruct n as [|n]; simpl; [reflexivity|]. apply IH. lia.
Qed.

Lemma reflect101_range len p :
  (1 <= len)%Z -> (-1 <= p <= len)%Z -> (0 <= reflect101 len p < len)%Z.
Proof.
  intros Hl Hp. unfold reflect101.
  destruct (Z.eqb_spec len 1); [lia|].
  destruct (Z.ltb_spec p 0); [lia|].
  destruct (Z.leb_spec len p); lia.
Qed.

Lemma pixel_uniform v h w y x :
  (1 <= h)%nat -> (1 <= w)%nat ->
  (-1 <= y <= Z.of_nat h)%Z -> (-1 <= x <= Z.of_nat w)%Z ->
  pixel (repeat (repeat v w) h) y x = v.
Proof.
  intros Hh Hw Hy Hx. unfold pixel. rewrite repeat_length.
  pose proof (reflect101_range (Z.of_nat h) y ltac:(lia) Hy) as Ry.
  rewrite (nth_repeat_lt (repeat v w) []) by lia.
  rewrite repeat_length.
  pose proof (reflect101_range (Z.of_nat w) x ltac:(lia) Hx) as Rx.
  apply nth_repeat_lt. lia.
Qed.

Lemma Laplacian_uniform v h w :
  (1 <= h)%nat -> (1 <= w)%nat ->
  Forall (eq 0%Z) (concat (Laplacian (repeat (repeat v w) h) CV_64F)).
Proof.
  intros Hh Hw. apply Forall_concat. unfold Laplacian.
  rewrite repeat_length. apply Forall_map. apply Forall_forall.
  intros y Hy. apply in_seq in Hy.
  rewrite Nat2Z.id, (nth_repeat_lt (repeat v w) []) by lia.
  rewrite repeat_length. apply Forall_map. apply Forall_forall.
  intros x Hx. apply in_seq in Hx.
  rewrite !pixel_uniform by lia. lia.
Qed.

Lemma sum_zeros xs : Forall (eq 0%Z) xs -> np.sum xs = 0%Z.
Proof. induction 1 as [|x xs <- _ IH]; simpl; [reflexivity|exact IH]. Qed.

Lemma Qsum_num_zero qs : Forall (fun q => Qnum q = 0%Z) qs -> Qnum (np.Qsum qs) = 0%Z.
Proof.
  induction 1 as [|q qs Hq _ IH]; simpl; [reflexivity|].
  rewrite Hq, IH. reflexivity.
Qed.

(** The variance of an array of zeros is the rational 0. *)
Lemma var_zeros a : Forall (eq 0%Z) (concat a) -> Qnum (np.var a) = 0%Z.
Proof.
  intros H. unfold np.var, np.mean. rewrite (sum_zeros _ H).
  set (n := inject_Z (Z.of_nat (List.length (concat a)))).
  unfold Qdiv at 1. cbn [Qmult Qnum].
  rewrite Qsum_num_zero; [reflexivity|].
  apply Forall_map. rewrite Forall_forall in *. intros x Hx.
  rewrite <- (H x Hx). reflexivity.
Qed.

Lemma Q2float_zero q : Qnum q = 0%Z -> Py.Q2float q = 0%float.
Proof. intros H. unfold Py.Q2float. rewrite H. reflexivity. Qed.

Lemma uniform_frame_gray p h w :
  (1 <= h)%nat -> (1 <= w)%nat ->
  valid_frame (uniform_frame p h w) = true
  /\ cvtColor (uniform_frame p h w) COLOR_BGR2GRAY
     = Return (repeat (repeat (luminance p) w) h).
Proof.
  intros Hh Hw.
  assert (E : empty (uniform_frame p h w) = false).
  { unfold empty, uniform_frame, shape_of. rewrite repeat_length.
    destruct h as [|h]; [lia|]. cbn [repeat hd]. rewrite repeat_length.
    destruct w as [|w]; [lia|]. reflexivity. }
  split.
  - unfold valid_frame. rewrite E. reflexivity.
  - unfold cvtColor. rewrite E. unfold uniform_frame.
    rewrite map_repeat, map_repeat. reflexivity.
Qed.

Lemma uniform_frame_sharpness p h w :
  (1 <= h)%nat -> (1 <= w)%nat ->
  calc_blur_laplacian_var (uniform_frame p h w) = Return 0%float.
Proof.
  intros Hh Hw. unfold calc_blur_laplacian_var.
  destruct (uniform_frame_gray p h w Hh Hw) as [_ ->]. simpl.
  rewrite Q2float_zero; [reflexivity|].
  apply var_zeros, Laplacian_uniform; assumption.
Qed.

Lemma collect_uniform frames : forall blur_vals clip_vals,
  Forall (fun bgr => exists p h w, (1 <= h)%nat /\ (1 <= w)%nat
                                   /\ bgr = uniform_frame p h w) frames ->
  collect frames blur_vals clip_vals = Return (blur_vals, clip_vals).
Proof.
  induction frames as [|bgr frames IH]; intros bv cv Hall; [reflexivity|].
  inversion Hall as [|? ? (p & h & w & Hh & Hw & ->) Hrest]; subst.
  simpl. rewrite (uniform_frame_sharpness p h w Hh Hw). simpl.
  destruct (uniform_frame_gray p h w Hh Hw) as [Hv _].
  destruct (valid_frame_has_metrics _ Hv) as (b & c & _ & ->). simpl.
  change (broken 0 c) with true. apply IH, Hrest.
Qed.

(** X14.  A frame of one colour, of any size, has sharpness exactly 0.0:
    ready-check reports it not ready with the sharpness gate failing, and
    a burst made of such frames only is answered with frames_used 0 and
    the retake message, every frame being dropped by the sanity filter. *)
Theorem uniform_frames_are_dropped :
  forall st now token wd frames,
    Forall (fun bgr => exists p h w, (1 <= h)%nat /\ (1 <= w)%nat
                                     /\ bgr = uniform_frame p h w) frames ->
    cooldown_rejects st now token = false ->
    (forall bgr, In bgr frames ->
       calc_blur_laplacian_var bgr = Return 0%float
       /\ exists r, endpoints.ready_check bgr "" = inr r
                    /\ endpoints.ready r = false
                    /\ In "sharpness" (endpoints.failing_gates r))
    /\ snd (measure st now token wd frames)
       = Return {| ok := false;
                   distance_pd_mm := None;
                   near_pd_mm := None;
                   score := 0.0;
                   frames_used := 0;
                   diagnostics := [("blur", []); ("clip_pct", [])];
                   message := "Low-quality burst — retake" |}.
Proof.
  intros st now token wd frames Hall Hc. split.
  - intros bgr Hin. rewrite Forall_forall in Hall.
    destruct (Hall bgr Hin) as (p & h & w & Hh & Hw & ->).
    pose proof (uniform_frame_sharpness p h w Hh Hw) as Hb.
    split; [exact Hb|].
    destruct (uniform_frame_gray p h w Hh Hw) as [Hv _].
    destruct (valid_frame_has_metrics _ Hv) as (b & c & _ & Hcl).
    unfold endpoints.ready_check.
    rewrite (evaluate_basic_gates_metrics _ 0%float c Hb Hcl).
    unfold gate_verdict. change (0 <? 80)%float with true.
    destruct (Py.geb c 8); eexists; (split; [reflexivity|]);
      (split; [reflexivity|]); simpl; auto.
  - rewrite (measure_passes _ _ _ _ _ Hc). unfold score_burst.
    rewrite (collect_uniform frames [] [] Hall). reflexivity.
Qed.

Lemma uniform_frames_are_dropped_witness :
  (forall bgr, In bgr covered_lens_burst ->
     calc_blur_laplacian_var bgr = Return 0%float
     /\ exists r, endpoints.ready_check bgr "" = inr r
                  /\ endpoints.ready r = false
                  /\ In "sharpness" (endpoints.failing_gates r))
  /\ snd (measure initial_state 1700000000.0 (Some "tok") None covered_lens_burst)
     = Return {| ok := false;
                 distance_pd_mm := None;
                 near_pd_mm := None;
                 score := 0.0;
                 frames_used := 0;
                 diagnostics := [("blur", []); ("clip_pct", [])];
                 message := "Low-quality burst — retake" |}.
Proof.
  apply (uniform_frames_are_dropped initial_state 1700000000.0%float (Some "tok")
           None covered_lens_burst).
  - unfold covered_lens_burst.
    apply Forall_cons; [exists (0, 0, 0)%Z, 2%nat, 3%nat; repeat split; lia|].
    apply Forall_cons; [exists (12, 10, 9)%Z, 4%nat, 4%nat; repeat split; lia|].
    apply Forall_cons; [exists (255, 255, 255)%Z, 1%nat, 1%nat; repeat split; lia|].
    apply Forall_nil.
  - reflexivity.
Defined.

Lemma calcHist_extremes gray :
  nth 0 (calcHist gray) 0%Z = Z.of_nat (count_occ Z.eq_dec (concat gray) 0%Z)
  /\ last (calcHist gray) 0%Z = Z.of_nat (count_occ Z.eq_dec (concat gray) 255%Z).
Proof.
  unfold calcHist. split.
  - reflexivity.
  - change 256%nat with (255 + 1)%nat. rewrite seq_app, map_app. cbn [seq map].
    apply last_last.
Qed.

(** X15.  A valid buffer none of whose gray values is 0 or 255 has a
    clip percentage of exactly 0.0; with it the lighting gate never fails
    and the lighting component of the score is 1.0. *)
Theorem unclipped_frame_has_clip_zero :
  forall rows,
    valid_frame (Mat3 rows) = true ->
    Forall (Forall (fun p => luminance p <> 0%Z /\ luminance p <> 255%Z)) rows ->
    calc_hist_clip_pct (Mat3 rows) = Return 0%float
    /\ score_component_clip 0 = 1%float
    /\ forall blur, In "lighting" (snd (fst (fst (gate_verdict blur 0)))) -> False.
Proof.
  intros rows Hv Hall.
  destruct (valid_frame_cvtColor _ Hv) as (rows' & [= <-] & Hg).
  split; [|split].
  - unfold calc_hist_clip_pct. rewrite Hg. simpl. f_equal.
    apply Q2float_zero. unfold clip_pct_of_hist.
    destruct (calcHist_extremes (map (map luminance) rows)) as [-> ->].
    assert (N : forall v, (v = 0 \/ v = 255)%Z ->
                count_occ Z.eq_dec (concat (map (map luminance) rows)) v = 0%nat).
    { intros v Hvv. apply count_occ_not_In. intros Hin.
      apply in_concat in Hin. destruct Hin as (row & Hrow & Hin).
      apply in_map_iff in Hrow. destruct Hrow as (r & <- & Hr).
      apply in_map_iff in Hin. destruct Hin as (p & Hp & Hpin).
      rewrite Forall_forall in Hall. specialize (Hall r Hr).
      rewrite Forall_forall in Hall. specialize (Hall p Hpin). lia. }
    rewrite (N 0%Z), (N 255%Z) by auto. reflexivity.
  - reflexivity.
  - intros blur. unfold gate_verdict. change (Py.geb 0 8) with false.
    destruct (blur <? 80)%float; simpl; intuition discriminate.
Qed.

Lemma unclipped_frame_has_clip_zero_witness :
  calc_hist_clip_pct sharp_frame = Return 0%float
  /\ score_component_clip 0 = 1%float
  /\ forall blur, In "lighting" (snd (fst (fst (gate_verdict blur 0)))) -> False.
Proof.
  apply (unclipped_frame_has_clip_zero (map (map px) [[100; 140]; [140; 100]]%Z)).
  - reflexivity.
  - repeat constructor; vm_compute; discriminate.
Defined.

End ZeroMetrics.

(** ** The downscale of wide images *)

Import PyNum preprocessing.

Section Enclosure.

Local Open Scope Z_scope.

(** In the normal range the rounded value is within one unit in the
    last place of the value it rounds: with [P] the result in units of
    [2^e], [P * 2^52 <= m * (2^52 + 1)] and [(m + 1) * 2^52 <= P * (2^52 + 1)]. *)
Lemma binary_round_aux_enclosure s m e l :
  0 < m -> e <= fexp prec emax (Zdigits2 m + e) ->
  -1021 < Zdigits2 m + e -> Zdigits2 m + e <= 1023 ->
  exists m2 e2,
    binary_round_aux prec emax s m e l = S754_finite s m2 e2
    /\ e <= e2
    /\ e2 <= fexp prec emax (Zdigits2 m + e) + 1
    /\ Zpos m2 * 2 ^ (e2 - e) * 2 ^ 52 <= m * (2 ^ 52 + 1)
    /\ (m + 1) * 2 ^ 52 <= Zpos m2 * 2 ^ (e2 - e) * (2 ^ 52 + 1).
Proof.
  intros Hm He Hlo Hhi.
  destruct (binary_round_aux_shape s m e l ltac:(lia) He)
    as (mrs1 & e1 & mrs2 & e2 & _ & He1 & Hm1 & _ & _ & _ & He12 & Hm2 & Hp2 & Hc2 & He2 & ->).
  set (m1r := round_nearest_even (shr_m mrs1) (loc_of_shr_record mrs1)) in *.
  set (m1 := shr_m mrs1) in *.
  rewrite fexp_eq in He1, He.
  assert (Ek : e1 - e = Zdigits2 m - 53) by lia.
  assert (Hk : 0 <= e1 - e) by lia.
  assert (D1 : Zdigits2 m1 = 53).
  { rewrite Hm1, Zdigits2_shift by lia. lia. }
  assert (B1 : 2 ^ 52 <= m1 < 2 ^ 53).
  { assert (P1 : 0 < m1).
    { destruct (Z_lt_le_dec 0 m1) as [|N]; [assumption|exfalso].
      assert (0 <= m1) by (rewrite Hm1; apply Z.div_pos; [lia|apply Z.pow_pos_nonneg; lia]).
      replace m1 with 0 in D1 by lia. discriminate D1. }
    pose proof (Zdigits2_bounds m1 P1) as B. rewrite D1 in B. exact B. }
  change (2 ^ 52) with 4503599627370496 in *.
  change (2 ^ 53) with 9007199254740992 in *.
  assert (R : m1r = m1 \/ m1r = m1 + 1) by apply round_nearest_even_cases.
  assert (Pk : 0 < 2 ^ (e1 - e)) by (apply Z.pow_pos_nonneg; lia).
  (* the first shift *)
  assert (F1 : m1 * 2 ^ (e1 - e) <= m).
  { rewrite Hm1, Z.mul_comm. apply Z.mul_div_le. lia. }
  assert (F2 : m + 1 <= (m1 + 1) * 2 ^ (e1 - e)).
  { rewrite Hm1.
    pose proof (Z.div_mod m (2 ^ (e1 - e)) ltac:(lia)) as E.
    pose proof (Z.mod_pos_bound m (2 ^ (e1 - e)) Pk) as B. nia. }
  (* the second shift is exact *)
  assert (S2 : e1 <= e2 <= e1 + 1 /\ shr_m mrs2 * 2 ^ (e2 - e1) = m1r).
  { destruct (Z_lt_le_dec m1r 9007199254740992) as [Lt|Ge].
    - assert (D : Zdigits2 m1r = 53).
      { apply Zdigits2_unique; [lia|].
        change (2 ^ (53 - 1)) with 4503599627370496.
        change (2 ^ 53) with 9007199254740992. lia. }
      rewrite D, fexp_eq in He2. assert (E2 : e2 = e1) by lia. clear He2. subst e2.
      rewrite Z.sub_diag, Z.pow_0_r, Z.div_1_r in Hm2. rewrite Z.sub_diag, Z.pow_0_r. lia.
    - assert (E : m1r = 9007199254740992) by lia.
      assert (D : Zdigits2 m1r = 54) by (rewrite E; reflexivity).
      rewrite D, fexp_eq in He2. assert (E2 : e2 = e1 + 1) by lia. clear He2. subst e2.
      replace (e1 + 1 - e1) with 1 in * by lia. change (2 ^ 1) with 2 in *.
      rewrite Hm2, E. split; [lia|reflexivity]. }
  destruct S2 as [He2' S2].
  assert (P2 : 0 < shr_m mrs2).
  { assert (0 < 2 ^ (e2 - e1)) by (apply Z.pow_pos_nonneg; lia). nia. }
  destruct (shr_m mrs2) as [|p|p] eqn:Ep; [lia| |lia].
  destruct (Z.leb_spec e2 (emax - prec)) as [_|Hbad]; [|unfold emax, prec in Hbad; lia].
  exists p, e2. split; [reflexivity|].
  split; [lia|]. split; [rewrite fexp_eq; lia|].
  assert (Esplit : 2 ^ (e2 - e) = 2 ^ (e2 - e1) * 2 ^ (e1 - e)).
  { rewrite <- Z.pow_add_r by lia. f_equal. lia. }
  rewrite Esplit, !Z.mul_assoc, S2.
  set (t := 2 ^ (e1 - e)) in *.
  split.
  - (* m1r * t * 2^52 <= m * (2^52+1) *)
    assert (m1r * t <= m1 * t + t) by nia.
    assert (4503599627370496 * t <= m1 * t) by nia.
    nia.
  - assert (m1 * t <= m1r * t) by nia.
    assert (4503599627370496 * t <= m1 * t) by nia.
    nia.
Qed.

End Enclosure.

Section Downscale.

Local Open Scope Z_scope.

Lemma binary_round_aux_exact s m e :
  Zdigits2 (Zpos m) = 53 -> -1074 <= e <= emax - prec ->
  binary_round_aux prec emax s (Zpos m) e loc_Exact = S754_finite s m e.
Proof.
  intros D He.
  assert (F : fexp prec emax (Zdigits2 (Zpos m) + e) = e) by (rewrite D, fexp_eq; lia).
  destruct (binary_round_aux_shape s (Zpos m) e loc_Exact ltac:(lia) ltac:(lia))
    as (mrs1 & e1 & mrs2 & e2 & _ & He1 & Hm1 & _ & Hl1 & _ & He12 & Hm2 & _ & _ & He2 & ->).
  rewrite F in He1. subst e1.
  rewrite Z.sub_diag, Z.pow_0_r, Z.div_1_r in Hm1.
  rewrite (Hl1 eq_refl), Hm1 in *. cbn [round_nearest_even] in *.
  rewrite F in He2. subst e2.
  rewrite Z.sub_diag, Z.pow_0_r, Z.div_1_r in Hm2. rewrite Hm2.
  destruct (Z.leb_spec e (emax - prec)); [reflexivity|lia].
Qed.

(** [float(n)] is exact for a positive int below [2^53]. *)
Lemma float_of_int_exact n :
  0 < n < 2 ^ 53 ->
  exists m e,
    float_of_int n = inr (SF2Prim (S754_finite false m e))
    /\ bounded prec emax m e = true
    /\ -52 <= e <= 0
    /\ Zpos m = n * 2 ^ (- e).
Proof.
  intros [Hn Hlt]. destruct n as [|p|p]; try lia.
  unfold float_of_int. cbn [binary_normalize].
  destruct (binary_round_shape false p 0) as (m' & e' & -> & E' & M' & P').
  pose proof (Zdigits2_pos (Zpos p) ltac:(lia)) as Dp.
  pose proof (Zdigits2_le (Zpos p) 53 ltac:(lia) ltac:(lia) Hlt) as Dp'.
  rewrite fexp_eq, Z.add_0_r in E'.
  assert (Ee : e' = Zdigits2 (Zpos p) - 53) by lia.
  assert (D' : Zdigits2 (Zpos m') = 53).
  { rewrite M', Zdigits2_mul_pow2 by lia. lia. }
  rewrite binary_round_aux_exact by (unfold emax, prec; lia).
  exists m', e'. split; [reflexivity|].
  split.
  { unfold bounded, canonical_mantissa. apply andb_true_iff. split.
    - apply Z.eqb_eq. change (Zpos (digits2_pos m')) with (Zdigits2 (Zpos m')).
      rewrite D', fexp_eq. lia.
    - apply Z.leb_le. unfold emax, prec. lia. }
  split; [lia|]. rewrite M'. replace (0 - e') with (- e') by lia. reflexivity.
Qed.

(** The quotient and the remainder of a truncation [R / T] that is
    within two roundings of [N / W]. *)
Lemma trunc_bounds N W R T :
  0 < T -> 0 < W -> 0 <= N < 2 ^ 41 -> 0 <= R ->
  R * W * 2 ^ 104 <= N * T * ((2 ^ 52 + 1) * (2 ^ 52 + 1)) ->
  N * T * 2 ^ 104 < R * W * ((2 ^ 52 + 1) * (2 ^ 52 + 1)) ->
  N / W - 1 <= R / T <= N / W /\ (N mod W <> 0 -> R / T = N / W).
Proof.
  intros HT HW HN HR Hup Hlo.
  change (2 ^ 104) with 20282409603651670423947251286016 in *.
  change ((2 ^ 52 + 1) * (2 ^ 52 + 1)) with 20282409603651679431146506027009 in *.
  change (2 ^ 41) with 2199023255552 in *.
  pose proof (Z.div_mod N W ltac:(lia)) as EN.
  pose proof (Z.mod_pos_bound N W HW) as BN.
  pose proof (Z.div_mod R T ltac:(lia)) as ER.
  pose proof (Z.mod_pos_bound R T HT) as BR.
  set (K := N / W) in *. set (r := N mod W) in *.
  set (h := R / T) in *. set (t := R mod T) in *.
  assert (HK : 0 <= K) by (apply Z.div_pos; lia).
  assert (Hh : 0 <= h) by (apply Z.div_pos; lia).
  assert (Up : h <= K).
  { destruct (Z_le_gt_dec h K) as [|G]; [assumption|exfalso].
    assert (S1 : T * (K + 1) <= R) by nia.
    assert (S2 : T * (K + 1) * W * 20282409603651670423947251286016
                 <= R * W * 20282409603651670423947251286016).
    { apply Z.mul_le_mono_nonneg_r; [lia|].
      apply Z.mul_le_mono_nonneg_r; [lia|exact S1]. }
    assert (S3 : T * ((K + 1) * W * 20282409603651670423947251286016)
                 <= T * (N * 20282409603651679431146506027009)).
    { replace (T * ((K + 1) * W * 20282409603651670423947251286016))
        with (T * (K + 1) * W * 20282409603651670423947251286016) by ring.
      replace (T * (N * 20282409603651679431146506027009))
        with (N * T * 20282409603651679431146506027009) by ring.
      lia. }
    apply Z.mul_le_mono_pos_l in S3; [|exact HT].
    assert (S4 : (K + 1) * W = W * K + W) by ring.
    rewrite S4 in S3. lia. }
  assert (Lo : forall j, R < T * j ->
                         N * 20282409603651670423947251286016
                         < j * W * 20282409603651679431146506027009).
  { intros j Hj.
    assert (S2 : R * W * 20282409603651679431146506027009
                 < T * j * W * 20282409603651679431146506027009).
    { apply Z.mul_lt_mono_pos_r; [lia|].
      apply Z.mul_lt_mono_pos_r; [lia|exact Hj]. }
    assert (S3 : T * (N * 20282409603651670423947251286016)
                 < T * (j * W * 20282409603651679431146506027009)).
    { replace (T * (N * 20282409603651670423947251286016))
        with (N * T * 20282409603651670423947251286016) by ring.
      replace (T * (j * W * 20282409603651679431146506027009))
        with (T * j * W * 20282409603651679431146506027009) by ring.
      lia. }
    apply Z.mul_lt_mono_pos_l in S3; [exact S3|exact HT]. }
  split; [split; [|exact Up]|].
  - destruct (Z_le_gt_dec (K - 1) h) as [|G]; [assumption|exfalso].
    assert (Hj : R < T * (K - 1)) by nia.
    apply Lo in Hj.
    assert (S4 : (K - 1) * W = W * K - W) by ring.
    rewrite S4 in Hj. lia.
  - intros Hr. destruct (Z_le_gt_dec K h) as [|G]; [lia|exfalso].
    assert (Hj : R < T * K) by nia.
    apply Lo in Hj.
    assert (S4 : K * W = W * K) by ring.
    rewrite S4 in Hj. lia.
Qed.

(** The two values of one truncation: with and without a common factor. *)
Lemma int_value m e E :
  E <= e -> E <= 0 ->
  (if 0 <=? e then Zpos m * 2 ^ e else Zpos m / 2 ^ (- e))
  = (Zpos m * 2 ^ (e - E)) / 2 ^ (- E).
Proof.
  intros H1 H2.
  assert (PE : 0 < 2 ^ (- E)) by (apply Z.pow_pos_nonneg; lia).
  destruct (Z.leb_spec 0 e) as [P|N].
  - replace (e - E) with (e + - E) by lia. rewrite Z.pow_add_r by lia.
    rewrite Z.mul_assoc, Z.div_mul by lia. reflexivity.
  - assert (S : 2 ^ (- E) = 2 ^ (- e) * 2 ^ (e - E)).
    { rewrite <- Z.pow_add_r by lia. f_equal. lia. }
    assert (Pe : 0 < 2 ^ (e - E)) by (apply Z.pow_pos_nonneg; lia).
    rewrite S, Z.div_mul_cancel_r by lia. reflexivity.
Qed.

(** The ratio [960 / width]. *)
Lemma ratio_enclosure (W : positive) :
  960 < Zpos W < 2 ^ 31 ->
  exists mq eq e',
    SFdiv prec emax (S754_finite false 960 0) (S754_finite false W 0)
    = S754_finite false mq eq
    /\ bounded prec emax mq eq = true
    /\ -74 <= e' <= 0 /\ e' <= eq <= -42
    /\ Zpos mq * 2 ^ (eq - e') * Zpos W * 2 ^ 52 <= 960 * 2 ^ (- e') * (2 ^ 52 + 1)
    /\ 960 * 2 ^ (- e') * 2 ^ 52 < Zpos mq * 2 ^ (eq - e') * Zpos W * (2 ^ 52 + 1).
Proof.
  intros [HW1 HW2]. cbn [SFdiv].
  destruct (SFdiv_core_spec 960 W) as (q & r & e' & -> & He' & Hdiv & Hr & Hq & He).
  cbn [xorb].
  change (Zdigits2 960) with 10 in He'.
  assert (D1 : 10 <= Zdigits2 (Zpos W)).
  { apply (Zdigits2_ge (Zpos W) 9); [lia|]. change (2 ^ 9) with 512. lia. }
  assert (D2 : Zdigits2 (Zpos W) <= 31) by (apply Zdigits2_le; lia).
  rewrite fexp_eq in He'.
  assert (Be : -74 <= e' <= -53) by lia.
  assert (P53 : 2 ^ 53 <= 2 ^ (- e')) by (apply Z.pow_le_mono_r; lia).
  assert (P74 : 2 ^ (- e') <= 2 ^ 74) by (apply Z.pow_le_mono_r; lia).
  change (2 ^ 53) with 9007199254740992 in P53.
  change (2 ^ 31) with 2147483648 in HW2.
  assert (Pq : 0 < q) by nia.
  assert (Dq : Zdigits2 q <= 10 - e').
  { apply Zdigits2_le; [lia|lia|].
    replace (10 - e') with (10 + - e') by lia. rewrite Z.pow_add_r by lia.
    change (2 ^ 10) with 1024. nia. }
  pose proof (Zdigits2_pos q Pq) as Dq0.
  destruct (binary_round_aux_enclosure false q e' (new_location (Zpos W) r) Pq He
              ltac:(lia) ltac:(lia))
    as (m2 & e2 & E & L1 & L2 & U1 & U2).
  destruct (binary_round_aux_valid false q e' (new_location (Zpos W) r) Hq He) as [Hv _].
  rewrite E in *. cbn [valid_binary] in Hv.
  exists m2, e2, e'. split; [reflexivity|]. split; [exact Hv|].
  split; [lia|]. split; [rewrite fexp_eq in L2; lia|].
  set (P := Zpos m2 * 2 ^ (e2 - e')) in *.
  change (2 ^ 52) with 4503599627370496 in *.
  change (4503599627370496 + 1) with 4503599627370497 in *.
  split.
  - assert (S1 : P * 4503599627370496 * Zpos W <= q * 4503599627370497 * Zpos W).
    { apply Z.mul_le_mono_nonneg_r; [lia|exact U1]. }
    assert (S2 : q * 4503599627370497 * Zpos W = 4503599627370497 * (Zpos W * q)) by ring.
    assert (S3 : P * Zpos W * 4503599627370496 = P * 4503599627370496 * Zpos W) by ring.
    rewrite S3. rewrite S2 in S1. lia.
  - assert (S1 : (q + 1) * 4503599627370496 * Zpos W <= P * 4503599627370497 * Zpos W).
    { apply Z.mul_le_mono_nonneg_r; [lia|exact U2]. }
    assert (S2 : (q + 1) * 4503599627370496 * Zpos W
                 = 4503599627370496 * (Zpos W * q) + 4503599627370496 * Zpos W) by ring.
    assert (S3 : P * Zpos W * 4503599627370497 = P * 4503599627370497 * Zpos W) by ring.
    rewrite S3. rewrite S2 in S1. lia.
Qed.

(** X16.  For an image wider than 960 pixels (sizes below [2^31], as PIL
    has them) the size handed to [resize] is [(960, h)], computed without
    an error, where [h] is the whole part of [960 * height / width] or one
    less; it is the whole part whenever [960 * height / width] is not a
    whole number.  The float computation of line 62 can only fall one
    short when the exact quotient is a whole number. *)
Theorem downscale_height_within_one W H :
  960 < W < 2 ^ 31 -> 1 <= H < 2 ^ 31 ->
  exists h,
    downscale W H = inr (Some (960, h))
    /\ 960 * H / W - 1 <= h <= 960 * H / W
    /\ ((960 * H) mod W <> 0 -> h = 960 * H / W).
Proof.
  intros HW HH.
  destruct W as [|w|w]; try lia.
  unfold downscale, max_w.
  destruct (Z.ltb_spec 960 (Zpos w)) as [_|]; [|lia].
  unfold truediv.
  destruct (ratio_enclosure w HW) as (mq & eq & e' & -> & Bq & Be' & Beq & Uq & Lq).
  cbn [finite_float]. unfold int_mul_float.
  change (2 ^ 31) with 2147483648 in *.
  destruct (float_of_int_exact H ltac:(change (2 ^ 53) with 9007199254740992; lia))
    as (mH & eH & -> & BH & BeH & MH).
  unfold int. rewrite mul_spec.
  rewrite !Prim2SF_SF2Prim by assumption.
  unfold SF64mul. cbn [SFmul xorb].
  pose proof (mul_precondition mH eH mq eq BH Bq) as Pre.
  pose proof (mantissa_lt_2p53 _ _ BH) as LH.
  pose proof (mantissa_lt_2p53 _ _ Bq) as LQ.
  assert (Dm : Zdigits2 (Zpos (mH * mq)) <= 106).
  { apply Zdigits2_le; [lia|lia|]. rewrite Pos2Z.inj_mul.
    change (2 ^ 106) with (9007199254740992 * 9007199254740992). nia. }
  pose proof (Zdigits2_pos (Zpos (mH * mq)) ltac:(lia)) as Dm0.
  destruct (binary_round_aux_enclosure false (Zpos (mH * mq)) (eH + eq) loc_Exact
              ltac:(lia) Pre ltac:(lia) ltac:(lia))
    as (mp & ep & -> & L1 & _ & U1 & U2).
  cbn [cond_Zopp].
  exists (if 0 <=? ep then Zpos mp * 2 ^ ep else Zpos mp / 2 ^ (- ep)).
  split; [reflexivity|].
  rewrite (int_value mp ep (eH + e')) by lia.
  set (T := 2 ^ (- (eH + e'))).
  set (R := Zpos mp * 2 ^ (ep - (eH + e'))).
  set (Pp := Zpos mp * 2 ^ (ep - (eH + eq))) in *.
  set (Rq := Zpos mq * 2 ^ (eq - e')) in *.
  set (k := 2 ^ (eq - e')) in *.
  assert (Pk : 0 < k) by (apply Z.pow_pos_nonneg; lia).
  assert (ER : R = Pp * k).
  { unfold R, Pp, k. rewrite <- Z.mul_assoc, <- Z.pow_add_r by lia.
    f_equal. f_equal. lia. }
  assert (ET : T = 2 ^ (- eH) * 2 ^ (- e')).
  { unfold T. rewrite <- Z.pow_add_r by lia. f_equal. lia. }
  set (A := 2 ^ (- e')) in *. set (B := 2 ^ (- eH)) in *.
  assert (PA : 0 < A) by (apply Z.pow_pos_nonneg; lia).
  assert (PB : 0 < B) by (apply Z.pow_pos_nonneg; lia).
  rewrite Pos2Z.inj_mul in U1, U2.
  change (2 ^ 52) with 4503599627370496 in *.
  change (4503599627370496 + 1) with 4503599627370497 in *.
  assert (PR : 0 <= R) by (rewrite ER; unfold Pp; nia).
  assert (PT : 0 < T) by (rewrite ET; apply Z.mul_pos_pos; assumption).
  apply trunc_bounds; [exact PT|lia| |exact PR| |].
  - change (2 ^ 41) with 2199023255552. lia.
  - (* R * W * 2^104 <= N * T * c^2 *)
    change (2 ^ 104) with (4503599627370496 * 4503599627370496).
    change ((2 ^ 52 + 1) * (2 ^ 52 + 1)) with (4503599627370497 * 4503599627370497).
    assert (S1 : Pp * 4503599627370496 * k <= Zpos mH * Zpos mq * 4503599627370497 * k).
    { apply Z.mul_le_mono_nonneg_r; [lia|exact U1]. }
    assert (S2 : R * 4503599627370496 <= Zpos mH * 4503599627370497 * Rq).
    { rewrite ER. unfold Rq.
      replace (Pp * k * 4503599627370496) with (Pp * 4503599627370496 * k) by ring.
      replace (Zpos mH * 4503599627370497 * (Zpos mq * k))
        with (Zpos mH * Zpos mq * 4503599627370497 * k) by ring.
      exact S1. }
    assert (S3 : R * 4503599627370496 * (Zpos w * 4503599627370496)
                 <= Zpos mH * 4503599627370497 * Rq * (Zpos w * 4503599627370496)).
    { apply Z.mul_le_mono_nonneg_r; [lia|exact S2]. }
    assert (S4 : Zpos mH * 4503599627370497 * (Rq * Zpos w * 4503599627370496)
                 <= Zpos mH * 4503599627370497 * (960 * A * 4503599627370497)).
    { apply Z.mul_le_mono_nonneg_l; [lia|exact Uq]. }
    rewrite MH in S3, S4. rewrite ET.
    replace (R * Zpos w * (4503599627370496 * 4503599627370496))
      with (R * 4503599627370496 * (Zpos w * 4503599627370496)) by ring.
    replace (960 * H * (B * A) * (4503599627370497 * 4503599627370497))
      with (H * B * 4503599627370497 * (960 * A * 4503599627370497)) by ring.
    eapply Z.le_trans; [exact S3|].
    replace (H * B * 4503599627370497 * Rq * (Zpos w * 4503599627370496))
      with (H * B * 4503599627370497 * (Rq * Zpos w * 4503599627370496)) by ring.
    exact S4.
  - (* N * T * 2^104 < R * W * c^2 *)
    change (2 ^ 104) with (4503599627370496 * 4503599627370496).
    change ((2 ^ 52 + 1) * (2 ^ 52 + 1)) with (4503599627370497 * 4503599627370497).
    assert (S1 : Zpos mH * Zpos mq * 4503599627370496 * k <= Pp * 4503599627370497 * k).
    { apply Z.mul_le_mono_nonneg_r; [lia|]. lia. }
    assert (S2 : Zpos mH * 4503599627370496 * Rq <= R * 4503599627370497).
    { rewrite ER. unfold Rq.
      replace (Pp * k * 4503599627370497) with (Pp * 4503599627370497 * k) by ring.
      replace (Zpos mH * 4503599627370496 * (Zpos mq * k))
        with (Zpos mH * Zpos mq * 4503599627370496 * k) by ring.
      exact S1. }
    assert (S3 : Zpos mH * 4503599627370496 * Rq * (Zpos w * 4503599627370497)
                 <= R * 4503599627370497 * (Zpos w * 4503599627370497)).
    { apply Z.mul_le_mono_nonneg_r; [lia|exact S2]. }
    assert (S4 : Zpos mH * 4503599627370496 * (960 * A * 4503599627370496)
                 < Zpos mH * 4503599627370496 * (Rq * Zpos w * 4503599627370497)).
    { apply Z.mul_lt_mono_pos_l; [lia|exact Lq]. }
    rewrite MH in S3, S4. rewrite ET.
    replace (R * Zpos w * (4503599627370497 * 4503599627370497))
      with (R * 4503599627370497 * (Zpos w * 4503599627370497)) by ring.
    replace (960 * H * (B * A) * (4503599627370496 * 4503599627370496))
      with (H * B * 4503599627370496 * (960 * A * 4503599627370496)) by ring.
    eapply Z.lt_le_trans; [exact S4|].
    replace (H * B * 4503599627370496 * (Rq * Zpos w * 4503599627370497))
      with (H * B * 4503599627370496 * Rq * (Zpos w * 4503599627370497)) by ring.
    exact S3.
Qed.

Lemma downscale_height_within_one_witness :
  exists h,
    downscale 1074 1074 = inr (Some (960, h))
    /\ 960 * 1074 / 1074 - 1 <= h <= 960 * 1074 / 1074
    /\ ((960 * 1074) mod 1074 <> 0 -> h = 960 * 1074 / 1074).
Proof.
  apply (downscale_height_within_one 1074 1074); split;
    [reflexivity|reflexivity|discriminate|reflexivity].
Defined.

(** A square image 1074 pixels wide is made 959 pixels high, not 960:
    [960 / 1074] rounds down, and so does its product with 1074. *)
Example downscale_square_1074 :
  downscale 1074 1074 = inr (Some (960, 959)).
Proof. vm_compute. reflexivity. Qed.

End Downscale.

(** ** The order of the scores

    Rounding to nearest is monotone, and so is every operation of the
    score. *)

Section Location.

Local Open Scope Z_scope.

Lemma shr_1_located mrs N D :
  0 <= shr_m mrs ->
  located (shr_m mrs) (loc_of_shr_record mrs) N D ->
  located (shr_m (shr_1 mrs)) (loc_of_shr_record (shr_1 mrs)) N (2 * D).
Proof.
  destruct mrs as [m r s]. cbn [shr_m]. intros Hm (HD & HN & Hl).
  unfold located.
  destruct m as [|[p|p|]|p]; try lia;
    destruct r, s; cbn [shr_1 shr_m loc_of_shr_record orb] in *;
    try rewrite (Pos2Z.inj_xI p) in *; try rewrite (Pos2Z.inj_xO p) in *; lia.
Qed.

Lemma iter_shr_nonneg p : forall mrs,
  0 <= shr_m mrs -> 0 <= shr_m (iter_pos shr_1 p mrs).
Proof.
  intros mrs H. rewrite iter_shr_m by assumption.
  apply Z.div_pos; [assumption|apply Z.pow_pos_nonneg; lia].
Qed.

Lemma iter_shr_located p : forall mrs N D,
  0 <= shr_m mrs ->
  located (shr_m mrs) (loc_of_shr_record mrs) N D ->
  located (shr_m (iter_pos shr_1 p mrs)) (loc_of_shr_record (iter_pos shr_1 p mrs))
    N (D * 2 ^ Zpos p).
Proof.
  induction p as [p IH|p IH|]; intros mrs N D Hm H; cbn [iter_pos].
  - replace (D * 2 ^ Zpos p~1) with (2 * D * 2 ^ Zpos p * 2 ^ Zpos p).
    2: { assert (E : 2 ^ Zpos p~1 = 2 * (2 ^ Zpos p * 2 ^ Zpos p)).
         { rewrite Pos2Z.inj_xI, <- Z.pow_add_r, <- Z.pow_succ_r by lia. f_equal. lia. }
         rewrite E. ring. }
    apply IH; [apply iter_shr_nonneg, shr_1_nonneg; assumption|].
    apply IH; [apply shr_1_nonneg; assumption|].
    apply shr_1_located; assumption.
  - replace (D * 2 ^ Zpos p~0) with (D * 2 ^ Zpos p * 2 ^ Zpos p).
    2: { assert (E : 2 ^ Zpos p~0 = 2 ^ Zpos p * 2 ^ Zpos p).
         { rewrite Pos2Z.inj_xO, <- Z.pow_add_r by lia. f_equal. lia. }
         rewrite E. ring. }
    apply IH; [apply iter_shr_nonneg; assumption|].
    apply IH; assumption.
  - change (2 ^ 1) with 2. rewrite Z.mul_comm. apply shr_1_located; assumption.
Qed.

Lemma located_shr_record_of_loc m l N D :
  located m l N D ->
  located (shr_m (shr_record_of_loc m l)) (loc_of_shr_record (shr_record_of_loc m l)) N D.
Proof. rewrite shr_record_of_loc_m, loc_of_shr_record_of_loc. trivial. Qed.

Lemma shr_fexp_located m e l N D mrs e1 :
  0 <= m -> e <= fexp prec emax (Zdigits2 m + e) ->
  located m l N D ->
  shr_fexp prec emax m e l = (mrs, e1) ->
  located (shr_m mrs) (loc_of_shr_record mrs) N (D * 2 ^ (e1 - e)).
Proof.
  intros Hm He HL. unfold shr_fexp, shr.
  destruct (fexp prec emax (Zdigits2 m + e) - e) as [|p|p] eqn:Hk; intros E;
    injection E as <- <-.
  - rewrite Z.sub_diag, Z.pow_0_r, Z.mul_1_r. apply located_shr_record_of_loc, HL.
  - replace (e + Zpos p - e) with (Zpos p) by lia.
    apply iter_shr_located; [rewrite shr_record_of_loc_m; assumption|].
    apply located_shr_record_of_loc, HL.
  - lia.
Qed.

Lemma rne_nearest m l N D :
  located m l N D -> nearest_even (round_nearest_even m l) N D.
Proof.
  intros (HD & HN & Hl). unfold nearest_even.
  destruct l as [|[]]; cbn [round_nearest_even].
  - repeat split; try lia.
  - repeat split; try lia.
    destruct (Z.even m) eqn:Ev; [lia|]. lia.
    destruct (Z.even m) eqn:Ev; [lia|]. lia.
    destruct (Z.even m) eqn:Ev; [intros; assumption|].
    intros _. replace (m + 1) with (Z.succ m) by lia.
    rewrite Z.even_succ, <- Z.negb_even, Ev. reflexivity.
    destruct (Z.even m) eqn:Ev; [intros; assumption|]. intros; lia.
  - repeat split; try lia.
  - repeat split; try lia.
Qed.

Lemma nearest_mono r N D r' N' D' :
  0 < D -> 0 < D' ->
  nearest_even r N D -> nearest_even r' N' D' ->
  N * D' <= N' * D -> r <= r'.
Proof.
  intros HD HD' ([L _] & Tl & _) ([_ U'] & _ & Tu') H.
  destruct (Z_le_gt_dec r r') as [|G]; [assumption|exfalso].
  assert (S1 : (2 * r - 1) * D * D' <= 2 * N * D').
  { apply Z.mul_le_mono_nonneg_r; lia. }
  assert (S2 : 2 * N' * D <= (2 * r' + 1) * D' * D).
  { apply Z.mul_le_mono_nonneg_r; lia. }
  assert (P : 0 < D * D') by (apply Z.mul_pos_pos; assumption).
  assert (S3 : (2 * r - 1) * (D * D') <= (2 * r' + 1) * (D * D')).
  { replace ((2 * r - 1) * (D * D')) with ((2 * r - 1) * D * D') by ring.
    replace ((2 * r' + 1) * (D * D')) with ((2 * r' + 1) * D' * D) by ring.
    lia. }
  apply Z.mul_le_mono_pos_r in S3; [|exact P].
  assert (E : r = r' + 1) by lia.
  assert (E1 : (2 * r - 1) * D * D' = 2 * N * D').
  { replace ((2 * r' + 1) * D' * D) with ((2 * r - 1) * D * D') in S2
      by (rewrite E; ring). lia. }
  assert (E2 : 2 * N' * D = (2 * r' + 1) * D' * D).
  { replace ((2 * r - 1) * D * D') with ((2 * r' + 1) * D' * D) in S1
      by (rewrite E; ring). lia. }
  apply Z.mul_cancel_r in E1; [|lia]. apply Z.mul_cancel_r in E2; [|lia].
  pose proof (Tl (eq_sym E1)) as Ev. pose proof (Tu' E2) as Ev'.
  rewrite E in Ev. replace (r' + 1) with (Z.succ r') in Ev by lia.
  rewrite Z.even_succ, <- Z.negb_even, Ev' in Ev. discriminate.
Qed.

End Location.

Section Monotone.

Local Open Scope Z_scope.

Lemma pow_shift_le a b u v u' v' :
  0 <= u -> 0 <= v -> 0 <= u' -> 0 <= v' -> u + v' = v + u' ->
  a * 2 ^ u <= b * 2 ^ v -> a * 2 ^ u' <= b * 2 ^ v'.
Proof.
  intros Hu Hv Hu' Hv' E H.
  destruct (Z_le_gt_dec u u') as [L|G].
  - replace u' with (u + (u' - u)) by lia. replace v' with (v + (u' - u)) by lia.
    apply pow_expand_le; [lia|lia|lia|exact H].
  - apply (pow_cancel_le _ _ _ _ (u - u')); [lia|lia|lia|].
    replace (u' + (u - u')) with u by lia. replace (v' + (u - u')) with v by lia.
    exact H.
Qed.

(** What [binary_round_aux] returns: the integer nearest to the value in
    units of [2^e1], as a float. *)
Lemma binary_round_aux_decomp m e l N D :
  0 <= m -> e <= fexp prec emax (Zdigits2 m + e) -> located m l N D ->
  exists e1 r,
    e1 = fexp prec emax (Zdigits2 m + e)
    /\ nearest_even r N (D * 2 ^ (e1 - e))
    /\ 0 <= r <= 2 ^ 53
    /\ (-1074 < e1 -> 2 ^ 52 <= r)
    /\ binary_round_aux prec emax false m e l = float_of r e1.
Proof.
  intros Hm He HL.
  destruct (binary_round_aux_shape false m e l Hm He)
    as (mrs1 & e1 & mrs2 & e2 & H1 & He1 & Hm1 & _ & _ & _ & He12 & Hm2 & Hp2 & Hc2 & He2 & ->).
  destruct (shr_fexp_canonical m e l Hm He)
    as (mrs1' & e1' & H1' & _ & _ & Hp1 & Hc1 & _).
  rewrite H1 in H1'. injection H1' as <- <-.
  pose proof (shr_fexp_located m e l N D mrs1 e1 Hm He HL H1) as L1.
  apply rne_nearest in L1.
  set (m1 := shr_m mrs1) in *.
  set (r := round_nearest_even m1 (loc_of_shr_record mrs1)) in *.
  assert (R : r = m1 \/ r = m1 + 1) by apply round_nearest_even_cases.
  rewrite fexp_eq in Hc1.
  assert (D1 : Zdigits2 m1 <= 53) by lia.
  assert (B1 : m1 < 2 ^ 53).
  { destruct (Z.eq_dec m1 0) as [->|Ne]; [reflexivity|].
    pose proof (Zdigits2_bounds m1 ltac:(lia)) as [_ U].
    assert (2 ^ Zdigits2 m1 <= 2 ^ 53) by (apply Z.pow_le_mono_r; lia). lia. }
  assert (B2 : -1074 < e1 -> 2 ^ 52 <= m1).
  { intros G. assert (E53 : Zdigits2 m1 = 53) by lia.
    destruct (Z.eq_dec m1 0) as [E0|Ne]; [rewrite E0 in E53; discriminate E53|].
    pose proof (Zdigits2_bounds m1 ltac:(lia)) as [L _]. rewrite E53 in L. exact L. }
  change (2 ^ 53) with 9007199254740992 in *.
  change (2 ^ 52) with 4503599627370496 in *.
  exists e1, r. split; [exact He1|]. split; [exact L1|].
  split; [lia|]. split; [intros G; specialize (B2 G); lia|].
  unfold float_of.
  change (2 ^ 53) with 9007199254740992. change (2 ^ 52) with 4503599627370496.
  destruct (Z.ltb_spec r 9007199254740992) as [Lt|Ge].
  - assert (E2 : e2 = e1).
    { rewrite He2, fexp_eq.
      destruct (Z.eq_dec r 0) as [->|Ne]; [simpl Zdigits2; lia|].
      assert (Zdigits2 r <= 53).
      { apply Zdigits2_le; lia. }
      pose proof (Zdigits2_mono m1 r ltac:(lia)). lia. }
    rewrite E2, Z.sub_diag, Z.pow_0_r, Z.div_1_r in Hm2. rewrite Hm2, E2.
    destruct r as [|p|p]; [reflexivity| |lia].
    cbn [Z.eqb Z.to_pos]. reflexivity.
  - assert (Er : r = 9007199254740992) by lia.
    assert (E2 : e2 = e1 + 1).
    { rewrite He2, fexp_eq, Er.
      change (Zdigits2 9007199254740992) with 54. lia. }
    rewrite E2 in Hm2. replace (e1 + 1 - e1) with 1 in Hm2 by lia.
    rewrite Hm2, E2, Er. reflexivity.
Qed.

Lemma float_of_le r e r' e' :
  0 <= r <= 2 ^ 53 -> 0 <= r' <= 2 ^ 53 ->
  (e = e' /\ r <= r') \/ (e < e' /\ 2 ^ 52 <= r') ->
  SFleb (float_of r e) (float_of r' e') = true.
Proof.
  change (2 ^ 53) with 9007199254740992. change (2 ^ 52) with 4503599627370496.
  intros Hr Hr' H. unfold float_of.
  change (2 ^ 53) with 9007199254740992. change (2 ^ 52) with 4503599627370496.
  change (emax - prec) with 971.
  change (Z.to_pos 4503599627370496) with 4503599627370496%positive.
  destruct (Z.eqb_spec r 0) as [E0|N0].
  { destruct (Z.eqb_spec r' 0); [reflexivity|].
    destruct (r' <? 9007199254740992);
      [destruct (e' <=? 971)|destruct (e' + 1 <=? 971)]; reflexivity. }
  destruct (Z.eqb_spec r' 0) as [E0'|N0']; [lia|].
  destruct (Z.ltb_spec r 9007199254740992) as [L|G];
    destruct (Z.ltb_spec r' 9007199254740992) as [L'|G'].
  - destruct (Z.leb_spec e' 971) as [A'|A'].
    + destruct (Z.leb_spec e 971) as [A|A]; [|lia].
      apply SFleb_finite_le. rewrite !Z2Pos.id by lia. lia.
    + destruct (e <=? 971); reflexivity.
  - destruct (Z.leb_spec (e' + 1) 971) as [A'|A'].
    + destruct (Z.leb_spec e 971) as [A|A]; [|lia].
      apply SFleb_finite_le. rewrite !Z2Pos.id by lia. lia.
    + destruct (e <=? 971); reflexivity.
  - destruct (Z.leb_spec e' 971) as [A'|A'].
    + destruct (Z.leb_spec (e + 1) 971) as [A|A]; [|lia].
      apply SFleb_finite_le. rewrite !Z2Pos.id by lia. lia.
    + destruct (e + 1 <=? 971); reflexivity.
  - destruct (Z.leb_spec (e' + 1) 971) as [A'|A'].
    + destruct (Z.leb_spec (e + 1) 971) as [A|A]; [|lia].
      apply SFleb_finite_le. lia.
    + destruct (e + 1 <=? 971); reflexivity.
Qed.

(** Rounding is monotone: of two values, the smaller has the smaller
    rounding. *)
Lemma binary_round_aux_mono m e l N D m' e' l' N' D' K :
  0 <= m -> 0 <= m' ->
  e <= fexp prec emax (Zdigits2 m + e) -> e' <= fexp prec emax (Zdigits2 m' + e') ->
  located m l N D -> located m' l' N' D' ->
  0 <= e + K -> 0 <= e' + K ->
  N * D' * 2 ^ (e + K) <= N' * D * 2 ^ (e' + K) ->
  SFleb (binary_round_aux prec emax false m e l)
        (binary_round_aux prec emax false m' e' l') = true.
Proof.
  intros Hm Hm' He He' HL HL' HK HK' H.
  destruct (binary_round_aux_decomp m e l N D Hm He HL)
    as (e1 & r & E1 & Nr & Br & Lr & ->).
  destruct (binary_round_aux_decomp m' e' l' N' D' Hm' He' HL')
    as (e1' & r' & E1' & Nr' & Br' & Lr' & ->).
  apply float_of_le; [exact Br|exact Br'|].
  destruct HL as (PD & BN & _). destruct HL' as (PD' & BN' & _).
  rewrite fexp_eq in He, He', E1, E1'.
  destruct (Z.lt_trichotomy e1 e1') as [L|[E|G]].
  - right. split; [exact L|]. apply Lr'. lia.
  - left. split; [exact E|].
    assert (P1 : 0 < 2 ^ (e1 - e)) by (apply Z.pow_pos_nonneg; lia).
    assert (P1' : 0 < 2 ^ (e1' - e')) by (apply Z.pow_pos_nonneg; lia).
    apply (nearest_mono r N (D * 2 ^ (e1 - e)) r' N' (D' * 2 ^ (e1' - e')));
      try assumption; try (apply Z.mul_pos_pos; assumption).
    rewrite !Z.mul_assoc.
    apply (pow_shift_le _ _ (e + K) (e' + K)); [lia|lia|lia|lia|lia|exact H].
  - exfalso.
    assert (P : 0 < 2 ^ (e + K)) by (apply Z.pow_pos_nonneg; lia).
    assert (P' : 0 < 2 ^ (e' + K)) by (apply Z.pow_pos_nonneg; lia).
    assert (S1 : m * D * (D' * 2 ^ (e + K)) <= N * (D' * 2 ^ (e + K))).
    { apply Z.mul_le_mono_nonneg_r; [|lia]. apply Z.lt_le_incl, Z.mul_pos_pos; assumption. }
    assert (S2 : N' * (D * 2 ^ (e' + K)) < (m' + 1) * D' * (D * 2 ^ (e' + K))).
    { apply Z.mul_lt_mono_pos_r; [|lia]. apply Z.mul_pos_pos; assumption. }
    assert (S3 : m * 2 ^ (e + K) * (D * D') < (m' + 1) * 2 ^ (e' + K) * (D * D')).
    { replace (m * 2 ^ (e + K) * (D * D')) with (m * D * (D' * 2 ^ (e + K))) by ring.
      replace ((m' + 1) * 2 ^ (e' + K) * (D * D'))
        with ((m' + 1) * D' * (D * 2 ^ (e' + K))) by ring.
      replace (N * (D' * 2 ^ (e + K))) with (N * D' * 2 ^ (e + K)) in S1 by ring.
      replace (N' * (D * 2 ^ (e' + K))) with (N' * D * 2 ^ (e' + K)) in S2 by ring.
      lia. }
    apply Z.mul_lt_mono_pos_r in S3; [|apply Z.mul_pos_pos; assumption].
    assert (Pm : 0 < m).
    { destruct (Z.eq_dec m 0) as [E0|]; [|lia]. rewrite E0 in *. simpl Zdigits2 in *. lia. }
    pose proof (Zdigits2_bounds m Pm) as [Lm _].
    pose proof (Zdigits2_pos m Pm) as Dm.
    pose proof (Zdigits2_nonneg m') as Dm'.
    assert (Um' : m' + 1 <= 2 ^ Zdigits2 m').
    { destruct (Z.eq_dec m' 0) as [E0|]; [rewrite E0; simpl; lia|].
      pose proof (Zdigits2_bounds m' ltac:(lia)). lia. }
    assert (S4 : 2 ^ (Zdigits2 m - 1 + (e + K)) <= m * 2 ^ (e + K)).
    { rewrite (Z.pow_add_r 2 (Zdigits2 m - 1) (e + K)) by lia.
      apply Z.mul_le_mono_nonneg_r; lia. }
    assert (S5 : (m' + 1) * 2 ^ (e' + K) <= 2 ^ (Zdigits2 m' + (e' + K))).
    { rewrite (Z.pow_add_r 2 (Zdigits2 m') (e' + K)) by lia.
      apply Z.mul_le_mono_nonneg_r; lia. }
    assert (S6 : 2 ^ (Zdigits2 m - 1 + (e + K)) < 2 ^ (Zdigits2 m' + (e' + K))) by lia.
    apply Z.pow_lt_mono_r_iff in S6; lia.
Qed.

End Monotone.

Section Roundings.

Local Open Scope Z_scope.

Lemma SFleb_zero_l s R : SFleb (S754_zero s) R = SFleb (S754_zero false) R.
Proof. destruct R as [[]|[]| |[] m e]; reflexivity. Qed.

Lemma SFleb_zero_r s R : SFleb R (S754_zero s) = SFleb R (S754_zero false).
Proof. destruct R as [[]|[]| |[] m e]; reflexivity. Qed.

Lemma zero_rounding : S754_zero false = binary_round_aux prec emax false 0 (-1074) loc_Exact.
Proof. reflexivity. Qed.

Lemma located_exact m : located m loc_Exact m 1.
Proof. unfold located. lia. Qed.

(** The roundings of two values are in the order of the values. *)
Lemma rounding_le R A B R' A' B' :
  rounding_of R A B -> rounding_of R' A' B' -> A * B' <= A' * B ->
  SFleb R R' = true.
Proof.
  assert (Core : forall m e l N D K m' e' l' N' D' K' A B A' B',
    0 < B -> 0 < B' ->
    0 <= m -> e <= fexp prec emax (Zdigits2 m + e) -> located m l N D ->
    0 <= e + K -> 1074 <= K -> N * B * 2 ^ (e + K) = A * D * 2 ^ (K - 1074) ->
    0 <= m' -> e' <= fexp prec emax (Zdigits2 m' + e') -> located m' l' N' D' ->
    0 <= e' + K' -> 1074 <= K' -> N' * B' * 2 ^ (e' + K') = A' * D' * 2 ^ (K' - 1074) ->
    A * B' <= A' * B ->
    SFleb (binary_round_aux prec emax false m e l)
          (binary_round_aux prec emax false m' e' l') = true).
  { clear. intros m e l N D K m' e' l' N' D' K' A B A' B'
      PB PB' Hm He HL HK HK1 E Hm' He' HL' HK' HK1' E' H.
    apply (binary_round_aux_mono m e l N D m' e' l' N' D' (K + K'));
      try assumption; try lia.
    pose proof HL as (PD & _). pose proof HL' as (PD' & _).
    assert (X : N * B * 2 ^ (e + (K + K')) = A * D * 2 ^ (K + K' - 1074)).
    { replace (e + (K + K')) with (e + K + K') by lia.
      replace (K + K' - 1074) with (K - 1074 + K') by lia.
      rewrite (Z.pow_add_r 2 (e + K) K'), (Z.pow_add_r 2 (K - 1074) K') by lia.
      rewrite !Z.mul_assoc, E. reflexivity. }
    assert (X' : N' * B' * 2 ^ (e' + (K + K')) = A' * D' * 2 ^ (K + K' - 1074)).
    { replace (e' + (K + K')) with (e' + K' + K) by lia.
      replace (K + K' - 1074) with (K' - 1074 + K) by lia.
      rewrite (Z.pow_add_r 2 (e' + K') K), (Z.pow_add_r 2 (K' - 1074) K) by lia.
      rewrite !Z.mul_assoc, E'. reflexivity. }
    set (c := 2 ^ (K + K' - 1074)) in *.
    assert (Pc : 0 < c) by (apply Z.pow_pos_nonneg; lia).
    set (u := 2 ^ (e + (K + K'))) in *. set (u' := 2 ^ (e' + (K + K'))) in *.
    assert (S1 : A * B' * (D * D' * c) <= A' * B * (D * D' * c)).
    { apply Z.mul_le_mono_nonneg_r; [|exact H].
      apply Z.lt_le_incl, Z.mul_pos_pos; [apply Z.mul_pos_pos|]; assumption. }
    assert (S2 : N * D' * u * (B * B') <= N' * D * u' * (B * B')).
    { replace (N * D' * u * (B * B')) with (N * B * u * (D' * B')) by ring.
      replace (N' * D * u' * (B * B')) with (N' * B' * u' * (D * B)) by ring.
      rewrite X, X'.
      replace (A * D * c * (D' * B')) with (A * B' * (D * D' * c)) by ring.
      replace (A' * D' * c * (D * B)) with (A' * B * (D * D' * c)) by ring.
      exact S1. }
    apply Z.mul_le_mono_pos_r in S2; [exact S2|apply Z.mul_pos_pos; assumption]. }
  intros (PA & PB & HR) (PA' & PB' & HR') H.
  destruct HR as [[EA [s ->]]|(m & e & l & N & D & K & Hm & He & HL & -> & HK & HK1 & E)];
    destruct HR' as [[EA' [s' ->]]|(m' & e' & l' & N' & D' & K' & Hm' & He' & HL' & -> & HK' & HK1' & E')].
  - destruct s, s'; reflexivity.
  - rewrite SFleb_zero_l, zero_rounding.
    apply (Core 0 (-1074) loc_Exact 0 1 1074 m' e' l' N' D' K' A B A' B');
      try assumption; try lia; try reflexivity; try apply located_exact.
  - rewrite SFleb_zero_r, zero_rounding.
    apply (Core m e l N D K 0 (-1074) loc_Exact 0 1 1074 A B A' B');
      try assumption; try lia; try reflexivity; try apply located_exact.
  - apply (Core m e l N D K m' e' l' N' D' K' A B A' B'); assumption.
Qed.

(** A float of the format is its own rounding. *)
Lemma binary_round_aux_id m e :
  bounded prec emax m e = true ->
  binary_round_aux prec emax false (Zpos m) e loc_Exact = S754_finite false m e.
Proof.
  intros Bd.
  destruct (bounded_canonical _ _ Bd) as (C & Le & L & _).
  pose proof (mantissa_lt_2p53 _ _ Bd) as U.
  destruct (binary_round_aux_decomp (Zpos m) e loc_Exact (Zpos m) 1
              ltac:(lia) ltac:(lia) (located_exact _))
    as (e1 & r & E1 & ((N1 & N2) & _) & Br & _ & ->).
  rewrite C in E1. subst e1.
  rewrite Z.sub_diag, Z.pow_0_r in N1, N2.
  assert (Er : r = Zpos m) by lia. subst r.
  unfold float_of. change (2 ^ 53) with 9007199254740992.
  destruct (Z.ltb_spec (Zpos m) 9007199254740992); [|lia].
  destruct (Z.leb_spec e (emax - prec)); [|lia].
  reflexivity.
Qed.

Lemma nnf_rounding x : nnf x -> rounding_of x (scaled x) 1.
Proof.
  intros Nx. split; [apply scaled_nonneg|]. split; [lia|].
  destruct x as [s|s| |[] m e]; cbn [nnf] in Nx; try contradiction.
  - left. split; [reflexivity|]. exists s. reflexivity.
  - right. destruct (bounded_canonical _ _ Nx) as (C & _ & L & _).
    exists (Zpos m), e, loc_Exact, (Zpos m), 1, 1074.
    split; [lia|]. split; [lia|]. split; [apply located_exact|].
    split; [symmetry; apply binary_round_aux_id; exact Nx|].
    split; [lia|]. split; [lia|].
    cbn [scaled]. change (1074 - 1074) with 0. rewrite Z.pow_0_r. ring.
Qed.

(** [binary_round] rounds the value of its mantissa and exponent. *)
Lemma binary_round_rounding m e :
  -1074 <= e ->
  rounding_of (binary_round prec emax false m e) (Zpos m * 2 ^ (e + 1074)) 1.
Proof.
  intros He.
  assert (P : 0 < 2 ^ (e + 1074)) by (apply Z.pow_pos_nonneg; lia).
  split; [nia|]. split; [lia|]. right.
  destruct (binary_round_shape false m e) as (m' & e' & -> & E' & M' & P').
  assert (L' : -1074 <= e' <= e) by (rewrite E', fexp_eq; lia).
  exists (Zpos m'), e', loc_Exact, (Zpos m'), 1, 1074.
  split; [lia|]. split; [exact P'|]. split; [apply located_exact|].
  split; [reflexivity|]. split; [lia|]. split; [lia|].
  change (1074 - 1074) with 0. rewrite Z.pow_0_r, M'.
  replace (e + 1074) with (e - e' + (e' + 1074)) by lia.
  rewrite (Z.pow_add_r 2 (e - e') (e' + 1074)) by lia. ring.
Qed.

Lemma SFadd_rounding x y :
  nnf x -> nnf y -> rounding_of (SFadd prec emax x y) (scaled x + scaled y) 1.
Proof.
  intros Nx Ny.
  pose proof (scaled_nonneg x) as Px. pose proof (scaled_nonneg y) as Py.
  destruct x as [sx|sx| |[] mx ex], y as [sy|sy| |[] my ey];
    cbn [nnf] in Nx, Ny; try contradiction.
  - split; [cbn [scaled]; lia|]. split; [lia|]. left. split; [reflexivity|].
    destruct sx, sy; cbn [SFadd]; eauto.
  - cbn [SFadd]. change (scaled (S754_zero sx)) with 0. rewrite Z.add_0_l.
    apply nnf_rounding. exact Ny.
  - cbn [SFadd]. change (scaled (S754_zero sy)) with 0. rewrite Z.add_0_r.
    apply nnf_rounding. exact Nx.
  - destruct (bounded_canonical _ _ Nx) as (_ & _ & Lx & _).
    destruct (bounded_canonical _ _ Ny) as (_ & _ & Ly & _).
    cbn [SFadd cond_Zopp].
    destruct (aligned_sum mx ex my ey Lx Ly) as [Ax Ay].
    set (ez := Z.min ex ey) in *.
    set (px := fst (shl_align mx ex ez)) in *.
    set (py := fst (shl_align my ey ez)) in *.
    change (Zpos px + Zpos py) with (Zpos (px + py)).
    cbn [binary_normalize scaled].
    rewrite <- Ax, <- Ay, <- Z.mul_add_distr_r, <- Pos2Z.inj_add.
    apply binary_round_rounding. unfold ez. lia.
Qed.

Lemma SFsub_rounding x y :
  nnf x -> nnf y -> scaled y <= scaled x ->
  rounding_of (SFsub prec emax x y) (scaled x - scaled y) 1.
Proof.
  intros Nx Ny Hyx.
  pose proof (scaled_nonneg x) as Px. pose proof (scaled_nonneg y) as Py.
  destruct x as [sx|sx| |[] mx ex], y as [sy|sy| |[] my ey];
    cbn [nnf] in Nx, Ny; try contradiction.
  - split; [cbn [scaled]; lia|]. split; [lia|]. left. split; [reflexivity|].
    destruct sx, sy; cbn [SFsub]; eauto.
  - exfalso. pose proof (scaled_pos my ey Ny). cbn [scaled] in *. lia.
  - cbn [SFsub]. change (scaled (S754_zero sy)) with 0. rewrite Z.sub_0_r.
    apply nnf_rounding. exact Nx.
  - destruct (bounded_canonical _ _ Nx) as (_ & _ & Lx & _).
    destruct (bounded_canonical _ _ Ny) as (_ & _ & Ly & _).
    cbn [SFsub cond_Zopp].
    destruct (aligned_sum mx ex my ey Lx Ly) as [Ax Ay].
    set (ez := Z.min ex ey) in *.
    set (px := fst (shl_align mx ex ez)) in *.
    set (py := fst (shl_align my ey ez)) in *.
    cbn [scaled] in Hyx |- *. rewrite <- Ax, <- Ay in Hyx |- *.
    assert (Pz : 0 < 2 ^ (ez + 1074)) by (apply Z.pow_pos_nonneg; unfold ez; lia).
    rewrite <- Z.mul_sub_distr_r.
    destruct (Zpos px - Zpos py) as [|p|p] eqn:E; cbn [binary_normalize].
    + split; [lia|]. split; [lia|]. left. split; [reflexivity|]. eauto.
    + apply binary_round_rounding. unfold ez. lia.
    + exfalso. assert (Zpos px < Zpos py) by lia. nia.
Qed.

Lemma SFmul_rounding x y :
  nnf x -> nnf y ->
  rounding_of (SFmul prec emax x y) (scaled x * scaled y) (2 ^ 1074).
Proof.
  intros Nx Ny.
  pose proof (scaled_nonneg x) as Px. pose proof (scaled_nonneg y) as Py.
  assert (P74 : 0 < 2 ^ 1074) by (apply Z.pow_pos_nonneg; lia).
  split; [apply Z.mul_nonneg_nonneg; assumption|]. split; [exact P74|].
  destruct x as [sx|sx| |[] mx ex], y as [sy|sy| |[] my ey];
    cbn [nnf] in Nx, Ny; try contradiction;
    try (left; cbn [SFmul scaled]; split; [ring|eauto]).
  right.
  destruct (bounded_canonical _ _ Nx) as (_ & _ & Lx & _).
  destruct (bounded_canonical _ _ Ny) as (_ & _ & Ly & _).
  cbn [SFmul xorb scaled].
  exists (Zpos (mx * my)), (ex + ey), loc_Exact, (Zpos (mx * my)), 1, 2148.
  split; [lia|]. split; [apply mul_precondition; assumption|].
  split; [apply located_exact|]. split; [reflexivity|].
  split; [lia|]. split; [lia|].
  change (2148 - 1074) with 1074.
  replace (ex + ey + 2148) with ((ex + 1074) + (ey + 1074)) by lia.
  rewrite (Z.pow_add_r 2 (ex + 1074) (ey + 1074)), Pos2Z.inj_mul by lia. ring.
Qed.

Lemma new_location_located d q r N :
  0 < d -> 0 <= r < d -> N = d * q + r ->
  located q (new_location d r) N d.
Proof.
  intros Hd Hr ->. unfold located.
  split; [exact Hd|]. split; [lia|].
  unfold new_location, new_location_even, new_location_odd.
  destruct (Z.even d) eqn:Ev.
  - destruct (Z.eqb_spec r 0) as [->|Nr]; [lia|].
    destruct (Z.compare_spec (2 * r) d); lia.
  - destruct (Z.eqb_spec r 0) as [->|Nr]; [lia|].
    assert (Od : Z.odd d = true) by (rewrite <- Z.negb_even, Ev; reflexivity).
    apply Z.odd_spec in Od. destruct Od as [h Eh].
    destruct (Z.compare_spec (2 * r + 1) d); lia.
Qed.

(** The quotient of two positive values. *)
Lemma SFdiv_rounding_general mx ex my ey J :
  0 <= ex + 1074 + J -> 0 <= ey + J ->
  rounding_of (SFdiv prec emax (S754_finite false mx ex) (S754_finite false my ey))
    (Zpos mx * 2 ^ (ex + 1074 + J)) (Zpos my * 2 ^ (ey + J)).
Proof.
  intros H1 H2.
  assert (P1 : 0 < 2 ^ (ex + 1074 + J)) by (apply Z.pow_pos_nonneg; lia).
  assert (P2 : 0 < 2 ^ (ey + J)) by (apply Z.pow_pos_nonneg; lia).
  split; [nia|]. split; [nia|]. right.
  cbn [SFdiv xorb].
  destruct (SFdiv_core_general mx my ex ey) as (q & r & e' & -> & He' & Hdiv & Hr & Hq & He).
  set (K := 1074 + Z.max 0 (- e')).
  exists q, e', (new_location (Zpos my) r), (Zpos mx * 2 ^ (ex - ey - e')), (Zpos my), K.
  split; [exact Hq|]. split; [exact He|].
  split; [apply new_location_located; [lia|exact Hr|exact Hdiv]|].
  split; [reflexivity|]. split; [unfold K; lia|]. split; [unfold K; lia|].
  assert (Le : e' <= ex - ey) by lia.
  replace (Zpos mx * 2 ^ (ex - ey - e') * (Zpos my * 2 ^ (ey + J)) * 2 ^ (e' + K))
    with (Zpos mx * Zpos my * (2 ^ (ex - ey - e') * 2 ^ (ey + J) * 2 ^ (e' + K))) by ring.
  replace (Zpos mx * 2 ^ (ex + 1074 + J) * Zpos my * 2 ^ (K - 1074))
    with (Zpos mx * Zpos my * (2 ^ (ex + 1074 + J) * 2 ^ (K - 1074))) by ring.
  f_equal.
  rewrite <- !Z.pow_add_r by (unfold K; lia). f_equal. lia.
Qed.

Lemma SFdiv_rounding x y :
  nnf x -> nnf y -> 0 < scaled y ->
  rounding_of (SFdiv prec emax x y) (scaled x * 2 ^ 1074) (scaled y).
Proof.
  intros Nx Ny Py.
  assert (P74 : 0 < 2 ^ 1074) by (apply Z.pow_pos_nonneg; lia).
  destruct y as [sy|sy| |[] my ey]; cbn [nnf scaled] in Ny, Py; try contradiction; try lia.
  destruct (bounded_canonical _ _ Ny) as (_ & _ & Ly & _).
  destruct x as [sx|sx| |[] mx ex]; cbn [nnf] in Nx; try contradiction.
  - split; [cbn [scaled]; lia|]. split; [cbn [scaled]; lia|].
    left. split; [reflexivity|]. cbn [SFdiv]. eauto.
  - destruct (bounded_canonical _ _ Nx) as (_ & _ & Lx & _).
    cbn [scaled].
    replace (Zpos mx * 2 ^ (ex + 1074) * 2 ^ 1074) with (Zpos mx * 2 ^ (ex + 1074 + 1074)).
    2: { rewrite (Z.pow_add_r 2 (ex + 1074) 1074) by lia. ring. }
    apply SFdiv_rounding_general; lia.
Qed.

End Roundings.

Section PrimRoundings.

Local Open Scope Z_scope.

Lemma rounding_leb x A B x' A' B' :
  rounding_of (Prim2SF x) A B -> rounding_of (Prim2SF x') A' B' ->
  A * B' <= A' * B -> (x <=? x')%float = true.
Proof. rewrite leb_spec. apply rounding_le. Qed.

Lemma add_rounding x y :
  NNF x -> NNF y -> rounding_of (Prim2SF (x + y)) (V x + V y) 1.
Proof. intros Nx Ny. rewrite add_spec. apply SFadd_rounding; assumption. Qed.

Lemma sub_rounding x y :
  NNF x -> NNF y -> V y <= V x -> rounding_of (Prim2SF (x - y)) (V x - V y) 1.
Proof. intros Nx Ny H. rewrite sub_spec. apply SFsub_rounding; assumption. Qed.

Lemma mul_rounding x y :
  NNF x -> NNF y -> rounding_of (Prim2SF (x * y)) (V x * V y) (2 ^ 1074).
Proof. intros Nx Ny. rewrite mul_spec. apply SFmul_rounding; assumption. Qed.

Lemma div_rounding x y :
  NNF x -> NNF y -> 0 < V y -> rounding_of (Prim2SF (x / y)) (V x * 2 ^ 1074) (V y).
Proof. intros Nx Ny H. rewrite div_spec. apply SFdiv_rounding; assumption. Qed.

Lemma rhe_nearest num den :
  0 < den -> nearest_even (Py.round_half_even num den) num den.
Proof.
  intros Hd. unfold Py.round_half_even, nearest_even.
  pose proof (Z.div_mod num den ltac:(lia)) as E.
  pose proof (Z.mod_pos_bound num den Hd) as R.
  set (q := num / den) in *. set (r := num mod den) in *.
  destruct (Z.compare_spec (2 * r) den) as [C|C|C].
  - destruct (Z.even q) eqn:Ev.
    + repeat split; try lia. intros _. exact Ev.
    + repeat split; try lia. intros _.
      replace (q + 1) with (Z.succ q) by lia.
      rewrite Z.even_succ, <- Z.negb_even, Ev. reflexivity.
  - repeat split; lia.
  - repeat split; lia.
Qed.

Lemma rhe_nonneg num den : 0 < den -> 0 <= num -> 0 <= Py.round_half_even num den.
Proof.
  intros Hd Hn. unfold Py.round_half_even.
  assert (0 <= num / den) by (apply Z.div_pos; lia).
  destruct (2 * (num mod den) ?= den); [destruct (Z.even _)| |]; lia.
Qed.

(** The number of thousandths [round(x, 3)] settles on. *)
Lemma round_rounding x :
  NNF x ->
  exists n,
    0 <= n
    /\ rounding_of (Prim2SF (Py.round x 3)) (n * 2 ^ 1074) 1000
    /\ (V x = 0 -> n = 0)
    /\ forall m e, Prim2SF x = S754_finite false m e ->
         n = Py.round_half_even (Zpos m * 1000 * 2 ^ Z.max e 0) (2 ^ Z.max (- e) 0).
Proof.
  intros Nx.
  assert (P74 : 0 < 2 ^ 1074) by (apply Z.pow_pos_nonneg; lia).
  assert (Zr : forall s, rounding_of (S754_zero s) (0 * 2 ^ 1074) 1000).
  { intros s. split; [lia|]. split; [lia|]. left. split; [reflexivity|eauto]. }
  unfold Py.round.
  change (10 ^ Z.of_nat 3) with 1000. change (Z.to_pos 1000) with 1000%positive.
  unfold NNF, V in *.
  destruct (Prim2SF x) as [s|s| |[] m e] eqn:Ex; cbn [nnf] in Nx; try contradiction.
  - exists 0. split; [lia|]. split; [rewrite Ex; apply Zr|].
    split; [reflexivity|]. intros ? ? [=].
  - set (n := Py.round_half_even (Zpos m * 1000 * 2 ^ Z.max e 0) (2 ^ Z.max (- e) 0)).
    assert (Hn : 0 <= n).
    { apply rhe_nonneg; [apply Z.pow_pos_nonneg; lia|].
      pose proof (Z.pow_nonneg 2 (Z.max e 0) ltac:(lia)). nia. }
    exists n. split; [exact Hn|]. split.
    + destruct n as [|k|k]; [apply Zr| |lia].
      rewrite Prim2SF_SF2Prim by apply SFdiv_general_valid.
      replace (Zpos k * 2 ^ 1074) with (Zpos k * 2 ^ (0 + 1074 + 0)) by reflexivity.
      replace 1000 with (1000 * 2 ^ (0 + 0)) at 2 by reflexivity.
      apply SFdiv_rounding_general; lia.
    + split.
      * intros H0. exfalso. pose proof (scaled_pos m e Nx). lia.
      * intros m' e' [= <- <-]. reflexivity.
Qed.

Lemma round_mono x x' :
  NNF x -> NNF x' -> V x <= V x' ->
  (Py.round x 3 <=? Py.round x' 3)%float = true.
Proof.
  intros Nx Nx' H.
  destruct (round_rounding x Nx) as (n & Pn & Rn & Zn & En).
  destruct (round_rounding x' Nx') as (n' & Pn' & Rn' & Zn' & En').
  apply (rounding_leb _ _ _ _ _ _ Rn Rn').
  assert (P74 : 0 < 2 ^ 1074) by (apply Z.pow_pos_nonneg; lia).
  assert (L : n <= n'); [|nia].
  pose proof (V_nonneg x) as Px.
  destruct (Z.eq_dec (V x) 0) as [E0|N0]; [rewrite (Zn E0); exact Pn'|].
  destruct (NNF_finite x Nx ltac:(lia)) as (m & e & Ex & Bx).
  destruct (NNF_finite x' Nx' ltac:(lia)) as (m' & e' & Ex' & Bx').
  rewrite (En m e Ex), (En' m' e' Ex').
  destruct (bounded_canonical _ _ Bx) as (_ & _ & Le & _).
  destruct (bounded_canonical _ _ Bx') as (_ & _ & Le' & _).
  unfold V in H. rewrite Ex, Ex' in H. cbn [scaled] in H.
  assert (Pd : 0 < 2 ^ Z.max (- e) 0) by (apply Z.pow_pos_nonneg; lia).
  assert (Pd' : 0 < 2 ^ Z.max (- e') 0) by (apply Z.pow_pos_nonneg; lia).
  eapply nearest_mono; [exact Pd|exact Pd'|apply rhe_nearest; exact Pd
                        |apply rhe_nearest; exact Pd'|].
  rewrite <- !Z.mul_assoc, <- !Z.pow_add_r by lia.
  rewrite !Z.mul_assoc.
  apply (pow_shift_le _ _ (e + 1074) (e' + 1074)); [lia|lia|lia|lia|lia|].
  replace (Zpos m * 1000 * 2 ^ (e + 1074)) with (Zpos m * 2 ^ (e + 1074) * 1000) by ring.
  replace (Zpos m' * 1000 * 2 ^ (e' + 1074)) with (Zpos m' * 2 ^ (e' + 1074) * 1000) by ring.
  lia.
Qed.

End PrimRoundings.

Section ScoreMonotone.

Local Open Scope Z_scope.

Lemma leb_trans_true x y z :
  (x <=? y)%float = true -> (y <=? z)%float = true -> (x <=? z)%float = true.
Proof.
  intros H1 H2.
  destruct (leb_true_not_nan _ _ H1) as [Nx _].
  destruct (leb_true_not_nan _ _ H2) as [_ Nz].
  destruct (x <=? z)%float eqn:E; [reflexivity|exfalso].
  assert (L : (z <? x)%float = true) by (rewrite ltb_negb_leb, E; reflexivity || assumption).
  rewrite (ltb_leb_trans_false z x y L H1) in H2. discriminate.
Qed.

(** A sharper burst has no smaller sharpness component. *)
Lemma score_component_blur_mono b b' :
  (b <=? b')%float = true ->
  V (score_component_blur b) <= V (score_component_blur b').
Proof.
  intros H. destruct (leb_true_not_nan _ _ H) as [Nb Nb'].
  destruct (score_component_blur_range b Nb) as [N1 U1].
  destruct (score_component_blur_range b' Nb') as [N1' U1'].
  destruct curve_constants as (N40 & N160 & N120 & _ & _ & _ & P120 & _ & E & _).
  destruct (160 <=? b')%float eqn:E1'.
  { replace (score_component_blur b') with 1%float; [exact U1|].
    unfold score_component_blur, Py.geb. rewrite E1'. reflexivity. }
  destruct (b <=? 40)%float eqn:E2.
  { replace (score_component_blur b) with 0%float; [rewrite V_0; apply V_nonneg|].
    unfold score_component_blur, Py.geb.
    rewrite (leb_ltb_trans_false b 40 160 E2 eq_refl), E2. reflexivity. }
  assert (E1 : (160 <=? b)%float = false).
  { destruct (160 <=? b)%float eqn:X; [|reflexivity].
    rewrite (leb_trans_true _ _ _ X H) in E1'. discriminate. }
  assert (E2' : (b' <=? 40)%float = false).
  { destruct (b' <=? 40)%float eqn:X; [|reflexivity].
    rewrite (leb_trans_true _ _ _ H X) in E2. discriminate. }
  unfold score_component_blur, Py.geb in *. rewrite E1, E2 in *. rewrite E1', E2' in *.
  change (160 - 40)%float with 120%float in *.
  assert (L : (40 <? b)%float = true) by (rewrite ltb_negb_leb, E2; reflexivity || assumption).
  assert (U : (b <? 160)%float = true) by (rewrite ltb_negb_leb, E1; reflexivity || assumption).
  assert (L' : (40 <? b')%float = true) by (rewrite ltb_negb_leb, E2'; reflexivity || assumption).
  assert (U' : (b' <? 160)%float = true) by (rewrite ltb_negb_leb, E1'; reflexivity || assumption).
  destruct (NNF_between 40 b 160 N40 N160 L U) as (Fb & Lb & Ub).
  destruct (NNF_between 40 b' 160 N40 N160 L' U') as (Fb' & Lb' & Ub').
  apply (leb_V b b' Fb Fb') in H.
  destruct (sub_le b 40 120 Fb N40 N120 P120 ltac:(lia) ltac:(lia)) as [Nt Ht].
  destruct (sub_le b' 40 120 Fb' N40 N120 P120 ltac:(lia) ltac:(lia)) as [Nt' Ht'].
  assert (T : V (b - 40) <= V (b' - 40)).
  { apply (leb_V _ _ Nt Nt').
    apply (rounding_leb _ _ _ _ _ _ (sub_rounding b 40 Fb N40 ltac:(lia))
             (sub_rounding b' 40 Fb' N40 ltac:(lia))). lia. }
  apply (leb_V _ _ N1 N1').
  apply (rounding_leb _ _ _ _ _ _ (div_rounding _ 120 Nt N120 P120)
           (div_rounding _ 120 Nt' N120 P120)).
  assert (P74 : 0 < 2 ^ 1074) by (apply Z.pow_pos_nonneg; lia).
  apply Z.mul_le_mono_nonneg_r; [lia|].
  apply Z.mul_le_mono_nonneg_r; [lia|exact T].
Qed.

(** A burst with more clipping has no larger lighting component. *)
Lemma score_component_clip_mono c c' :
  (c <=? c')%float = true ->
  V (score_component_clip c') <= V (score_component_clip c).
Proof.
  intros H. destruct (leb_true_not_nan _ _ H) as [Nc Nc'].
  destruct (score_component_clip_range c Nc) as [N1 U1].
  destruct (score_component_clip_range c' Nc') as [N1' U1'].
  destruct curve_constants as (_ & _ & _ & N4 & N16 & N12 & _ & P12 & _ & E).
  destruct score_constants as (_ & _ & _ & _ & P1 & _).
  destruct (c <=? 4)%float eqn:E1.
  { replace (score_component_clip c) with 1%float; [exact U1'|].
    unfold score_component_clip. rewrite E1. reflexivity. }
  destruct (16 <=? c')%float eqn:E2'.
  { replace (score_component_clip c') with 0%float; [rewrite V_0; apply V_nonneg|].
    unfold score_component_clip, Py.geb.
    rewrite (ltb_leb_trans_false 4 16 c' eq_refl E2'), E2'. reflexivity. }
  assert (E1' : (c' <=? 4)%float = false).
  { destruct (c' <=? 4)%float eqn:X; [|reflexivity].
    rewrite (leb_trans_true _ _ _ H X) in E1. discriminate. }
  assert (E2 : (16 <=? c)%float = false).
  { destruct (16 <=? c)%float eqn:X; [|reflexivity].
    rewrite (leb_trans_true _ _ _ X H) in E2'. discriminate. }
  unfold score_component_clip, Py.geb in *. rewrite E1, E2 in *. rewrite E1', E2' in *.
  change (16 - 4)%float with 12%float in *.
  assert (L : (4 <? c)%float = true) by (rewrite ltb_negb_leb, E1; reflexivity || assumption).
  assert (U : (c <? 16)%float = true) by (rewrite ltb_negb_leb, E2; reflexivity || assumption).
  assert (L' : (4 <? c')%float = true) by (rewrite ltb_negb_leb, E1'; reflexivity || assumption).
  assert (U' : (c' <? 16)%float = true) by (rewrite ltb_negb_leb, E2'; reflexivity || assumption).
  destruct (NNF_between 4 c 16 N4 N16 L U) as (Fc & Lc & Uc).
  destruct (NNF_between 4 c' 16 N4 N16 L' U') as (Fc' & Lc' & Uc').
  apply (leb_V c c' Fc Fc') in H.
  destruct (sub_le c 4 12 Fc N4 N12 P12 ltac:(lia) ltac:(lia)) as [Nt Ht].
  destruct (sub_le c' 4 12 Fc' N4 N12 P12 ltac:(lia) ltac:(lia)) as [Nt' Ht'].
  assert (T : V (c - 4) <= V (c' - 4)).
  { apply (leb_V _ _ Nt Nt').
    apply (rounding_leb _ _ _ _ _ _ (sub_rounding c 4 Fc N4 ltac:(lia))
             (sub_rounding c' 4 Fc' N4 ltac:(lia))). lia. }
  destruct (div_le_one _ 12 Nt N12 P12 Ht) as [Nu Hu].
  destruct (div_le_one _ 12 Nt' N12 P12 Ht') as [Nu' Hu'].
  assert (P74 : 0 < 2 ^ 1074) by (apply Z.pow_pos_nonneg; lia).
  assert (Q : V ((c - 4) / 12) <= V ((c' - 4) / 12)).
  { apply (leb_V _ _ Nu Nu').
    apply (rounding_leb _ _ _ _ _ _ (div_rounding _ 12 Nt N12 P12)
             (div_rounding _ 12 Nt' N12 P12)).
    apply Z.mul_le_mono_nonneg_r; [lia|].
    apply Z.mul_le_mono_nonneg_r; [lia|exact T]. }
  apply (leb_V _ _ N1' N1).
  apply (rounding_leb _ _ _ _ _ _ (sub_rounding 1 _ NNF_1 Nu' Hu')
           (sub_rounding 1 _ NNF_1 Nu Hu)). lia.
Qed.

(** The score does not fall when the median sharpness rises or the
    median clipping falls. *)
Lemma score_mono b c b' c' :
  (b <=? b')%float = true -> (c' <=? c)%float = true ->
  (Py.round (0.7 * score_component_blur b + 0.3 * score_component_clip c) 3
   <=? Py.round (0.7 * score_component_blur b' + 0.3 * score_component_clip c') 3)%float
  = true.
Proof.
  intros Hb Hc.
  destruct (leb_true_not_nan _ _ Hb) as [Nb Nb'].
  destruct (leb_true_not_nan _ _ Hc) as [Nc' Nc].
  pose proof (score_component_blur_mono b b' Hb) as Mb.
  pose proof (score_component_clip_mono c' c Hc) as Mc.
  destruct (score_component_blur_range b Nb) as [Fb Ub].
  destruct (score_component_blur_range b' Nb') as [Fb' Ub'].
  destruct (score_component_clip_range c Nc) as [Fc Uc].
  destruct (score_component_clip_range c' Nc') as [Fc' Uc'].
  destruct score_constants as (N7 & N3 & P7 & P3 & P1 & S).
  destruct (mul_le_left 0.7 _ N7 P7 Fb Ub) as [Np1 Hp1].
  destruct (mul_le_left 0.3 _ N3 P3 Fc Uc) as [Np2 Hp2].
  destruct (mul_le_left 0.7 _ N7 P7 Fb' Ub') as [Np1' Hp1'].
  destruct (mul_le_left 0.3 _ N3 P3 Fc' Uc') as [Np2' Hp2'].
  destruct (add_le _ _ 1 Np1 Np2 NNF_1 P1 ltac:(lia)) as [Ns Hs].
  destruct (add_le _ _ 1 Np1' Np2' NNF_1 P1 ltac:(lia)) as [Ns' Hs'].
  assert (P74 : 0 < 2 ^ 1074) by (apply Z.pow_pos_nonneg; lia).
  assert (M1 : V (0.7 * score_component_blur b) <= V (0.7 * score_component_blur b')).
  { apply (leb_V _ _ Np1 Np1').
    apply (rounding_leb _ _ _ _ _ _ (mul_rounding 0.7 _ N7 Fb) (mul_rounding 0.7 _ N7 Fb')).
    apply Z.mul_le_mono_nonneg_r; [lia|].
    apply Z.mul_le_mono_nonneg_l; [lia|exact Mb]. }
  assert (M2 : V (0.3 * score_component_clip c) <= V (0.3 * score_component_clip c')).
  { apply (leb_V _ _ Np2 Np2').
    apply (rounding_leb _ _ _ _ _ _ (mul_rounding 0.3 _ N3 Fc) (mul_rounding 0.3 _ N3 Fc')).
    apply Z.mul_le_mono_nonneg_r; [lia|].
    apply Z.mul_le_mono_nonneg_l; [lia|exact Mc]. }
  apply round_mono; [exact Ns|exact Ns'|].
  apply (leb_V _ _ Ns Ns').
  apply (rounding_leb _ _ _ _ _ _ (add_rounding _ _ Np1 Np2) (add_rounding _ _ Np1' Np2')).
  lia.
Qed.

End ScoreMonotone.

Section ScoreOrder.

Local Open Scope string_scope.

Lemma banding_mono s s' :
  (s <=? s')%float = true ->
  (banding s = "OK" -> banding s' = "OK")
  /\ (banding s' = "Low quality — retake" -> banding s = "Low quality — retake").
Proof.
  intros H. unfold banding, Py.geb.
  destruct (0.75 <=? s)%float eqn:A, (0.55 <=? s)%float eqn:B,
           (0.75 <=? s')%float eqn:A', (0.55 <=? s')%float eqn:B';
    split; intros X; try reflexivity; try discriminate X; exfalso;
    try (rewrite (leb_trans_true _ _ _ A H) in A'; discriminate);
    try (rewrite (leb_trans_true _ _ _ B H) in B'; discriminate).
Qed.

(** X17.  Of two bursts that are scored, the one with the larger (or
    equal) median sharpness and the smaller (or equal) median clipping
    has the larger (or equal) score: through the subtractions, divisions,
    products, the sum and [round] of lines 174-187 the score never falls
    when the sharpness rises or the clipping falls.  So does the message:
    if the first burst is answered "OK" so is the second, and if the
    second is answered "Low quality — retake" so is the first. *)
Theorem score_is_monotone :
  forall st now token wd frames ms b c st' now' token' wd' frames' ms' b' c',
    cooldown_rejects st now token = false ->
    cooldown_rejects st' now' token' = false ->
    frame_metrics frames = Return ms ->
    frame_metrics frames' = Return ms' ->
    (3 <= List.length (survivors ms))%nat ->
    (3 <= List.length (survivors ms'))%nat ->
    statistics.median (map fst (survivors ms)) = Return b ->
    statistics.median (map snd (survivors ms)) = Return c ->
    statistics.median (map fst (survivors ms')) = Return b' ->
    statistics.median (map snd (survivors ms')) = Return c' ->
    (b <=? b')%float = true ->
    (c' <=? c)%float = true ->
    exists resp resp',
      snd (measure st now token wd frames) = Return resp
      /\ snd (measure st' now' token' wd' frames') = Return resp'
      /\ (score resp <=? score resp')%float = true
      /\ (message resp = "OK" -> message resp' = "OK")
      /\ (message resp' = "Low quality — retake"
          -> message resp = "Low quality — retake").
Proof.
  intros st now token wd frames ms b c st' now' token' wd' frames' ms' b' c'
    Hc Hc' Hms Hms' Hge Hge' Hb Hcl Hb' Hcl' Lb Lc.
  rewrite (measure_passes _ _ _ _ _ Hc), (measure_passes _ _ _ _ _ Hc').
  destruct (score_burst_full frames ms Hms Hge) as (mb & mc & Eb & Ec & ->).
  destruct (score_burst_full frames' ms' Hms' Hge') as (mb' & mc' & Eb' & Ec' & ->).
  assert (mb = b) by congruence. assert (mc = c) by congruence.
  assert (mb' = b') by congruence. assert (mc' = c') by congruence.
  subst mb mc mb' mc'.
  pose proof (score_mono b c b' c' Lb Lc) as M.
  exists (scored_burst (survivors ms) b c), (scored_burst (survivors ms') b' c').
  split; [reflexivity|]. split; [reflexivity|].
  split; [exact M|]. exact (banding_mono _ _ M).
Qed.

Lemma score_is_monotone_witness :
  exists resp resp',
    snd (measure initial_state 1700000000.0 (Some "tok") None mixed_burst) = Return resp
    /\ snd (measure initial_state 1700000000.0 None None steady_burst) = Return resp'
    /\ (score resp <=? score resp')%float = true
    /\ (message resp = "OK" -> message resp' = "OK")
    /\ (message resp' = "Low quality — retake"
        -> message resp = "Low quality — retake").
Proof.
  apply (score_is_monotone initial_state 1700000000.0 (Some "tok") None mixed_burst
           [(83.950617283950621, 11.111111111111111); (144.0, 0.0);
            (37352.469135802472, 11.111111111111111)]%float
           144.0%float 11.111111111111111%float
           initial_state 1700000000.0 None None steady_burst
           [(25600.0, 0.0); (25600.0, 0.0); (25600.0, 0.0); (25600.0, 0.0);
            (25600.0, 0.0)]%float
           25600.0%float 0.0%float).
  - reflexivity.
  - reflexivity.
  - vm_compute. reflexivity.
  - vm_compute. reflexivity.
  - simpl. lia.
  - simpl. lia.
  - vm_compute. reflexivity.
  - vm_compute. reflexivity.
  - vm_compute. reflexivity.
  - vm_compute. reflexivity.
  - reflexivity.
  - reflexivity.
Defined.

End ScoreOrder.

(** ** Bursts compared frame by frame

    Sorting and the median keep the order of two lists that are ordered
    place by place. *)

Section SortedOrder.

Local Open Scope float_scope.

Lemma fle_trans x y z : fle x y -> fle y z -> fle x z.
Proof.
  unfold fle. intros H1 H2.
  fkeys x; [|nan_contra]. fkeys y; [|nan_contra]. fkeys z; [|nan_contra].
  apply (leb_iff x z _ _ ltac:(eassumption) ltac:(eassumption)). lex.
Qed.

Lemma fle_refl x : is_nan x = false -> fle x x.
Proof.
  intros H. destruct (fkey_some x H) as [[[a b] c] E].
  apply (leb_iff x x _ _ E E). unfold lex_le. lia.
Qed.

Lemma ltb_fle x y : (x <? y) = true -> fle x y.
Proof.
  unfold fle. intros H.
  fkeys x; [|nan_contra]. fkeys y; [|nan_contra].
  apply (leb_iff x y _ _ ltac:(eassumption) ltac:(eassumption)). lex.
Qed.

Lemma not_ltb_fle x y :
  is_nan x = false -> is_nan y = false -> (x <? y) = false -> fle y x.
Proof.
  unfold fle. intros Hx Hy H. rewrite (ltb_negb_leb x y Hx Hy) in H.
  destruct (y <=? x); [reflexivity|discriminate H].
Qed.

Lemma fle_not_nan x y : fle x y -> is_nan x = false /\ is_nan y = false.
Proof. apply leb_true_not_nan. Qed.

Lemma Forall2_fle_not_nan l l' :
  Forall2 fle l l' ->
  Forall (fun x => is_nan x = false) l /\ Forall (fun x => is_nan x = false) l'.
Proof.
  induction 1 as [|x y l l' H _ [IH1 IH2]]; [split; constructor|].
  destruct (fle_not_nan _ _ H). split; constructor; assumption.
Qed.

Lemma Forall2_fle_trans l1 l2 l3 :
  Forall2 fle l1 l2 -> Forall2 fle l2 l3 -> Forall2 fle l1 l3.
Proof.
  intros H. revert l3. induction H as [|x y l l' H _ IH]; intros l3 H3.
  - inversion H3. constructor.
  - inversion H3 as [|y' z l2' l3' Hyz Hr]; subst. constructor.
    + exact (fle_trans _ _ _ H Hyz).
    + apply IH, Hr.
Qed.

Lemma Forall2_fle_refl l :
  Forall (fun x => is_nan x = false) l -> Forall2 fle l l.
Proof. induction 1; constructor; [apply fle_refl|]; assumption. Qed.

(** Insertion keeps a sorted list sorted. *)
Lemma insert_sorted x l :
  is_nan x = false -> Forall (fun y => is_nan y = false) l ->
  StronglySorted fle l -> StronglySorted fle (Py.insert x l).
Proof.
  intros Hx Hl Hs. induction l as [|a l IH]; cbn [Py.insert].
  - repeat constructor.
  - inversion Hl as [|? ? Ha Hl']; subst. inversion Hs as [|? ? Hs' Hall]; subst.
    destruct (x <? a) eqn:E.
    + constructor; [exact Hs|]. constructor; [apply ltb_fle, E|].
      apply (Forall_impl _ (fun t (Ht : fle a t) => fle_trans _ _ _ (ltb_fle _ _ E) Ht) Hall).
    + constructor; [apply IH; assumption|].
      apply Forall_forall. intros t Ht. apply In_insert in Ht.
      destruct Ht as [->|Ht]; [apply not_ltb_fle; assumption|].
      rewrite Forall_forall in Hall. apply Hall, Ht.
Qed.

Lemma insert_not_nan x l :
  is_nan x = false -> Forall (fun y => is_nan y = false) l ->
  Forall (fun y => is_nan y = false) (Py.insert x l).
Proof.
  intros Hx Hl. apply Forall_forall. intros t Ht. apply In_insert in Ht.
  destruct Ht as [->|Ht]; [exact Hx|]. rewrite Forall_forall in Hl. apply Hl, Ht.
Qed.

(** Inserting above the head and dropping the head raises every place. *)
Lemma insert_shift b y sy :
  StronglySorted fle (b :: sy) -> fle b y ->
  Forall (fun t => is_nan t = false) sy ->
  Forall2 fle (b :: sy) (Py.insert y sy).
Proof.
  revert b. induction sy as [|c sy IH]; intros b Hs Hby Hn; cbn [Py.insert].
  - repeat constructor. exact Hby.
  - inversion Hs as [|? ? Hs' Hall]; subst. inversion Hall as [|? ? Hbc _]; subst.
    inversion Hn as [|? ? Hc Hn']; subst.
    destruct (fle_not_nan _ _ Hby) as [_ Hy].
    destruct (y <? c) eqn:E.
    + constructor; [exact Hby|]. apply Forall2_fle_refl. exact Hn.
    + constructor; [exact Hbc|].
      apply IH; [exact Hs'|apply not_ltb_fle; assumption|exact Hn'].
Qed.

(** Inserting below a bound that is below the other list. *)
Lemma insert_under x b sx sy :
  fle x b -> Forall (fle b) sy -> StronglySorted fle sy ->
  Forall2 fle sx sy -> Forall2 fle (Py.insert x sx) (b :: sy).
Proof.
  intros Hxb Hb Hs H. revert b Hxb Hb Hs.
  induction H as [|a c sx sy Hac H IH]; intros b Hxb Hb Hs; cbn [Py.insert].
  - repeat constructor. exact Hxb.
  - inversion Hb as [|? ? Hbc Hb']; subst. inversion Hs as [|? ? Hs' Hall]; subst.
    destruct (fle_not_nan _ _ Hxb) as [Hx _]. destruct (fle_not_nan _ _ Hac) as [Ha _].
    destruct (x <? a) eqn:E.
    + constructor; [exact Hxb|]. constructor; assumption.
    + constructor; [exact (fle_trans _ _ _ (not_ltb_fle _ _ Hx Ha E) Hxb)|].
      apply IH; [exact (fle_trans _ _ _ Hxb Hbc)|exact Hall|exact Hs'].
Qed.

Lemma insert_dom x y sx sy :
  fle x y -> StronglySorted fle sx -> StronglySorted fle sy ->
  Forall2 fle sx sy -> Forall2 fle (Py.insert x sx) (Py.insert y sy).
Proof.
  intros Hxy Hsx Hsy H. revert Hsx Hsy.
  induction H as [|a b sx sy Hab H IH]; intros Hsx Hsy; cbn [Py.insert].
  - repeat constructor. exact Hxy.
  - destruct (fle_not_nan _ _ Hxy) as [Hx Hy]. destruct (fle_not_nan _ _ Hab) as [Ha Hb].
    destruct (Forall2_fle_not_nan _ _ H) as [Nx Ny].
    inversion Hsx as [|? ? Hsx' Hax]; subst. inversion Hsy as [|? ? Hsy' Hby]; subst.
    destruct (x <? a) eqn:E; destruct (y <? b) eqn:E'.
    + constructor; [exact Hxy|]. constructor; assumption.
    + constructor.
      * exact (fle_trans _ _ _ (ltb_fle _ _ E) Hab).
      * apply Forall2_fle_trans with (b :: sy); [constructor; assumption|].
        apply insert_shift; [exact Hsy|apply not_ltb_fle; assumption|exact Ny].
    + constructor.
      * exact (fle_trans _ _ _ (not_ltb_fle _ _ Hx Ha E) Hxy).
      * apply insert_under; [apply fle_trans with y; [exact Hxy|apply ltb_fle, E']
                            |exact Hby|exact Hsy'|exact H].
    + constructor; [exact Hab|]. apply IH; assumption.
Qed.

Lemma fold_insert_dom xs ys :
  Forall2 fle xs ys ->
  forall ax ay,
    StronglySorted fle ax -> StronglySorted fle ay ->
    Forall (fun t => is_nan t = false) ax -> Forall (fun t => is_nan t = false) ay ->
    Forall2 fle ax ay ->
    Forall2 fle (fold_left (fun acc x => Py.insert x acc) xs ax)
                (fold_left (fun acc x => Py.insert x acc) ys ay).
Proof.
  induction 1 as [|x y xs ys Hxy H IH]; intros ax ay Sx Sy Nx Ny Ha; cbn [fold_left].
  - exact Ha.
  - destruct (fle_not_nan _ _ Hxy) as [Hx Hy].
    apply IH; try (apply insert_sorted; assumption);
      try (apply insert_not_nan; assumption).
    apply insert_dom; assumption.
Qed.

(** Sorting keeps the order of two lists place by place. *)
Lemma sorted_dom xs ys :
  Forall2 fle xs ys -> Forall2 fle (Py.sorted xs) (Py.sorted ys).
Proof.
  intros H. unfold Py.sorted.
  apply fold_insert_dom; try constructor. exact H.
Qed.

Lemma Forall2_fle_nth l l' i :
  Forall2 fle l l' -> (i < List.length l)%nat -> fle (nth i l 0) (nth i l' 0).
Proof.
  intros H. revert i. induction H as [|x y l l' Hxy H IH]; intros i Hi.
  - simpl in Hi. lia.
  - destruct i as [|i]; [exact Hxy|]. simpl in Hi |- *. apply IH. lia.
Qed.

End SortedOrder.

Section MedianOrder.

Local Open Scope float_scope.

Lemma nonneg_cases x :
  (0 <=? x) = true -> NNF x \/ Prim2SF x = S754_infinity false.
Proof.
  rewrite leb_spec. change (Prim2SF 0) with (S754_zero false).
  rewrite SFleb_zero_cases. unfold NNF. pose proof (Prim2SF_valid x) as Hv.
  destruct (Prim2SF x) as [s|[]| |[] m e]; intros H; try contradiction.
  - left. exact I.
  - right. reflexivity.
  - left. exact Hv.
Qed.

Lemma fle_inf x x' :
  (0 <=? x) = true -> Prim2SF x' = S754_infinity false -> fle x x'.
Proof.
  unfold fle. rewrite !leb_spec. change (Prim2SF 0) with (S754_zero false).
  rewrite SFleb_zero_cases. intros H ->.
  destruct (Prim2SF x) as [s|[]| |[] m e]; try contradiction; reflexivity.
Qed.

Lemma inf_fle x x' :
  Prim2SF x = S754_infinity false -> fle x x' -> Prim2SF x' = S754_infinity false.
Proof.
  unfold fle. rewrite leb_spec. intros ->.
  destruct (Prim2SF x') as [s|[]| |s m e]; try destruct s; cbv [SFleb SFcompare];
    intros H; try discriminate H; reflexivity.
Qed.

Lemma NNF_of_fle x x' : (0 <=? x) = true -> fle x x' -> NNF x' -> NNF x.
Proof.
  intros H0 H N'. destruct (nonneg_cases x H0) as [N|E]; [exact N|exfalso].
  unfold NNF in N'. rewrite (inf_fle _ _ E H) in N'. exact N'.
Qed.

Lemma add_nonneg a b : (0 <=? a) = true -> (0 <=? b) = true -> (0 <=? a + b) = true.
Proof.
  rewrite !leb_spec. change (Prim2SF 0) with (S754_zero false). rewrite add_spec.
  apply SFadd_nonneg.
Qed.

Lemma div2_nonneg a : (0 <=? a) = true -> (0 <=? a / 2) = true.
Proof.
  rewrite !leb_spec. change (Prim2SF 0) with (S754_zero false).
  rewrite div_spec, Prim2SF_2. apply SFdiv_nonneg.
Qed.

Lemma add_mono a b a' b' :
  (0 <=? a) = true -> (0 <=? b) = true -> (0 <=? a') = true -> (0 <=? b') = true ->
  fle a a' -> fle b b' -> fle (a + b) (a' + b').
Proof.
  intros Pa Pb Pa' Pb' Ha Hb.
  pose proof (add_nonneg a b Pa Pb) as Ps.
  destruct (nonneg_cases a' Pa') as [Na'|Ia'].
  - destruct (nonneg_cases b' Pb') as [Nb'|Ib'].
    + pose proof (NNF_of_fle _ _ Pa Ha Na') as Na.
      pose proof (NNF_of_fle _ _ Pb Hb Nb') as Nb.
      apply (leb_V a a' Na Na') in Ha. apply (leb_V b b' Nb Nb') in Hb.
      apply (rounding_leb _ _ _ _ _ _ (add_rounding a b Na Nb) (add_rounding a' b' Na' Nb')).
      lia.
    + apply fle_inf; [exact Ps|]. rewrite add_spec, Ib'.
      unfold NNF in Na'. destruct (Prim2SF a') as [s|[]| |[] m e]; try contradiction;
        reflexivity.
  - apply fle_inf; [exact Ps|]. rewrite add_spec, Ia'.
    rewrite leb_spec in Pb'. change (Prim2SF 0) with (S754_zero false) in Pb'.
    rewrite SFleb_zero_cases in Pb'.
    destruct (Prim2SF b') as [s|[]| |[] m e]; try contradiction; reflexivity.
Qed.

Lemma two_constants : NNF 2 /\ (0 < V 2)%Z.
Proof. split; vm_compute; reflexivity. Qed.

Lemma div2_mono x x' :
  (0 <=? x) = true -> (0 <=? x') = true -> fle x x' -> fle (x / 2) (x' / 2).
Proof.
  intros Px Px' H. destruct two_constants as [N2 P2].
  destruct (nonneg_cases x' Px') as [Nx'|Ix'].
  - pose proof (NNF_of_fle _ _ Px H Nx') as Nx.
    apply (leb_V x x' Nx Nx') in H.
    apply (rounding_leb _ _ _ _ _ _ (div_rounding x 2 Nx N2 P2) (div_rounding x' 2 Nx' N2 P2)).
    assert (0 < 2 ^ 1074)%Z by (apply Z.pow_pos_nonneg; lia).
    apply Z.mul_le_mono_nonneg_r; [lia|].
    apply Z.mul_le_mono_nonneg_r; [lia|exact H].
  - apply fle_inf; [apply div2_nonneg, Px|].
    rewrite div_spec, Ix', Prim2SF_2. reflexivity.
Qed.

(** The median of a list that is larger place by place is larger. *)
Lemma median_mono xs ys m m' :
  Forall (fun x => (0 <=? x) = true) xs -> Forall (fun x => (0 <=? x) = true) ys ->
  Forall2 fle xs ys ->
  statistics.median xs = Return m -> statistics.median ys = Return m' ->
  fle m m'.
Proof.
  intros Px Py H. pose proof (sorted_dom xs ys H) as Hs.
  pose proof (Forall2_length H) as El.
  unfold statistics.median. rewrite !sorted_length, <- El.
  set (n := List.length xs).
  assert (Ln : List.length (Py.sorted xs) = n) by apply sorted_length.
  assert (Ln' : List.length (Py.sorted ys) = n) by (rewrite sorted_length; symmetry; exact El).
  assert (Nx : forall i, (i < n)%nat -> (0 <=? nth i (Py.sorted xs) 0) = true).
  { intros i Hi. rewrite Forall_forall in Px. apply Px, In_sorted, nth_In. lia. }
  assert (Ny : forall i, (i < n)%nat -> (0 <=? nth i (Py.sorted ys) 0) = true).
  { intros i Hi. rewrite Forall_forall in Py. apply Py, In_sorted, nth_In. lia. }
  destruct (Nat.eqb_spec n 0) as [|Hn]; [discriminate|].
  assert (Hi : (n / 2 < n)%nat) by (apply Nat.div_lt; lia).
  destruct (Nat.eqb (n mod 2) 1); intros E1 E2; injection E1 as <-; injection E2 as <-.
  - apply Forall2_fle_nth; [exact Hs|rewrite Ln; exact Hi].
  - assert (Hj : (n / 2 - 1 < n)%nat) by lia.
    apply div2_mono.
    + apply add_nonneg; apply Nx; assumption.
    + apply add_nonneg; apply Ny; assumption.
    + apply add_mono; try (apply Nx; assumption); try (apply Ny; assumption).
      * apply Forall2_fle_nth; [exact Hs|rewrite Ln; exact Hj].
      * apply Forall2_fle_nth; [exact Hs|rewrite Ln; exact Hi].
Qed.

End MedianOrder.

Section BetterFrames.

Local Open Scope string_scope.

Lemma survives_dom m m' :
  survives m = true ->
  (fst m <=? fst m')%float = true -> (snd m' <=? snd m)%float = true ->
  survives m' = true.
Proof.
  unfold survives. intros S Hb Hc.
  apply negb_true_iff, orb_false_iff in S. destruct S as [S1 S2].
  destruct (leb_true_not_nan _ _ Hb) as [Nb Nb'].
  destruct (leb_true_not_nan _ _ Hc) as [Nc' Nc].
  apply negb_true_iff, orb_false_iff. split.
  - destruct (fst m' <? 5)%float eqn:E; [exfalso|reflexivity].
    pose proof (not_ltb_fle (fst m) 5 Nb eq_refl S1) as L. unfold fle in L.
    rewrite (ltb_leb_trans_false _ _ _ E L) in Hb. discriminate.
  - destruct (50 <? snd m')%float eqn:E; [exfalso|reflexivity].
    pose proof (not_ltb_fle 50 (snd m) eq_refl Nc S2) as L. unfold fle in L.
    rewrite (ltb_leb_trans_false _ _ _ E Hc) in L. discriminate.
Qed.

Lemma survivors_all ms : forallb survives ms = true -> survivors ms = ms.
Proof.
  unfold survivors. induction ms as [|m ms IH]; [reflexivity|].
  cbn [forallb filter]. intros H. apply andb_true_iff in H. destruct H as [H1 H2].
  rewrite H1, IH by assumption. reflexivity.
Qed.

(** X18.  Better frames never give a worse answer, as long as no frame
    of the first burst is dropped by the sanity filter: if every frame of
    a second burst is at least as sharp and at most as clipped as the
    frame at the same place of the first, the second burst uses as many
    frames, is ok when the first is, and its score is at least the score
    of the first; if the first is answered "OK" so is the second. *)
Theorem better_frames_score_no_worse :
  forall st now token wd frames ms st' now' token' wd' frames' ms',
    forallb valid_frame frames = true ->
    forallb valid_frame frames' = true ->
    cooldown_rejects st now token = false ->
    cooldown_rejects st' now' token' = false ->
    frame_metrics frames = Return ms ->
    frame_metrics frames' = Return ms' ->
    forallb survives ms = true ->
    Forall2 (fun m m' => (fst m <=? fst m')%float = true
                         /\ (snd m' <=? snd m)%float = true) ms ms' ->
    exists resp resp',
      snd (measure st now token wd frames) = Return resp
      /\ snd (measure st' now' token' wd' frames') = Return resp'
      /\ frames_used resp' = frames_used resp
      /\ ok resp' = ok resp
      /\ (score resp <=? score resp')%float = true
      /\ (message resp = "OK" -> message resp' = "OK").
Proof.
  intros st now token wd frames ms st' now' token' wd' frames' ms'
    Hv Hv' Hc Hc' Hms Hms' Hall Hdom.
  rewrite (measure_passes _ _ _ _ _ Hc), (measure_passes _ _ _ _ _ Hc').
  assert (Hall' : forallb survives ms' = true).
  { clear - Hall Hdom. induction Hdom as [|m m' ms ms' [H1 H2] _ IH]; [reflexivity|].
    cbn [forallb] in *. apply andb_true_iff in Hall. destruct Hall as [S Hall].
    rewrite (survives_dom m m' S H1 H2), IH by assumption. reflexivity. }
  pose proof (survivors_all ms Hall) as Es.
  pose proof (survivors_all ms' Hall') as Es'.
  pose proof (Forall2_length Hdom) as El.
  destruct (Nat.ltb_spec (List.length ms) 3) as [Short|Long].
  - rewrite (score_burst_short frames ms Hms) by (rewrite Es; exact Short).
    rewrite (score_burst_short frames' ms' Hms') by (rewrite Es', <- El; exact Short).
    eexists. eexists. split; [reflexivity|]. split; [reflexivity|].
    unfold low_quality_burst. cbn [frames_used ok score message].
    rewrite Es, Es', El. repeat split; try reflexivity. discriminate.
  - destruct (score_burst_full frames ms Hms ltac:(rewrite Es; exact Long))
      as (b & c & Eb & Ec & ->).
    destruct (score_burst_full frames' ms' Hms' ltac:(rewrite Es', <- El; exact Long))
      as (b' & c' & Eb' & Ec' & ->).
    rewrite Es in *. rewrite Es' in *.
    pose proof (frame_metrics_nonneg frames ms Hv Hms) as P.
    pose proof (frame_metrics_nonneg frames' ms' Hv' Hms') as P'.
    assert (Lb : (b <=? b')%float = true).
    { apply (median_mono (map fst ms) (map fst ms')); try assumption.
      - apply Forall_map. apply (Forall_impl _ (fun m H => proj1 H) P).
      - apply Forall_map. apply (Forall_impl _ (fun m H => proj1 H) P').
      - clear - Hdom. induction Hdom as [|m m' ? ? [H1 _] _ IH]; constructor; assumption. }
    assert (Lc : (c' <=? c)%float = true).
    { apply (median_mono (map snd ms') (map snd ms)); try assumption.
      - apply Forall_map. apply (Forall_impl _ (fun m H => proj2 H) P').
      - apply Forall_map. apply (Forall_impl _ (fun m H => proj2 H) P).
      - clear - Hdom. induction Hdom as [|m m' ? ? [_ H2] _ IH]; constructor; assumption. }
    pose proof (score_mono b c b' c' Lb Lc) as M.
    eexists. eexists. split; [reflexivity|]. split; [reflexivity|].
    unfold scored_burst. cbn [frames_used ok score message].
    split; [symmetry; exact El|]. split; [reflexivity|]. split; [exact M|].
    exact (proj1 (banding_mono _ _ M)).
Qed.

Lemma better_frames_score_no_worse_witness :
  exists resp resp',
    snd (measure initial_state 1700000000.0 (Some "tok") None dull_burst) = Return resp
    /\ snd (measure initial_state 1700000000.0 None None
              [sharp_frame; sharp_frame; sharp_frame]) = Return resp'
    /\ frames_used resp' = frames_used resp
    /\ ok resp' = ok resp
    /\ (score resp <=? score resp')%float = true
    /\ (message resp = "OK" -> message resp' = "OK").
Proof.
  apply (better_frames_score_no_worse initial_state 1700000000.0 (Some "tok") None
           dull_burst [(16.0, 0.0); (16.0, 0.0); (16.0, 0.0)]%float
           initial_state 1700000000.0 None None
           [sharp_frame; sharp_frame; sharp_frame]
           [(25600.0, 0.0); (25600.0, 0.0); (25600.0, 0.0)]%float).
  - reflexivity.
  - reflexivity.
  - reflexivity.
  - reflexivity.
  - vm_compute. reflexivity.
  - vm_compute. reflexivity.
  - vm_compute. reflexivity.
  - repeat constructor.
Defined.

(** Without that condition the score can fall: four frames of one colour
    are dropped and the three sharp frames left are answered "OK" with
    score 1.0; with the four replaced by frames of sharpness 16, which
    are kept, the median sharpness is 16 and the answer is score 0.3,
    "Low quality — retake". *)
Example kept_frames_can_lower_the_score :
  exists resp resp',
    snd (measure initial_state 1700000000.0 None None half_flat_burst) = Return resp
    /\ snd (measure initial_state 1700000000.0 None None half_dull_burst) = Return resp'
    /\ frames_used resp = 3%nat /\ score resp = 1.0%float /\ message resp = "OK"
    /\ frames_used resp' = 7%nat /\ score resp' = 0.3%float
    /\ message resp' = "Low quality — retake".
Proof.
  eexists. eexists. split; [vm_compute; reflexivity|].
  split; [vm_compute; reflexivity|]. repeat split.
Qed.

End BetterFrames.
